(** * Data preparation and aggregation pipeline of the air-traffic dashboard

    A shallow embedding of [utils/prep.py], of the column normalisation of
    [utils/io.py], of the metric deriver of [app.py], of the seasonality
    matrix of [utils/viz.py] and of the recovery analysis of
    [sections/deep_dives.py].

    Conventions of the model.
    - A pandas column is a typed list: [IntCol] (int64), [FloatCol]
      (float64) or [ObjCol] (object, any Python value per cell).
    - float64 is idealised: a finite value is an exact rational kept in
      lowest terms, next to the three special values +inf, -inf and NaN.
      Rounding is outside the model.
    - int64 sums wrap around ([wrap64]).
    - A Python [str] is a [string] whose characters are the code points
      below 256, so the no-break space is the character 160.
    - Data frames that the code mutates in place live in a store of
      references ([heap]); [copy] allocates, [setitem] writes. *)

From Stdlib Require Import ZArith QArith Qround String Ascii List Bool Lia.
From Stdlib Require Import DecimalString DecimalZ.
From stdpp Require Import base list.

Local Open Scope string_scope.
Local Open Scope list_scope.
Local Open Scope Z_scope.

(** ** Numbers *)

Module Float64.

Inductive float64 : Type :=
| Fin (q : Q)
| PInf
| NInf
| NaN.

Definition of_Z (z : Z) : float64 := Fin (inject_Z z).

Definition is_nan (x : float64) : bool :=
  match x with NaN => true | _ => false end.

Definition is_finite (x : float64) : bool :=
  match x with Fin _ => true | _ => false end.

Definition Qsgn (q : Q) : Z := Z.sgn (Qnum q).

Definition neg (x : float64) : float64 :=
  match x with
  | Fin q => Fin (Qred (Qopp q))
  | PInf => NInf
  | NInf => PInf
  | NaN => NaN
  end.

Definition add (x y : float64) : float64 :=
  match x, y with
  | NaN, _ | _, NaN => NaN
  | Fin a, Fin b => Fin (Qred (Qplus a b))
  | PInf, NInf | NInf, PInf => NaN
  | PInf, _ | _, PInf => PInf
  | NInf, _ | _, NInf => NInf
  end.

Definition sub (x y : float64) : float64 := add x (neg y).

(** The infinity of the sign [s] (of a product or quotient); a zero sign
    is the invalid operation. *)
Definition inf_of_sign (s : Z) : float64 :=
  match s with
  | Z0 => NaN
  | Zpos _ => PInf
  | Zneg _ => NInf
  end.

Definition sign (x : float64) : Z :=
  match x with
  | Fin q => Qsgn q
  | PInf => 1
  | NInf => -1
  | NaN => 0
  end.

Definition mul (x y : float64) : float64 :=
  match x, y with
  | NaN, _ | _, NaN => NaN
  | Fin a, Fin b => Fin (Qred (Qmult a b))
  | _, _ => inf_of_sign (sign x * sign y)
  end.

(** numpy's true division: [x / 0] is an infinity of the sign of [x]
    (NaN for [0 / 0]), no exception. *)
Definition div (x y : float64) : float64 :=
  match x, y with
  | NaN, _ | _, NaN => NaN
  | Fin a, Fin b =>
      if Qeq_bool b 0 then inf_of_sign (Qsgn a)
      else Fin (Qred (Qdiv a b))
  | Fin _, _ => Fin 0
  | _, Fin b => if Qeq_bool b 0 then x else inf_of_sign (sign x * Qsgn b)
  | _, _ => NaN
  end.

Definition eqb (x y : float64) : bool :=
  match x, y with
  | Fin a, Fin b => Qeq_bool a b
  | PInf, PInf | NInf, NInf => true
  | _, _ => false
  end.

Definition leb (x y : float64) : bool :=
  match x, y with
  | NaN, _ | _, NaN => false
  | Fin a, Fin b => Qle_bool a b
  | NInf, _ | _, PInf => true
  | _, _ => false
  end.

Definition ltb (x y : float64) : bool := leb x y && negb (eqb x y).

(** Floor of a finite value, as numpy's [//] and [%] need it. *)
Definition floordiv (x y : float64) : float64 :=
  match div x y with
  | Fin q => of_Z (Qfloor q)
  | _ => NaN
  end.

Definition modulo (x y : float64) : float64 :=
  match x, y with
  | Fin _, Fin b =>
      if Qeq_bool b 0 then NaN else sub x (mul (floordiv x y) y)
  | Fin _, PInf => if Z.leb 0 (sign x) then x else PInf
  | Fin _, NInf => if Z.leb (sign x) 0 then x else NInf
  | _, _ => NaN
  end.

(** Truncation toward zero, the cast float -> int. *)
Definition trunc (q : Q) : Z :=
  if Qle_bool 0 q then Qfloor q else Qceiling q.

End Float64.
Export Float64.

(** Two's complement wrap-around of int64 arithmetic. *)
Definition int64_min : Z := - 2 ^ 63.
Definition int64_max : Z := 2 ^ 63 - 1.

Definition in_int64 (z : Z) : bool := (int64_min <=? z) && (z <=? int64_max).

Definition wrap64 (z : Z) : Z := (z + 2 ^ 63) mod 2 ^ 64 - 2 ^ 63.

(** ** Exceptions *)

Inductive exn : Type :=
| KeyError (key : string)
| TypeError
| ValueError
| OverflowError.

(** A computation that returns or raises. *)
Definition result (A : Type) : Type := (exn + A)%type.

Definition ok {A} (a : A) : result A := inr a.
Definition throw {A} (e : exn) : result A := inl e.

Definition rbind {A B} (c : result A) (k : A -> result B) : result B :=
  match c with
  | inl e => inl e
  | inr a => k a
  end.

Notation "'let?' x := c 'in' k" := (rbind c (fun x => k))
  (at level 10, x pattern, c at level 100, k at level 200, only parsing).

Fixpoint mapM {A B} (f : A -> result B) (l : list A) : result (list B) :=
  match l with
  | [] => ok []
  | a :: l' =>
      let? b := f a in
      let? bs := mapM f l' in
      ok (b :: bs)
  end.

(** ** Cells, columns and data frames *)

Inductive value : Type :=
| VInt (z : Z)
| VFloat (f : float64)
| VStr (s : string)
| VNA.

(** [pd.isna] on one cell: [None], [pd.NA] and NaN. *)
Definition isna (v : value) : bool :=
  match v with
  | VNA => true
  | VFloat f => is_nan f
  | _ => false
  end.

Definition notna (v : value) : bool := negb (isna v).

Inductive column : Type :=
| IntCol (l : list Z)
| FloatCol (l : list float64)
| ObjCol (l : list value).

Definition values (c : column) : list value :=
  match c with
  | IntCol l => map VInt l
  | FloatCol l => map VFloat l
  | ObjCol l => l
  end.

Definition col_length (c : column) : nat :=
  match c with
  | IntCol l => length l
  | FloatCol l => length l
  | ObjCol l => length l
  end.

Definition is_integer_dtype (c : column) : bool :=
  match c with IntCol _ => true | _ => false end.

Definition is_numeric_dtype (c : column) : bool :=
  match c with IntCol _ | FloatCol _ => true | ObjCol _ => false end.

(** Columns in their order, each with its label. *)
Definition DataFrame : Type := list (string * column).

(** [pd.DataFrame()]. *)
Definition empty_frame : DataFrame := [].

Definition columns (df : DataFrame) : list string := map fst df.

Definition has_column (name : string) (df : DataFrame) : bool :=
  existsb (String.eqb name) (columns df).

Fixpoint getcol (df : DataFrame) (name : string) : option column :=
  match df with
  | [] => None
  | (n, c) :: df' => if String.eqb name n then Some c else getcol df' name
  end.

(** [df[name]]; a missing label raises [KeyError]. *)
Definition getitem (df : DataFrame) (name : string) : result column :=
  match getcol df name with
  | Some c => ok c
  | None => throw (KeyError name)
  end.

(** [df[name] = c] on the frame's value: an existing column is replaced in
    place, a new one is appended. *)
Fixpoint setcol (df : DataFrame) (name : string) (c : column) : DataFrame :=
  match df with
  | [] => [(name, c)]
  | (n, c') :: df' =>
      if String.eqb name n then (n, c) :: df' else (n, c') :: setcol df' name c
  end.

Definition nrows (df : DataFrame) : nat :=
  match df with
  | [] => 0%nat
  | (_, c) :: _ => col_length c
  end.

(** [df.empty]: no column or no row. *)
Definition frame_empty (df : DataFrame) : bool := Nat.eqb (nrows df) 0.

(** A column holding the scalar [pd.NA] in every row: dtype object. *)
Definition na_column (n : nat) : column := ObjCol (repeat VNA n).

(** Boolean indexing. *)
Fixpoint select {A} (mask : list bool) (l : list A) : list A :=
  match mask, l with
  | b :: mask', a :: l' => if b then a :: select mask' l' else select mask' l'
  | _, _ => []
  end.

Definition select_col (mask : list bool) (c : column) : column :=
  match c with
  | IntCol l => IntCol (select mask l)
  | FloatCol l => FloatCol (select mask l)
  | ObjCol l => ObjCol (select mask l)
  end.

(** [df[mask]]. *)
Definition select_rows (mask : list bool) (df : DataFrame) : DataFrame :=
  map (fun nc => (fst nc, select_col mask (snd nc))) df.

Fixpoint mask_and (m1 m2 : list bool) : list bool :=
  match m1, m2 with
  | a :: m1', b :: m2' => (a && b) :: mask_and m1' m2'
  | _, _ => []
  end.

(** Plain signed decimal literals, the canonical string encoding of an
    integer ([str(n)]). *)
Definition decimal (z : Z) : string := NilEmpty.string_of_int (Z.to_int z).

Definition dec_int (s : string) : option Z :=
  option_map Z.of_int (NilEmpty.int_of_string s).

(** ** The store of mutable frames *)

Definition ref : Type := nat.
Definition heap : Type := list DataFrame.

(** A statement sequence: it reads and writes the store, and returns or
    raises. The store is kept when an exception is raised, so that what a
    caller observes afterwards is part of the model. *)
Definition M (A : Type) : Type := heap -> heap * result A.

Definition ret {A} (a : A) : M A := fun h => (h, ok a).

Definition raise {A} (e : exn) : M A := fun h => (h, throw e).

Definition lift {A} (r : result A) : M A := fun h => (h, r).

Definition bind {A B} (c : M A) (k : A -> M B) : M B :=
  fun h =>
    match c h with
    | (h', inl e) => (h', inl e)
    | (h', inr a) => k a h'
    end.

Notation "x <- c ;; k" := (bind c (fun x => k))
  (at level 100, c at next level, right associativity, only parsing).
Notation "c ;; k" := (bind c (fun _ => k))
  (at level 100, right associativity, only parsing).

(** Reading the frame a variable is bound to. *)
Definition deref (r : ref) : M DataFrame :=
  fun h =>
    match h !! r with
    | Some d => (h, ok d)
    | None => (h, throw TypeError)
    end.

(** [df.copy()]: a fresh frame with the same contents. *)
Definition copy (r : ref) : M ref :=
  fun h =>
    match h !! r with
    | Some d => (h ++ [d], ok (length h))
    | None => (h, throw TypeError)
    end.

(** [df[name] = c]: the frame [r] refers to is changed in place. *)
Definition setitem (r : ref) (name : string) (c : column) : M unit :=
  fun h =>
    match h !! r with
    | Some d => (<[r := setcol d name c]> h, ok tt)
    | None => (h, throw TypeError)
    end.

(** [df[name] = pd.NA]: the scalar is broadcast over the rows. *)
Definition setitem_na (r : ref) (name : string) : M unit :=
  d <- deref r ;;
  setitem r name (na_column (nrows d)).

(** ** Comparing cells *)

Definition to_float (v : value) : float64 :=
  match v with
  | VInt z => of_Z z
  | VFloat f => f
  | _ => NaN
  end.

(** [a == b] on two cells: numbers by value across int and float, strings
    by characters; a missing cell equals nothing. *)
Definition value_eqb (a b : value) : bool :=
  match a, b with
  | VStr s, VStr t => String.eqb s t
  | VStr _, _ | _, VStr _ => false
  | _, _ => Float64.eqb (to_float a) (to_float b)
  end.

(** The order group keys and sorted columns are put in: numbers by value,
    strings by code points, numbers before strings, missing cells last. *)
Definition value_leb (a b : value) : bool :=
  match a, b with
  | _, VNA => true
  | VNA, _ => false
  | VStr s, VStr t => String.leb s t
  | VStr _, _ => false
  | _, VStr _ => true
  | _, _ =>
      if is_nan (to_float b) then true
      else if is_nan (to_float a) then false
      else Float64.leb (to_float a) (to_float b)
  end.

(** A group key: one cell per grouping column. *)
Definition key : Type := list value.

Fixpoint key_eqb (k1 k2 : key) : bool :=
  match k1, k2 with
  | [], [] => true
  | a :: k1', b :: k2' => value_eqb a b && key_eqb k1' k2'
  | _, _ => false
  end.

Fixpoint key_leb (k1 k2 : key) : bool :=
  match k1, k2 with
  | [], _ => true
  | _ :: _, [] => false
  | a :: k1', b :: k2' =>
      if value_eqb a b then key_leb k1' k2' else value_leb a b
  end.

Definition key_notna (k : key) : bool := forallb notna k.

(** The key of each row, from the cells of the grouping columns. *)
Fixpoint row_keys (cols : list (list value)) : list key :=
  match cols with
  | [] => []
  | [c] => map (fun v => [v]) c
  | c :: cs => zip_with cons c (row_keys cs)
  end.

(** Stable insertion sort by a "comes first" test. *)
Fixpoint insert_by {A} (before : A -> A -> bool) (x : A) (l : list A) : list A :=
  match l with
  | [] => [x]
  | y :: l' => if before x y then x :: l else y :: insert_by before x l'
  end.

Definition sort_by {A} (before : A -> A -> bool) (l : list A) : list A :=
  fold_right (insert_by before) [] l.

(** One representative of each key. *)
Fixpoint distinct_keys (ks : list key) : list key :=
  match ks with
  | [] => []
  | k :: ks' =>
      let d := distinct_keys ks' in
      if existsb (fun g => key_eqb g k) d then d else k :: d
  end.

(** The groups of a [groupby]: the distinct keys in ascending order; rows
    with a missing key cell belong to no group ([dropna=True]). *)
Definition group_keys (keys : list key) : list key :=
  sort_by key_leb (distinct_keys (List.filter key_notna keys)).

(** The rows of the group [k], as a mask. *)
Definition group_mask (keys : list key) (k : key) : list bool :=
  map (key_eqb k) keys.

(** ** Reductions *)

Definition not_nan (f : float64) : bool := negb (is_nan f).

Definition sum_Z (l : list Z) : Z := fold_left Z.add l 0.

Definition sum_float (l : list float64) : float64 :=
  fold_left Float64.add l (Fin 0).

(** [sum] over float64 with [skipna]: missing cells are left out; the sum
    of nothing is 0. *)
Definition nansum (l : list float64) : float64 :=
  sum_float (List.filter not_nan l).

(** [mean] over float64 with [skipna]: the sum of the cells that are not
    missing over their count; NaN when there is none. *)
Definition nanmean (l : list float64) : float64 :=
  let xs := List.filter not_nan l in
  match xs with
  | [] => NaN
  | _ => Float64.div (sum_float xs) (of_Z (Z.of_nat (length xs)))
  end.

(** [+] on two Python objects. *)
Definition py_add (a b : value) : result value :=
  match a, b with
  | VInt x, VInt y => ok (VInt (x + y))
  | VStr s, VStr t => ok (VStr (String.append s t))
  | VStr _, _ | _, VStr _ => throw TypeError
  | _, _ => ok (VFloat (Float64.add (to_float a) (to_float b)))
  end.

Fixpoint py_fold_add (acc : value) (l : list value) : result value :=
  match l with
  | [] => ok acc
  | v :: l' => let? acc' := py_add acc v in py_fold_add acc' l'
  end.

(** [sum] over object cells with [skipna]. *)
Definition obj_sum (l : list value) : result value :=
  match List.filter notna l with
  | [] => ok (VInt 0)
  | v :: vs => py_fold_add v vs
  end.

(** [mean] over object cells with [skipna]: numbers only. *)
Definition obj_mean (l : list value) : result value :=
  let xs := List.filter notna l in
  if existsb (fun v => match v with VStr _ => true | _ => false end) xs
  then throw TypeError
  else ok (VFloat (nanmean (map to_float xs))).

Inductive aggfunc : Type := AggSum | AggMean.

(** The reduction of the rows of [c] that [mask] selects. An int64 sum
    wraps around; the mean of an int64 column is a float64. *)
Definition reduce (f : aggfunc) (c : column) (mask : list bool) : result value :=
  match f, c with
  | AggSum, IntCol l => ok (VInt (wrap64 (sum_Z (select mask l))))
  | AggSum, FloatCol l => ok (VFloat (nansum (select mask l)))
  | AggSum, ObjCol l => obj_sum (select mask l)
  | AggMean, IntCol l => ok (VFloat (nanmean (map of_Z (select mask l))))
  | AggMean, FloatCol l => ok (VFloat (nanmean (select mask l)))
  | AggMean, ObjCol l => obj_mean (select mask l)
  end.

(** A column of the dtype of [like] holding the cells [vs]. *)
Definition rebuild (like : column) (vs : list value) : column :=
  match like with
  | IntCol _ => IntCol (omap (fun v => match v with VInt z => Some z | _ => None end) vs)
  | FloatCol _ =>
      FloatCol (omap (fun v => match v with VFloat f => Some f | _ => None end) vs)
  | ObjCol _ => ObjCol vs
  end.

(** The dtype of the reduced column. *)
Definition reduced_like (f : aggfunc) (c : column) : column :=
  match f, c with
  | _, ObjCol _ => ObjCol []
  | AggSum, IntCol _ => IntCol []
  | _, _ => FloatCol []
  end.

(** The reduction of column [c] per group, in the order of [gk]. *)
Definition agg_column (f : aggfunc) (keys gk : list key) (c : column)
  : result column :=
  let? vs := mapM (fun k => reduce f c (group_mask keys k)) gk in
  ok (rebuild (reduced_like f c) vs).

(** The [i]-th cell of each key. *)
Definition key_component (i : nat) (gk : list key) : list value :=
  omap (fun k : key => k !! i) gk.

(** ** Masks, sorting and row selection *)

(** [c >= y] and [c <= y] for an int [y]; a missing cell compares false, a
    string against an int raises. *)
Definition value_ge (y : Z) (v : value) : result bool :=
  match v with
  | VInt z => ok (y <=? z)
  | VFloat f => ok (Float64.leb (of_Z y) f)
  | VStr _ => throw TypeError
  | VNA => ok false
  end.

Definition value_le (y : Z) (v : value) : result bool :=
  match v with
  | VInt z => ok (z <=? y)
  | VFloat f => ok (Float64.leb f (of_Z y))
  | VStr _ => throw TypeError
  | VNA => ok false
  end.

Definition col_ge (c : column) (y : Z) : result (list bool) :=
  mapM (value_ge y) (values c).

Definition col_le (c : column) (y : Z) : result (list bool) :=
  mapM (value_le y) (values c).

(** [lo <= year <= hi], both comparisons evaluated. *)
Definition between_mask (c : column) (lo hi : Z) : result (list bool) :=
  let? m1 := col_ge c lo in
  let? m2 := col_le c hi in
  ok (mask_and m1 m2).

(** [c.isin(labels)] for a list of strings. *)
Definition col_isin (c : column) (labels : list string) : list bool :=
  map (fun v => match v with
                | VStr s => existsb (String.eqb s) labels
                | _ => false
                end) (values c).

(** [c == label] for a string. *)
Definition col_eq_str (c : column) (label : string) : list bool :=
  map (fun v => value_eqb v (VStr label)) (values c).

(** [c.notna().any()]. *)
Definition notna_any (c : column) : bool := existsb notna (values c).

(** Descending order with the missing cells last ([na_position='last']). *)
Definition desc_before (a b : value) : bool :=
  if isna b then true else if isna a then false else value_leb b a.

Definition asc_before (a b : value) : bool :=
  if isna b then true else if isna a then false else value_leb a b.

(** The row numbers in the order [sort_values] puts them. *)
Definition sort_order (before : value -> value -> bool) (vs : list value)
  : list nat :=
  map fst (sort_by (fun a b => before (snd a) (snd b))
             (zip (seq 0 (length vs)) vs)).

Definition take_at {A} (idxs : list nat) (l : list A) : list A :=
  omap (fun i => l !! i) idxs.

Definition take_col (idxs : list nat) (c : column) : column :=
  match c with
  | IntCol l => IntCol (take_at idxs l)
  | FloatCol l => FloatCol (take_at idxs l)
  | ObjCol l => ObjCol (take_at idxs l)
  end.

Definition take_rows (idxs : list nat) (df : DataFrame) : DataFrame :=
  map (fun nc => (fst nc, take_col idxs (snd nc))) df.

(** [df.sort_values(name, ascending=False)]. *)
Definition sort_values_desc (df : DataFrame) (name : string) : result DataFrame :=
  let? c := getitem df name in
  ok (take_rows (sort_order desc_before (values c)) df).

(** ** The filter specification

    The [filters] dictionary of [make_tables]: a key may be absent, and
    [year_min]/[year_max] may be present with the value [None]. *)
Record Filters : Type := {
  f_year_min : option (option Z);
  f_year_max : option (option Z);
  f_countries : option (list string);
  f_nationality : option string
}.

Definition no_filters : Filters :=
  {| f_year_min := None; f_year_max := None;
     f_countries := None; f_nationality := None |}.

(** Truth value of a dictionary: it has a key. *)
Definition dict_truthy (f : Filters) : bool :=
  match f_year_min f, f_year_max f, f_countries f, f_nationality f with
  | None, None, None, None => false
  | _, _, _, _ => true
  end.

(** Truth value of an optional string: neither [None] nor empty. *)
Definition str_truthy (s : option string) : bool :=
  match s with
  | Some s => negb (String.eqb s "")
  | None => false
  end.

Definition list_truthy {A} (l : option (list A)) : bool :=
  match l with
  | Some (_ :: _) => true
  | _ => false
  end.

(** The three tables [make_tables] returns. *)
Record Tables : Type := {
  timeseries : DataFrame;
  by_region : DataFrame;
  geo : DataFrame
}.

(** What an entry of [agg_dict] asks for: the sum, or the first cell that
    is not missing, as text. *)
Inductive agg_spec : Type := SpecSum | SpecFirst.

(** A label occurs twice. *)
Fixpoint has_dup (l : list string) : bool :=
  match l with
  | [] => false
  | x :: l' => existsb (String.eqb x) l' || has_dup l'
  end.

Fixpoint dict_set {A} (d : list (string * A)) (k : string) (a : A)
  : list (string * A) :=
  match d with
  | [] => [(k, a)]
  | (k', a') :: d' =>
      if String.eqb k k' then (k', a) :: d' else (k', a') :: dict_set d' k a
  end.

(** ** Strings *)

Definition nbsp : ascii := ascii_of_nat 160.
Definition space : ascii := ascii_of_nat 32.
Definition comma : ascii := ascii_of_nat 44.
Definition dot : ascii := ascii_of_nat 46.

(** [s.replace(a, b)] for single characters. *)
Fixpoint replace_char (a b : ascii) (s : string) : string :=
  match s with
  | EmptyString => EmptyString
  | String c s' =>
      String (if Ascii.eqb c a then b else c) (replace_char a b s')
  end.

(** [s.replace(a, '')]. *)
Fixpoint remove_char (a : ascii) (s : string) : string :=
  match s with
  | EmptyString => EmptyString
  | String c s' =>
      if Ascii.eqb c a then remove_char a s' else String c (remove_char a s')
  end.

(** [str.isspace] on the code points below 256. *)
Definition is_space (c : ascii) : bool :=
  let n := nat_of_ascii c in
  ((9 <=? n) && (n <=? 13) || (28 <=? n) && (n <=? 32)
   || (n =? 133) || (n =? 160))%nat.

Fixpoint lstrip (s : string) : string :=
  match s with
  | EmptyString => EmptyString
  | String c s' => if is_space c then lstrip s' else s
  end.

Fixpoint rstrip (s : string) : string :=
  match s with
  | EmptyString => EmptyString
  | String c s' =>
      match rstrip s' with
      | EmptyString => if is_space c then EmptyString else String c EmptyString
      | r => String c r
      end
  end.

(** [s.strip()]. *)
Definition strip (s : string) : string := rstrip (lstrip s).

(** Upper case of the ASCII letters: all that the search for ["FRANCE"]
    looks at, no other character below 256 has one of its letters as its
    upper case. *)
Definition upper_char (c : ascii) : ascii :=
  let n := nat_of_ascii c in
  if ((97 <=? n) && (n <=? 122))%nat then ascii_of_nat (n - 32) else c.

Fixpoint str_upper (s : string) : string :=
  match s with
  | EmptyString => EmptyString
  | String c s' => String (upper_char c) (str_upper s')
  end.

(** [sub in s]. *)
Fixpoint str_contains (sub s : string) : bool :=
  String.prefix sub s
  || match s with
     | EmptyString => false
     | String _ s' => str_contains sub s'
     end.

(** ** Numbers read from text *)

(** What [pd.to_numeric] makes of one cell: an int or a float, NaN when
    the cell does not read as a number ([errors='coerce']). *)
Inductive number : Type :=
| NInt (z : Z)
| NFloat (f : float64).

Definition float_of_number (n : number) : float64 :=
  match n with
  | NInt z => of_Z z
  | NFloat f => f
  end.

Definition number_notna (n : number) : bool :=
  match n with
  | NInt _ => true
  | NFloat f => not_nan f
  end.

(** The converted column: int64 when every cell is an int, else float64. *)
Definition column_of_numbers (ns : list number) : column :=
  match mapM (fun n => match n with
                       | NInt z => ok z
                       | NFloat _ => throw ValueError
                       end) ns with
  | inr zs => IntCol zs
  | inl _ => FloatCol (map float_of_number ns)
  end.

(** [c.notna().mean()]: the share of cells that are not missing; NaN for
    a column without rows. *)
Definition notna_mean (c : column) : float64 :=
  Float64.div
    (of_Z (Z.of_nat (length (List.filter notna (values c)))))
    (of_Z (Z.of_nat (col_length c))).

Definition half : float64 := Fin (1 # 2).

(** ** Division of columns *)

(** [c.replace({0: pd.NA})]: a column that holds a zero becomes an object
    column, its zeros replaced by [pd.NA]; one without zero is unchanged. *)
Definition replace_zero_na (c : column) : column :=
  let is_zero v := value_eqb v (VInt 0) in
  if existsb is_zero (values c)
  then ObjCol (map (fun v => if is_zero v then VNA else v) (values c))
  else c.

(** [a / b] on two cells of which one is an object: [pd.NA] propagates. *)
Definition py_truediv (a b : value) : result value :=
  match a, b with
  | VStr _, _ | _, VStr _ => throw TypeError
  | VNA, _ | _, VNA => ok VNA
  | _, _ => ok (VFloat (Float64.div (to_float a) (to_float b)))
  end.

Fixpoint zip_mapM {A B C} (f : A -> B -> result C) (l1 : list A) (l2 : list B)
  : result (list C) :=
  match l1, l2 with
  | a :: l1', b :: l2' =>
      let? c := f a b in
      let? cs := zip_mapM f l1' l2' in
      ok (c :: cs)
  | _, _ => ok []
  end.

(** [a / b] on two columns of one frame: float64 when both are numeric,
    object when one of them is. *)
Definition col_truediv (a b : column) : result column :=
  if is_numeric_dtype a && is_numeric_dtype b
  then ok (FloatCol (zip_with Float64.div (map to_float (values a))
                       (map to_float (values b))))
  else let? vs := zip_mapM py_truediv (values a) (values b) in ok (ObjCol vs).

(** ** app.py: derived metrics *)

(** Lines 76-81: the working frame with the requested ratio. *)
Definition df_with_metrics (raw : DataFrame) (metric : option string)
  : result DataFrame :=
  let df := raw in
  let? df :=
    match metric with
    | Some m =>
        if String.eqb m "PAX_PER_VOL" then
          let? pax := getitem df "CIE_PAX" in
          let? vol := getitem df "CIE_VOL" in
          let? q := col_truediv pax (replace_zero_na vol) in
          ok (setcol df "PAX_PER_VOL" q)
        else ok df
    | None => ok df
    end in
  match metric with
  | Some m =>
      if String.eqb m "FRP_PER_PAX" then
        let? frp := getitem df "CIE_FRP" in
        let? pax := getitem df "CIE_PAX" in
        let? q := col_truediv frp (replace_zero_na pax) in
        ok (setcol df "FRP_PER_PAX" q)
      else ok df
  | None => ok df
  end.

(** The derived cell of one row, from its numerator and its denominator:
    undefined when the denominator is zero, the quotient otherwise. *)
Definition ratio_cell (p v : value) : value :=
  if value_eqb v (VInt 0) then VNA
  else VFloat (Float64.div (to_float p) (to_float v)).

(** The two derived metrics: their name, numerator and denominator. *)
Definition ratio_metric (per_flight : bool) : string * string * string :=
  if per_flight then ("PAX_PER_VOL", "CIE_PAX", "CIE_VOL")
  else ("FRP_PER_PAX", "CIE_FRP", "CIE_PAX").

(** ** Pivot tables *)

Record Pivot : Type := {
  p_index : list value;
  p_columns : list value;
  p_cells : list (list value)
}.

(** The distinct cells that are not missing, ascending. *)
Definition sorted_labels (vs : list value) : list value :=
  concat (group_keys (map (fun v => [v]) vs)).

(** The cell of the row whose labels are [y] and [m]; NaN when no row has
    them. *)
Definition pivot_lookup (idx cols vals : list value) (y m : value) : value :=
  match List.find (fun r => value_eqb (fst (fst r)) y && value_eqb (snd (fst r)) m)
          (zip (zip idx cols) vals) with
  | Some r => snd r
  | None => VFloat NaN
  end.

(** [df.pivot(index, columns, values)] on a grouped table, whose label
    pairs are distinct. *)
Definition pivot (df : DataFrame) (index columns_ values_ : string) : result Pivot :=
  let? i := getitem df index in
  let? c := getitem df columns_ in
  let? v := getitem df values_ in
  let ys := sorted_labels (values i) in
  let ms := sorted_labels (values c) in
  ok {| p_index := ys;
        p_columns := ms;
        p_cells := map (fun y => map (pivot_lookup (values i) (values c) (values v) y) ms) ys |}.

(** [p.reindex(columns=labels)]: the columns are exactly [labels]; one
    the table did not have is filled with NaN. *)
Definition reindex_columns (p : Pivot) (labels : list value) : Pivot :=
  {| p_index := p_index p;
     p_columns := labels;
     p_cells :=
       map (fun row =>
              map (fun m =>
                     match List.find (fun cm => value_eqb (fst cm) m)
                             (zip (p_columns p) row) with
                     | Some cm => snd cm
                     | None => VFloat NaN
                     end) labels)
         (p_cells p) |}.

(** [list(range(1, 13))]. *)
Definition months : list value := map VInt [1; 2; 3; 4; 5; 6; 7; 8; 9; 10; 11; 12].

(** [p.isna().all(axis=None)]. *)
Definition pivot_all_na (p : Pivot) : bool := forallb (forallb isna) (p_cells p).

(** What [heatmap_seasonality] does: one of its four notices, or the
    figure drawn from the year x month matrix. *)
Inductive heatmap_outcome : Type :=
| HeatNoData
| HeatSelectMetric
| HeatNeedsPeriod
| HeatAllMissing (p : Pivot)
| HeatFigure (p : Pivot).

Definition ints (c : column) : list Z :=
  match c with
  | IntCol l => l
  | _ => []
  end.

Definition max_list (l : list Z) : Z :=
  match l with
  | [] => 0
  | x :: l' => fold_left Z.max l' x
  end.

(** ** Recovery records *)

Record RecoveryRow : Type := {
  rec_name : value;
  rec_base : float64;
  rec_last : float64;
  rec_abs_delta : float64;
  rec_pct : float64
}.

(** [safe_pct(row)], lines 79-84, on the baseline total [b] and the
    latest total [l]. *)
Definition safe_pct (b l : float64) : float64 :=
  if Float64.eqb b (Fin 0)
  then (if Float64.ltb (Fin 0) l then PInf else Fin 0)
  else Float64.mul (Float64.div l b) (Fin 100).

(** [fillna(0)] on one cell. *)
Definition fillna0 (f : float64) : float64 :=
  if is_nan f then Fin 0 else f.

(** The cell of a series at the index label [e]; NaN when the label is
    not in its index (the outer join of [pd.concat]). *)
Definition series_lookup (s : list (value * value)) (e : value) : float64 :=
  match List.find (fun r => value_eqb (fst r) e) s with
  | Some r => to_float (snd r)
  | None => NaN
  end.

(** [df.head(n)]. *)
Definition head_n {A} (n : Z) (l : list A) : list A :=
  if 0 <=? n then firstn (Z.to_nat n) l
  else firstn (length l - Z.to_nat (- n)) l.

Record Highlights : Type := {
  best : list RecoveryRow;
  worst : list RecoveryRow;
  infers : list RecoveryRow
}.

(** What the recovery block shows: one of its notices, the error message
    of its outer handler, or the table of the top carriers with the
    highlights ([None] when the inner handler caught an exception). *)
Inductive recovery_outcome : Type :=
| NoFrenchCarriers
| MetricUnavailable
| InsufficientYears
| RecoveryFailed
| RecoveryShown (baseline_year latest_year : value)
    (df_recovery top_companies : list RecoveryRow)
    (highlights : option Highlights).

(** ** Instances of the library parsers

    Readers and printers of plain decimal integers, with which the
    examples run: [int(s)], [pd.to_numeric] on one string, and [str(x)]
    of a float that holds an integer. *)

Definition dec_number (s : string) : number :=
  match dec_int s with
  | Some z => NInt z
  | None => NFloat NaN
  end.

Definition str_integral (q : Q) : string :=
  String.append (decimal (Qfloor q)) ".0".

(** ** Example frames *)


(** The same periods, arriving as text. *)
Definition text_period_frame : DataFrame :=
  [("ANMOIS", ObjCol [VStr "201901"; VStr "202412"])].

(** One group, one period, the metric [10, missing, 30]. *)
Definition gap_frame : DataFrame :=
  [("ANMOIS", IntCol [201901; 201901; 201901]);
   ("CIE_PAX", FloatCol [of_Z 10; NaN; of_Z 30])].

(** A text column of which one cell holds a number and two are null, and
    one of which two of three cells hold a number. *)
Definition sparse_column : list value :=
  [VStr "1 234"; VFloat NaN; VFloat NaN].

Definition mostly_numeric_column : list value :=
  [VStr "1 234"; VStr " 12"; VStr "n/a"].

(** A new carrier (no baseline) next to one that halved. *)
Definition carriers_frame : DataFrame :=
  [("ANMOIS", IntCol [202401; 201901; 202401]);
   ("CIE_NOM", ObjCol [VStr "NEWAIR"; VStr "OLDAIR"; VStr "OLDAIR"]);
   ("CIE_NAT", ObjCol [VStr "F"; VStr "F"; VStr "F"]);
   ("CIE_PAX", IntCol [50; 200; 100])].

Definition newair_row : RecoveryRow :=
  {| rec_name := VStr "NEWAIR"; rec_base := of_Z 0; rec_last := of_Z 50;
     rec_abs_delta := of_Z 50; rec_pct := PInf |}.

Definition oldair_row : RecoveryRow :=
  {| rec_name := VStr "OLDAIR"; rec_base := of_Z 200; rec_last := of_Z 100;
     rec_abs_delta := of_Z (-100); rec_pct := of_Z 50 |}.

(** Three rows in two months of one year; the first month sums to 0. *)
Definition seasons_frame : DataFrame :=
  [("ANMOIS", IntCol [201901; 201901; 201903]);
   ("CIE_PAX", IntCol [5; -5; 7])].

(** A frame without [CIE_PAX] and without a numeric column: the tables of
    the absent metric are empty. *)
Definition text_only_frame : DataFrame :=
  [("CIE_PAYS", ObjCol [VStr "FRANCE"])].

Section Pipeline.

Set Default Proof Using "Type".

(** Python's [int(s)] on a string: [None] when it raises. *)
Variable py_int : string -> option Z.

(** ** Column arithmetic and casts *)

(** One object cell through [int()]. *)
Definition int_of_value (v : value) : result Z :=
  match v with
  | VInt z => if in_int64 z then ok z else throw OverflowError
  | VFloat (Fin q) =>
      if in_int64 (trunc q) then ok (trunc q) else throw OverflowError
  | VFloat NaN => throw ValueError
  | VFloat _ => throw OverflowError
  | VStr s =>
      match py_int s with
      | Some z => if in_int64 z then ok z else throw OverflowError
      | None => throw ValueError
      end
  | VNA => throw TypeError
  end.

(** [float64 -> int64]: pandas refuses NaN and the infinities; a finite
    value is truncated (and wraps when it does not fit). *)
Definition int_of_float (f : float64) : result Z :=
  match f with
  | Fin q => ok (wrap64 (trunc q))
  | _ => throw ValueError
  end.

(** [c.astype(int)]. *)
Definition astype_int (c : column) : result column :=
  match c with
  | IntCol l => ok (IntCol l)
  | FloatCol l => let? zs := mapM int_of_float l in ok (IntCol zs)
  | ObjCol l => let? zs := mapM int_of_value l in ok (IntCol zs)
  end.

(** One object cell through Python's [//] and [%] with an int divisor. *)
Definition value_floordiv (d : Z) (v : value) : result value :=
  match v with
  | VInt z => ok (VInt (z / d))
  | VFloat f => ok (VFloat (floordiv f (of_Z d)))
  | VStr _ => throw TypeError
  | VNA => ok VNA
  end.

Definition value_mod (d : Z) (v : value) : result value :=
  match v with
  | VInt z => ok (VInt (z mod d))
  | VFloat f => ok (VFloat (modulo f (of_Z d)))
  | VStr _ => throw TypeError
  | VNA => ok VNA
  end.

(** [c // d] and [c % d] for a non-zero int [d]: floor division, the
    remainder has the sign of the divisor. *)
Definition col_floordiv (c : column) (d : Z) : result column :=
  match c with
  | IntCol l => ok (IntCol (map (fun z => z / d) l))
  | FloatCol l => ok (FloatCol (map (fun f => floordiv f (of_Z d)) l))
  | ObjCol l => let? vs := mapM (value_floordiv d) l in ok (ObjCol vs)
  end.

Definition col_mod (c : column) (d : Z) : result column :=
  match c with
  | IntCol l => ok (IntCol (map (fun z => z mod d) l))
  | FloatCol l => ok (FloatCol (map (fun f => modulo f (of_Z d)) l))
  | ObjCol l => let? vs := mapM (value_mod d) l in ok (ObjCol vs)
  end.

(** ** utils/prep.py *)

(** [_ensure_year_column(df)], lines 5-28. The frame is copied before
    [year] and [month] are written when [ANMOIS] is there; without
    [ANMOIS] the argument itself receives [year]. *)
Definition _ensure_year_column (df : ref) : M ref :=
  d <- deref df ;;
  match getcol d "ANMOIS" with
  | Some anmois =>
      if is_integer_dtype anmois then
        df <- copy df ;;
        year <- lift (let? q := col_floordiv anmois 100 in astype_int q) ;;
        setitem df "year" year ;;
        match (let? r := col_mod anmois 100 in astype_int r) with
        | inr month => setitem df "month" month
        | inl _ => setitem_na df "month"
        end ;;
        ret df
      else
        (* [df = df.copy()] is the first statement of the [try]: the
           handler writes to the copy. *)
        df <- copy df ;;
        match
          (let? a := astype_int anmois in
           let? q := col_floordiv a 100 in
           let? year := astype_int q in
           let? r := col_mod a 100 in
           let? month := astype_int r in
           ok (a, year, month))
        with
        | inr (a, year, month) =>
            setitem df "ANMOIS" a ;;
            setitem df "year" year ;;
            setitem df "month" month ;;
            ret df
        | inl _ =>
            setitem_na df "year" ;;
            setitem_na df "month" ;;
            ret df
        end
  | None =>
      setitem_na df "year" ;;
      ret df
  end.

(** [str(x)] of a finite float. *)
Variable py_str_finite : Q -> string.

(** [str(x)] of one cell, as [astype(str)] applies it; a missing cell is
    the float NaN of a parsed file or [None]. *)
Definition py_str (v : value) : string :=
  match v with
  | VStr s => s
  | VInt z => decimal z
  | VFloat (Fin q) => py_str_finite q
  | VFloat PInf => "inf"
  | VFloat NInf => "-inf"
  | VFloat NaN => "nan"
  | VNA => "None"
  end.

(** The key columns of a grouped table after [reset_index]. *)
Definition key_columns (by_ : list string) (keycols : list column)
  (gk : list key) : DataFrame :=
  imap (fun i nc => (fst nc, rebuild (snd nc) (key_component i gk)))
    (zip by_ keycols).

(** [df.groupby(by)[target].agg(f).reset_index()]; [reset_index] cannot
    insert a key column whose label the value column already has. *)
Definition groupby_agg (f : aggfunc) (df : DataFrame) (by_ : list string)
  (target : string) : result DataFrame :=
  let? keycols := mapM (getitem df) by_ in
  let? c := getitem df target in
  let keys := row_keys (map values keycols) in
  let gk := group_keys keys in
  let? vals := agg_column f keys gk c in
  if existsb (String.eqb target) by_ || has_dup by_
  then throw ValueError
  else ok (key_columns by_ keycols gk ++ [(target, vals)]).

(** [x.dropna().astype(str).iloc[0] if x.dropna().size > 0 else None],
    per group. *)
Definition first_text (keys gk : list key) (c : column) : column :=
  ObjCol (map (fun k =>
                 match List.filter notna (select (group_mask keys k) (values c)) with
                 | [] => VNA
                 | v :: _ => VStr (py_str v)
                 end) gk).

(** [df.groupby(by).agg(agg_dict).reset_index()]: one column per entry
    of the dictionary; a grouping column cannot be aggregated. *)
Fixpoint agg_entries (df : DataFrame) (by_ : string) (keys gk : list key)
  (entries : list (string * agg_spec)) : result DataFrame :=
  match entries with
  | [] => ok []
  | (name, spec) :: rest =>
      if String.eqb name by_ then throw (KeyError name)
      else
        let? c := getitem df name in
        let? col := match spec with
                    | SpecSum => agg_column AggSum keys gk c
                    | SpecFirst => ok (first_text keys gk c)
                    end in
        let? cols := agg_entries df by_ keys gk rest in
        ok ((name, col) :: cols)
  end.

(** Lines 47-58 of [make_tables]: the filters, one after the other. *)
Definition apply_filters (df : DataFrame) (filters : option Filters)
  : result DataFrame :=
  match filters with
  | Some f =>
      if dict_truthy f then
        let? df :=
          match f_year_min f, f_year_max f with
          | Some (Some ymin), Some (Some ymax) =>
              let? year := getitem df "year" in
              let? m := between_mask year ymin ymax in
              ok (select_rows m df)
          | _, _ => ok df
          end in
        let df :=
          if list_truthy (f_countries f) then
            match getcol df "CIE_PAYS", f_countries f with
            | Some c, Some l => select_rows (col_isin c l) df
            | _, _ => df
            end
          else df in
        let df :=
          if str_truthy (f_nationality f) then
            match getcol df "CIE_NAT", f_nationality f with
            | Some c, Some n => select_rows (col_eq_str c n) df
            | _, _ => df
            end
          else df in
        ok df
      else ok df
  | None => ok df
  end.

Definition numeric_cols (df : DataFrame) : list string :=
  map fst (List.filter (fun nc => is_numeric_dtype (snd nc)) df).

(** Lines 62-68: the requested metric when it is a numeric column,
    otherwise [CIE_PAX] when there is such a column, otherwise the first
    numeric column, otherwise [None]. *)
Definition metric_column (df : DataFrame) (metric : option string)
  : option string :=
  match metric with
  | Some m =>
      if str_truthy metric
         && match getcol df m with
            | Some c => is_numeric_dtype c
            | None => false
            end
      then Some m
      else if has_column "CIE_PAX" df then Some "CIE_PAX"
           else head (numeric_cols df)
  | None =>
      if has_column "CIE_PAX" df then Some "CIE_PAX"
      else head (numeric_cols df)
  end.

(** Lines 70-75. *)
Definition make_timeseries (df : DataFrame) (metric_col : option string)
  : result DataFrame :=
  match getcol df "year", metric_col with
  | Some year, Some m =>
      if notna_any year && str_truthy metric_col
      then groupby_agg AggSum df ["year"] m
      else ok empty_frame
  | _, _ => ok empty_frame
  end.

(** Lines 77-88. *)
Definition make_by_region (df : DataFrame) (metric_col : option string)
  : result DataFrame :=
  match getcol df "CIE_PAYS", metric_col with
  | Some pays, Some m =>
      if str_truthy metric_col then
        let agg_dict := [(m, SpecSum)] in
        let agg_dict :=
          if has_column "CIE_PAYS_EN" df
          then dict_set agg_dict "CIE_PAYS_EN" SpecFirst else agg_dict in
        let agg_dict :=
          if has_column "CIE_PAYS_ISO3" df
          then dict_set agg_dict "CIE_PAYS_ISO3" SpecFirst else agg_dict in
        let keys := row_keys [values pays] in
        let gk := group_keys keys in
        let? cols := agg_entries df "CIE_PAYS" keys gk agg_dict in
        sort_values_desc (key_columns ["CIE_PAYS"] [pays] gk ++ cols) m
      else ok empty_frame
  | _, _ => ok empty_frame
  end.

(** Lines 90-93. *)
Definition make_geo (df : DataFrame) (metric_col : option string)
  : result DataFrame :=
  match metric_col with
  | Some m =>
      if has_column "lat" df && has_column "lon" df && str_truthy metric_col
      then groupby_agg AggSum df ["lat"; "lon"] m
      else ok empty_frame
  | None => ok empty_frame
  end.

(** Lines 60-95: the tables of the filtered frame. *)
Definition build_tables (df : DataFrame) (metric : option string)
  : result Tables :=
  let metric_col := metric_column df metric in
  let? ts := make_timeseries df metric_col in
  let? br := make_by_region df metric_col in
  let? g := make_geo df metric_col in
  ok {| timeseries := ts; by_region := br; geo := g |}.

(** [make_tables(df, filters, metric)]. *)
Definition make_tables (df : ref) (filters : option Filters)
  (metric : option string) : M Tables :=
  df <- copy df ;;
  df <- _ensure_year_column df ;;
  d <- deref df ;;
  d <- lift (apply_filters d filters) ;;
  lift (build_tables d metric).

(** Lines 104-111 of [filter_and_make]: the dictionary has a key only
    for a filter that is set. *)
Definition build_filters (year_min year_max : option Z)
  (countries : option (list string)) (nationality : option string) : Filters :=
  {| f_year_min := match year_min, year_max with
                   | Some a, Some _ => Some (Some a)
                   | _, _ => None
                   end;
     f_year_max := match year_min, year_max with
                   | Some _, Some b => Some (Some b)
                   | _, _ => None
                   end;
     f_countries := if list_truthy countries then countries else None;
     f_nationality := if str_truthy nationality then nationality else None |}.

(** Lines 120-126 of [filter_and_make]: the filters applied to the
    frame that is returned. Only the nationality filter looks for its
    column first. *)
Definition filter_frame (d : DataFrame) (filters : Filters) : result DataFrame :=
  let? d :=
    match f_year_min filters, f_year_max filters with
    | Some (Some ymin), Some (Some ymax) =>
        let? year := getitem d "year" in
        let? m := between_mask year ymin ymax in
        ok (select_rows m d)
    | _, _ => ok d
    end in
  let? d :=
    match f_countries filters with
    | Some l =>
        let? pays := getitem d "CIE_PAYS" in
        ok (select_rows (col_isin pays l) d)
    | None => ok d
    end in
  ok match f_nationality filters, getcol d "CIE_NAT" with
     | Some n, Some c => select_rows (col_eq_str c n) d
     | _, _ => d
     end.

(** [filter_and_make(df, year_min, year_max, countries, metric,
    nationality)]: the filtered frame and the tables. *)
Definition filter_and_make (df : ref) (year_min year_max : option Z)
  (countries : option (list string)) (metric : option string)
  (nationality : option string) : M (DataFrame * Tables) :=
  df <- bind (copy df) _ensure_year_column ;;
  let filters := build_filters year_min year_max countries nationality in
  tables <- make_tables df (Some filters) metric ;;
  df_filtered <- copy df ;;
  df_filtered <- _ensure_year_column df_filtered ;;
  d <- deref df_filtered ;;
  d <- lift (filter_frame d filters) ;;
  ret (d, tables).

(** ** utils/io.py: normalisation on ingest *)

(** [pd.to_numeric] on one string, [errors='coerce']. *)
Variable to_numeric_str : string -> number.

Definition number_of_value (v : value) : number :=
  match v with
  | VInt z => NInt z
  | VFloat f => NFloat f
  | VStr s => to_numeric_str s
  | VNA => NFloat NaN
  end.

(** [pd.to_numeric(c, errors='coerce')]. *)
Definition to_numeric (c : column) : column :=
  match c with
  | ObjCol l => column_of_numbers (map number_of_value l)
  | _ => c
  end.

(** Line 62: the cell as text, no-break spaces made plain, trimmed. *)
Definition trimmed (v : value) : string :=
  strip (replace_char nbsp space (py_str v)).

(** Line 64: the text without spaces, its commas made decimal points. *)
Definition numeric_candidate (s : string) : string :=
  replace_char comma dot (remove_char space s).

(** Lines 61-69 of [fetch_and_cache], for one column: an object column
    becomes numeric when more than half of its cells convert, else its
    cells are kept as trimmed text. *)
Definition normalize_column (c : column) : column :=
  match c with
  | ObjCol l =>
      let s := map trimmed l in
      let converted :=
        column_of_numbers (map to_numeric_str (map numeric_candidate s)) in
      if Float64.ltb half (notna_mean converted)
      then converted
      else ObjCol (map VStr s)
  | _ => c
  end.

(** The cell converts: its text reads as a number. *)
Definition converts (v : value) : bool :=
  number_notna (to_numeric_str (numeric_candidate (trimmed v))).

(** The decision as the specification words it: the share, among the
    cells that are not null, of those that convert exceeds 0.5. *)
Definition spec_numeric_decision (l : list value) : bool :=
  let nonnull := List.filter notna l in
  Float64.ltb half
    (Float64.div (of_Z (Z.of_nat (length (List.filter converts nonnull))))
       (of_Z (Z.of_nat (length nonnull)))).

(** Lines 60-69: every column in turn. *)
Definition normalize_frame (all_df : DataFrame) : DataFrame :=
  map (fun nc => (fst nc, normalize_column (snd nc))) all_df.

(** ** utils/viz.py: the seasonality matrix *)

(** [heatmap_seasonality(df, metric, aggfunc, years_limit)], lines
    218-261: the notices and the matrix that is drawn. The event markers
    drawn over the figure afterwards are display only. *)
Definition heatmap_seasonality (df : option DataFrame) (metric : option string)
  (aggfunc_ : string) (years_limit : option Z) : result heatmap_outcome :=
  match df with
  | None => ok HeatNoData
  | Some df =>
      if frame_empty df then ok HeatNoData
      else
        match metric with
        | None => ok HeatSelectMetric
        | Some metric =>
            if negb (has_column metric df) then ok HeatSelectMetric
            else
              match getcol df "ANMOIS" with
              | None => ok HeatNeedsPeriod
              | Some anmois =>
                  let tmp := df in
                  let tmp :=
                    match astype_int anmois with
                    | inr a => setcol tmp "ANMOIS" a
                    | inl _ => tmp
                    end in
                  let? anmois := getitem tmp "ANMOIS" in
                  let? year := (let? q := col_floordiv anmois 100 in astype_int q) in
                  let tmp := setcol tmp "year" year in
                  let? anmois := getitem tmp "ANMOIS" in
                  let? month := (let? r := col_mod anmois 100 in astype_int r) in
                  let tmp := setcol tmp "month" month in
                  let? tmp :=
                    match years_limit with
                    | Some n =>
                        if 0 <? n then
                          let? year := getitem tmp "year" in
                          let max_year := max_list (ints year) in
                          let min_year := max_year - (n - 1) in
                          let? m := between_mask year min_year max_year in
                          ok (select_rows m tmp)
                        else ok tmp
                    | None => ok tmp
                    end in
                  let? agg :=
                    groupby_agg
                      (if String.eqb aggfunc_ "mean" then AggMean else AggSum)
                      tmp ["year"; "month"] metric in
                  let? pv := pivot agg "year" "month" metric in
                  let pv := reindex_columns pv months in
                  if pivot_all_na pv then ok (HeatAllMissing pv)
                  else ok (HeatFigure pv)
              end
        end
  end.

(** ** sections/deep_dives.py: recovery against the baseline year *)

(** Lines 40-44: the rows of French carriers. *)
Definition french_mask (dfc : DataFrame) : list bool :=
  match getcol dfc "CIE_NAT" with
  | Some c => map (fun v => String.eqb (py_str v) "F") (values c)
  | None =>
      match getcol dfc "CIE_PAYS" with
      | Some c =>
          map (fun v => str_contains "FRANCE" (str_upper (py_str v))) (values c)
      | None => repeat false (nrows dfc)
      end
  end.

(** Lines 53-57: [year] from [ANMOIS], or from an existing [year]
    column read as numbers when [ANMOIS] cannot be used. *)
Definition recovery_years (df_fr : DataFrame) : DataFrame :=
  match
    (let? a0 := getitem df_fr "ANMOIS" in
     let? a := astype_int a0 in
     let? q := col_floordiv a 100 in
     let? y := astype_int q in
     ok (a, y))
  with
  | inr (a, y) => setcol (setcol df_fr "ANMOIS" a) "year" y
  | inl _ =>
      setcol df_fr "year"
        match getcol df_fr "year" with
        | Some c => to_numeric c
        | None => FloatCol (repeat NaN (nrows df_fr))
        end
  end.

(** The rows of [agg] of the year [y], indexed by company: lines 73-74. *)
Definition year_series (company year total : list value) (y : value)
  : list (value * value) :=
  map (fun r => (fst (fst r), snd r))
    (List.filter (fun r => value_eqb (snd (fst r)) y)
       (zip (zip company year) total)).

(** Lines 76-86: the outer join of the two series on the company, the
    missing totals filled with 0, the delta and the percentage. *)
Definition recovery_rows (base last : list (value * value)) : list RecoveryRow :=
  let names :=
    map fst base
    ++ List.filter (fun e => negb (existsb (value_eqb e) (map fst base)))
         (map fst last) in
  map (fun e =>
         let b := fillna0 (series_lookup base e) in
         let l := fillna0 (series_lookup last e) in
         {| rec_name := e;
            rec_base := b;
            rec_last := l;
            rec_abs_delta := Float64.sub l b;
            rec_pct := safe_pct b l |}) names.

(** Lines 99-128: the best three, the worst three among the finite
    percentages, and the carriers of infinite recovery. [int(delta)] in
    the two loops raises on a delta that is not finite. *)
Definition recovery_highlights (top_companies : list RecoveryRow)
  : option Highlights :=
  let by_pct before :=
    sort_by (fun a b : RecoveryRow =>
               before (VFloat (rec_pct a)) (VFloat (rec_pct b))) in
  let best_ := head_n 3 (by_pct desc_before top_companies) in
  let numeric_pct :=
    List.filter (fun r => negb (Float64.eqb (rec_pct r) PInf)) top_companies in
  let worst_ := head_n 3 (by_pct asc_before numeric_pct) in
  if forallb (fun r => is_finite (rec_abs_delta r)) (best_ ++ worst_)
  then Some {| best := best_;
               worst := worst_;
               infers := List.filter (fun r => Float64.eqb (rec_pct r) PInf)
                           top_companies |}
  else None.

(** Lines 39-46: the rows of French carriers of the filtered frame. *)
Definition french_cohort (df_filtered : option DataFrame) : DataFrame :=
  let dfc := match df_filtered with Some d => d | None => empty_frame end in
  select_rows (french_mask dfc) dfc.

(** Line 51: the column that names the company. *)
Definition company_column (df_fr : DataFrame) : string :=
  if has_column "CIE_NOM" df_fr then "CIE_NOM"
  else if has_column "CIE" df_fr then "CIE"
  else match columns df_fr with
       | c :: _ => c
       | [] => ""
       end.

(** Line 67: 2019 when the data has it, else the first year. *)
Definition baseline_of (years : list value) (y0 : value) : value :=
  if existsb (value_eqb (VInt 2019)) years then VInt 2019 else y0.

(** The recovery block of [render_deep_dives], lines 35-156. An
    exception raised inside it is caught by its handler, which shows an
    error message; in particular the two totals cannot be told apart
    when the baseline year is also the latest year (their column labels
    coincide), and line 77 raises. *)
Definition recovery_analysis (df_filtered : option DataFrame)
  (metric_choice : string) (top_n : Z) : recovery_outcome :=
  let df_fr := french_cohort df_filtered in
  if frame_empty df_fr then NoFrenchCarriers
  else
    let company_col := company_column df_fr in
    let df_fr := recovery_years df_fr in
    match getcol df_fr metric_choice with
    | None => MetricUnavailable
    | Some mc =>
        let df_fr := setcol df_fr metric_choice (to_numeric mc) in
        match
          (let? agg := groupby_agg AggSum df_fr [company_col; "year"] metric_choice in
           let? company := getitem agg company_col in
           let? year := getitem agg "year" in
           let? total := getitem agg metric_choice in
           ok (values company, values year, values total))
        with
        | inl _ => RecoveryFailed
        | inr (company, year, total) =>
            let years := sorted_labels year in
            match years, last years with
            | y0 :: _, Some latest_year =>
                let baseline_year := baseline_of years y0 in
                if String.eqb (py_str baseline_year) (py_str latest_year)
                then RecoveryFailed
                else
                  let base := year_series company year total baseline_year in
                  let last_ := year_series company year total latest_year in
                  let df_recovery :=
                    sort_by (fun a b : RecoveryRow =>
                               desc_before (VFloat (rec_last a)) (VFloat (rec_last b)))
                      (recovery_rows base last_) in
                  let top_companies := head_n top_n df_recovery in
                  RecoveryShown baseline_year latest_year df_recovery
                    top_companies (recovery_highlights top_companies)
            | _, _ => InsufficientYears
            end
        end
    end.


(** ** Notions the properties are stated with *)

(** The frame [_ensure_year_column] returns, as a function of the frame
    it is given. *)
Definition ensure_frame (d : DataFrame) : DataFrame :=
  let with_na d :=
    let d1 := setcol d "year" (na_column (nrows d)) in
    setcol d1 "month" (na_column (nrows d1)) in
  let with_ym d l :=
    setcol (setcol d "year" (IntCol (map (fun z => z / 100) l)))
      "month" (IntCol (map (fun z => z mod 100) l)) in
  match getcol d "ANMOIS" with
  | Some (IntCol l) => with_ym d l
  | Some c =>
      match astype_int c with
      | inr (IntCol l) => with_ym (setcol d "ANMOIS" (IntCol l)) l
      | _ => with_na d
      end
  | None => setcol d "year" (na_column (nrows d))
  end.

(** The heap a copy followed by [_ensure_year_column] leaves: the frames
    that were there, then the copy, then (with [ANMOIS]) the copy of the
    copy. *)
Definition ensure_prefix (h : heap) (d : DataFrame) : heap :=
  match getcol d "ANMOIS" with
  | Some _ => h ++ [d]
  | None => h
  end.

(** [filter_and_make] as a function of the frame its argument refers to. *)
Definition filter_and_make_heap (h : heap) (d : DataFrame) : heap :=
  let e1 := ensure_frame d in
  let h1 := ensure_prefix h d ++ [e1] in
  let h2 := ensure_prefix h1 e1 ++ [ensure_frame e1] in
  ensure_prefix h2 e1 ++ [ensure_frame e1].

(** The period code of a year and a month. *)
Definition period (ym : Z * Z) : Z := fst ym * 100 + snd ym.

(** A frame of two periods without the country column. *)
Definition frame_without_country : DataFrame :=
  [("ANMOIS", IntCol [201901; 202401]); ("CIE_PAX", IntCol [100; 150])].




Definition is_number (v : value) : bool :=
  match v with
  | VInt _ | VFloat _ => true
  | _ => false
  end.

(** The keys of the rows of two int64 columns. *)
Definition int_key (ym : Z * Z) : key := [VInt (fst ym); VInt (snd ym)].

Definition pair_key (xy : value * value) : key := [fst xy; snd xy].

(** The sum of a group, as a cell. *)
Definition group_total (c : column) (keys : list key) (k : key) : value :=
  match reduce AggSum c (group_mask keys k) with
  | inr v => v
  | inl _ => VNA
  end.


(** ** The three filters, one at a time

    The steps [make_tables] (lines 47-58) and [filter_and_make] (lines
    120-126) share once the filters dictionary is built by
    [filter_and_make]. *)

Definition year_step (e : DataFrame) (year_min year_max : option Z)
  : result DataFrame :=
  match year_min, year_max with
  | Some ymin, Some ymax =>
      let? year := getitem e "year" in
      let? m := between_mask year ymin ymax in
      ok (select_rows m e)
  | _, _ => ok e
  end.

Definition country_step (d : DataFrame) (countries : option (list string))
  : result DataFrame :=
  match countries with
  | Some (c :: cs) =>
      let? pays := getitem d "CIE_PAYS" in
      ok (select_rows (col_isin pays (c :: cs)) d)
  | _ => ok d
  end.

Definition nationality_step (d : DataFrame) (nationality : option string)
  : DataFrame :=
  match nationality, getcol d "CIE_NAT" with
  | Some n, Some c =>
      if String.eqb n "" then d else select_rows (col_eq_str c n) d
  | _, _ => d
  end.

Definition filter_steps (e : DataFrame) (year_min year_max : option Z)
  (countries : option (list string)) (nationality : option string)
  : result DataFrame :=
  let? d1 := year_step e year_min year_max in
  let? d2 := country_step d1 countries in
  ok (nationality_step d2 nationality).

(** The tests the filters put on one row: on its period, its country and
    the nationality of its carrier. A filter that is not set lets every
    row pass. *)
Definition year_ok (year_min year_max : option Z) (p : Z) : bool :=
  match year_min, year_max with
  | Some lo, Some hi => (lo <=? p / 100) && (p / 100 <=? hi)
  | _, _ => true
  end.

Definition country_ok (countries : option (list string)) (v : value) : bool :=
  match countries with
  | Some (c :: cs) =>
      match v with
      | VStr s => existsb (String.eqb s) (c :: cs)
      | _ => false
      end
  | _ => true
  end.

Definition nationality_ok (nationality : option string) (v : value) : bool :=
  match nationality with
  | Some n => if String.eqb n "" then true else value_eqb v (VStr n)
  | None => true
  end.

Definition row_passes (year_min year_max : option Z)
  (countries : option (list string)) (nationality : option string)
  (row : Z * value * value) : bool :=
  year_ok year_min year_max (fst (fst row))
  && country_ok countries (snd (fst row))
  && nationality_ok nationality (snd row).

(** Every column has [n] rows. *)
Definition rectangular (n : nat) (d : DataFrame) : Prop :=
  Forall (fun nc => col_length (snd nc) = n) d.

(** Four monthly rows of three carriers, two of them French. *)
Definition routes_frame : DataFrame :=
  [("ANMOIS", IntCol [201812; 201901; 202003; 202401]);
   ("CIE_NOM", ObjCol [VStr "AIR A"; VStr "AIR A"; VStr "AIR B"; VStr "AIR C"]);
   ("CIE_PAYS", ObjCol [VStr "FRANCE"; VStr "FRANCE"; VStr "ESPAGNE"; VStr "FRANCE"]);
   ("CIE_NAT", ObjCol [VStr "F"; VStr "F"; VStr "E"; VStr "F"]);
   ("CIE_PAX", IntCol [10; 20; 30; 40]);
   ("CIE_VOL", IntCol [1; 2; 0; 4])].

(** ** Order of rows *)

(** Every element stands in the relation [before] to every later one:
    the list is in the order of [before]. *)
Fixpoint ordered_by {A} (before : A -> A -> bool) (l : list A) : Prop :=
  match l with
  | [] => True
  | x :: l' => Forall (fun y => before x y = true) l' /\ ordered_by before l'
  end.

(** ** Notions of the tables *)

(** The key of a row grouped by one int64 column. *)
Definition year_key (y : Z) : key := [VInt y].

(** A metric name that the tables can carry next to their own columns:
    not a grouping column ([year], [CIE_PAYS], [lat], [lon]), not one of
    the two label columns of the regional table, and not the empty
    string, which counts as no metric. *)
Definition plain_metric (m : string) : bool :=
  negb (existsb (String.eqb m)
          [""; "year"; "CIE_PAYS"; "CIE_PAYS_EN"; "CIE_PAYS_ISO3"; "lat"; "lon"]).

(** ** Notions of text *)

Definition first_char (s : string) : option ascii :=
  match s with
  | EmptyString => None
  | String c _ => Some c
  end.

Fixpoint last_char (s : string) : option ascii :=
  match s with
  | EmptyString => None
  | String c EmptyString => Some c
  | String _ s' => last_char s'
  end.

(** The character [a] occurs in [s]. *)
Fixpoint has_char (a : ascii) (s : string) : bool :=
  match s with
  | EmptyString => false
  | String c s' => Ascii.eqb c a || has_char a s'
  end.

(** A text without surrounding white space and without no-break space. *)
Definition is_trimmed (s : string) : Prop :=
  (forall c, first_char s = Some c -> is_space c = false)
  /\ (forall c, last_char s = Some c -> is_space c = false)
  /\ has_char nbsp s = false.

(** ** Notions of the recovery analysis *)

(** The years of the rows that have a company and a year: the rows the
    grouping by company and year sees. *)
Definition cohort_years (company year : list value) : list value :=
  map snd (List.filter (fun ey => notna (fst ey) && notna (snd ey))
             (zip company year)).

(** ** app.py: the sidebar options *)

(** [s in l] for a list of labels. *)
Definition mem (s : string) (l : list string) : bool := existsb (String.eqb s) l.

(** Line 48: the numeric columns, without [ANMOIS] and [year]. *)
Definition app_numeric_cols (raw : DataFrame) : list string :=
  List.filter
    (fun c => match getcol raw c with
              | Some col => is_numeric_dtype col
              | None => false
              end
              && negb (mem c ["ANMOIS"; "year"]))
    (columns raw).

(** Lines 49-55: the metrics the selector offers, the two ratios after
    the numeric columns when their source columns are numeric. *)
Definition metric_options (raw : DataFrame) : list string :=
  let numeric_cols := app_numeric_cols raw in
  let computed_metrics := [] in
  let computed_metrics :=
    if mem "CIE_PAX" numeric_cols && mem "CIE_VOL" numeric_cols
    then computed_metrics ++ ["PAX_PER_VOL"] else computed_metrics in
  let computed_metrics :=
    if mem "CIE_FRP" numeric_cols && mem "CIE_PAX" numeric_cols
    then computed_metrics ++ ["FRP_PER_PAX"] else computed_metrics in
  numeric_cols ++ computed_metrics.

(** [c.dropna()]. *)
Definition dropna_col (c : column) : column :=
  match c with
  | IntCol l => IntCol l
  | FloatCol l => FloatCol (List.filter not_nan l)
  | ObjCol l => ObjCol (List.filter notna l)
  end.

(** [unique()] and the set comprehension on integers: every value once,
    in the order of the first occurrences. *)
Fixpoint unique_Z (l : list Z) : list Z :=
  match l with
  | [] => []
  | x :: l' => x :: List.filter (fun y => negb (y =? x)) (unique_Z l')
  end.

(** [sorted(l)] on integers. *)
Definition sorted_Z (l : list Z) : list Z := sort_by Z.leb l.

Definition min_list (l : list Z) : Z :=
  match l with
  | [] => 0
  | x :: l' => fold_left Z.min l' x
  end.

(** Lines 24-29: the years the range slider offers. *)
Definition year_options (raw : DataFrame) : result (list Z) :=
  match getcol raw "ANMOIS" with
  | Some c =>
      let? a := astype_int (dropna_col c) in
      let years := sorted_Z (unique_Z (ints a)) in
      ok (sorted_Z (unique_Z (map (fun y => y / 100) years)))
  | None => ok []
  end.

(** Lines 31-34: the range the slider starts with; no range without
    years. *)
Definition default_year_range (years : list Z) : option Z * option Z :=
  match years with
  | [] => (None, None)
  | _ => (Some (min_list years), Some (max_list years))
  end.

(** ** sections/overview.py: the headline figures *)

(** Python's [float(s)] on a string: [None] when it raises. *)
Variable py_float : string -> option float64.

(** [int(x)] on a cell; Python's own integers have no bound. *)
Definition py_int_of (v : value) : result Z :=
  match v with
  | VInt z => ok z
  | VFloat (Fin q) => ok (trunc q)
  | VFloat NaN => throw ValueError
  | VFloat _ => throw OverflowError
  | VStr s =>
      match py_int s with
      | Some z => ok z
      | None => throw ValueError
      end
  | VNA => throw TypeError
  end.

(** [float(x)] on a cell. *)
Definition py_float_of (v : value) : result float64 :=
  match v with
  | VInt z => ok (of_Z z)
  | VFloat f => ok f
  | VStr s =>
      match py_float s with
      | Some f => ok f
      | None => throw ValueError
      end
  | VNA => throw TypeError
  end.

(** [round(x)] on a float: the nearest integer, a tie going to the even
    one; NaN and the infinities raise. *)
Definition round_half_even (q : Q) : Z :=
  let f := Qfloor q in
  match Qcompare (Qminus q (inject_Z f)) (1 # 2) with
  | Lt => f
  | Gt => f + 1
  | Eq => if Z.even f then f else f + 1
  end.

Definition py_round (x : float64) : result Z :=
  match x with
  | Fin q => ok (round_half_even q)
  | NaN => throw ValueError
  | _ => throw OverflowError
  end.

(** Lines 11-18: a total shown as an integer, or "N/A" ([None]) when
    there is no frame, no such column, or the sum is no integer. *)
Definition total_kpi (df_filtered : option DataFrame) (name : string)
  : option Z :=
  match df_filtered with
  | None => None
  | Some d =>
      match (let? c := getitem d name in
             let? s := reduce AggSum c (map (fun _ => true) (values c)) in
             py_int_of s)
      with
      | inr z => Some z
      | inl _ => None
      end
  end.

(** The number shown as the delta: the rounded difference, or the
    difference itself when it cannot be rounded. *)
Inductive delta_display : Type :=
| DeltaInt (z : Z)
| DeltaFloat (f : float64).

(** The text shown as the change: "N/A", "inf", or the percentage. *)
Inductive change_display : Type :=
| ChangeNA
| ChangeInf
| ChangePct (pct : float64).

(** [ts.iloc[0, 1]] and [ts.iloc[-1, 1]] as floats; [None] when one of
    the two raises. *)
Definition first_last (ts : DataFrame) : option (float64 * float64) :=
  match ts !! 1%nat with
  | Some (_, c) =>
      match head (values c), last (values c) with
      | Some a, Some b =>
          match py_float_of a, py_float_of b with
          | inr first_val, inr last_val => Some (first_val, last_val)
          | _, _ => None
          end
      | _, _ => None
      end
  | None => None
  end.

(** Lines 22-46: the change between the first and the last point of the
    time series, and its absolute delta. *)
Definition change_kpi (ts : DataFrame) : change_display * option delta_display :=
  if negb (frame_empty ts) && (2 <=? nrows ts)%nat then
    match first_last ts with
    | Some (first_val, last_val) =>
        let abs_delta := Float64.sub last_val first_val in
        let delta :=
          match py_round abs_delta with
          | inr z => DeltaInt z
          | inl _ => DeltaFloat abs_delta
          end in
        if negb (Float64.eqb first_val (Fin 0))
        then (ChangePct (Float64.mul
                           (Float64.sub (Float64.div last_val first_val) (Fin 1))
                           (Fin 100)),
              Some delta)
        else (ChangeInf, Some delta)
    | None => (ChangeNA, None)
    end
  else (ChangeNA, None).

(** Lines 56-63: the last point of the time series as an integer. *)
Definition latest_kpi (ts : DataFrame) : option Z :=
  if frame_empty ts then None
  else
    match ts !! 1%nat with
    | Some (_, c) =>
        match last (values c) with
        | Some v =>
            match py_int_of v with
            | inr z => Some z
            | inl _ => None
            end
        | None => None
        end
    | None => None
    end.

(** Lines 65-68: the first cell of the regional ranking. *)
Definition top_region_kpi (by_region_ : DataFrame) : option value :=
  if frame_empty by_region_ then None
  else
    match by_region_ with
    | (_, c) :: _ => head (values c)
    | [] => None
    end.

(** ** sections/deep_dives.py and utils/viz.py: the rankings shown *)

Definition head_col (n : Z) (c : column) : column :=
  match c with
  | IntCol l => IntCol (head_n n l)
  | FloatCol l => FloatCol (head_n n l)
  | ObjCol l => ObjCol (head_n n l)
  end.

(** [df.head(n)] on a frame. *)
Definition head_rows (n : Z) (df : DataFrame) : DataFrame :=
  map (fun nc => (fst nc, head_col n (snd nc))) df.

(** deep_dives.py, lines 9-14: the bars of the regional chart, [None]
    for the notice that there is no regional data. *)
Definition top10 (t : Tables) : option DataFrame :=
  if frame_empty (by_region t) then None
  else Some (head_rows 10 (by_region t)).

(** What the yearly trend of [compare_french_companies] shows: one of
    its three notices, or the table of the line chart. *)
Inductive trend_outcome : Type :=
  | TrendNoPeriod
  | TrendFailed
  | TrendEmpty
  | TrendShown (ts_top : DataFrame).

(** What [compare_french_companies] shows: one of its notices, or the
    table of the bar chart followed by the yearly trend. *)
Inductive compare_outcome : Type :=
  | CompareNoData
  | CompareNoCountry
  | CompareNoFrench
  | CompareNoMetric
  | CompareShown (top : DataFrame) (trend : trend_outcome).

(** viz.py, lines 149-154: the rows whose country contains FRANCE. *)
Definition france_rows (dfc : DataFrame) (pays : column) : DataFrame :=
  select_rows
    (map (fun v => str_contains "FRANCE" (str_upper (py_str v))) (values pays))
    dfc.

(** [s.isin(names)]. *)
Definition isin (names : list value) (c : column) : list bool :=
  map (fun v => existsb (value_eqb v) names) (values c).

(** viz.py, lines 179-197: the yearly totals of the companies of the bar
    chart; any exception is caught by the handler of line 194. *)
Definition company_trend (df_fr : DataFrame) (company_col metric : string)
  (top : DataFrame) : trend_outcome :=
  match getcol df_fr "ANMOIS" with
  | None => TrendNoPeriod
  | Some a0 =>
      match
        (let? a := astype_int a0 in
         let? q := col_floordiv a 100 in
         let? y := astype_int q in
         let df_fr := setcol df_fr "year" y in
         let? ts := groupby_agg AggSum df_fr ["year"; company_col] metric in
         let? names := getitem top company_col in
         let? comp := getitem ts company_col in
         ok (select_rows (isin (values names) comp) ts))
      with
      | inl _ => TrendFailed
      | inr ts_top =>
          if frame_empty ts_top then TrendEmpty else TrendShown ts_top
      end
  end.

(** viz.py, lines 132-197. The aggregation of lines 170-171 is outside
    any handler: an exception it raises leaves the function. *)
Definition compare_french_companies (df : option DataFrame) (metric : string)
  (top_n : Z) : result compare_outcome :=
  match df with
  | None => ok CompareNoData
  | Some d =>
      if frame_empty d then ok CompareNoData
      else
        match getcol d "CIE_PAYS" with
        | None => ok CompareNoCountry
        | Some pays =>
            let df_fr := france_rows d pays in
            if frame_empty df_fr then ok CompareNoFrench
            else
              let company_col := company_column df_fr in
              match getcol df_fr metric with
              | None => ok CompareNoMetric
              | Some mc =>
                  let df_fr := setcol df_fr metric (to_numeric mc) in
                  let? agg := groupby_agg AggSum df_fr [company_col] metric in
                  let? agg := sort_values_desc agg metric in
                  let top := head_rows top_n agg in
                  ok (CompareShown top
                        (company_trend df_fr company_col metric top))
              end
        end
  end.
(** * Properties *)

(** ** The store *)

Lemma heap_lookup_fresh (h : heap) (d : DataFrame) :
  (h ++ [d]) !! length h = Some d.
Proof. apply list_lookup_middle. reflexivity. Qed.

Lemma heap_insert_fresh (h : heap) (d d' : DataFrame) :
  <[length h := d']> (h ++ [d]) = h ++ [d'].
Proof.
  rewrite insert_app_r_alt by lia.
  replace (length h - length h)%nat with 0%nat by lia. reflexivity.
Qed.

Lemma copy_run (h : heap) (r : ref) (d : DataFrame) :
  h !! r = Some d -> copy r h = (h ++ [d], ok (length h)).
Proof. intros H. unfold copy. rewrite H. reflexivity. Qed.

Lemma setitem_fresh (h : heap) (d : DataFrame) (name : string) (c : column) :
  setitem (length h) name c (h ++ [d]) = (h ++ [setcol d name c], ok tt).
Proof.
  unfold setitem. rewrite heap_lookup_fresh, heap_insert_fresh. reflexivity.
Qed.

Lemma setitem_na_fresh (h : heap) (d : DataFrame) (name : string) :
  setitem_na (length h) name (h ++ [d])
  = (h ++ [setcol d name (na_column (nrows d))], ok tt).
Proof.
  unfold setitem_na, bind, deref. rewrite heap_lookup_fresh.
  apply setitem_fresh.
Qed.

(** ** Frames *)

Lemma getcol_setcol_eq (d : DataFrame) (name : string) (c : column) :
  getcol (setcol d name c) name = Some c.
Proof.
  induction d as [|[n c'] d IH]; simpl.
  - rewrite String.eqb_refl. reflexivity.
  - destruct (String.eqb name n) eqn:E; simpl; rewrite E; auto.
Qed.

Lemma getcol_setcol_ne (d : DataFrame) (name name' : string) (c : column) :
  String.eqb name' name = false ->
  getcol (setcol d name c) name' = getcol d name'.
Proof.
  intros Hne. induction d as [|[n c'] d IH]; simpl.
  - rewrite Hne. reflexivity.
  - destruct (String.eqb name n) eqn:E; simpl.
    + apply String.eqb_eq in E. subst n. rewrite Hne. reflexivity.
    + rewrite IH. reflexivity.
Qed.

(** ** The period decomposer *)

Lemma astype_int_IntCol (c a : column) :
  astype_int c = inr a -> exists l, a = IntCol l.
Proof.
  destruct c as [l|l|l]; simpl; unfold rbind.
  - intros [= <-]. eauto.
  - destruct (mapM int_of_float l); intros [= <-]; eauto.
  - destruct (mapM int_of_value l); intros [= <-]; eauto.
Qed.

(** With [ANMOIS] the result is a fresh frame; without it the argument
    itself is written to. *)
Lemma ensure_run (h : heap) (r : ref) (d : DataFrame) :
  h !! r = Some d ->
  _ensure_year_column r h =
    match getcol d "ANMOIS" with
    | Some _ => (h ++ [ensure_frame d], ok (length h))
    | None => (<[r := ensure_frame d]> h, ok r)
    end.
Proof.
  intros Hr. unfold _ensure_year_column, ensure_frame.
  unfold bind at 1. unfold deref. rewrite Hr. unfold ok at 1. cbv beta iota.
  destruct (getcol d "ANMOIS") as [c|] eqn:Hc.
  - destruct c as [l|l|l]; cbn [is_integer_dtype].
    + unfold bind, lift. rewrite (copy_run _ _ _ Hr). simpl.
      rewrite setitem_fresh, setitem_fresh. reflexivity.
    + unfold bind at 1. rewrite (copy_run _ _ _ Hr). unfold ok at 1. cbv beta iota.
      destruct (astype_int (FloatCol l)) as [e|a] eqn:Ha; simpl.
      * unfold bind. rewrite !setitem_na_fresh. reflexivity.
      * destruct (astype_int_IntCol _ _ Ha) as [zs ->]. simpl.
        unfold bind. rewrite !setitem_fresh. reflexivity.
    + unfold bind at 1. rewrite (copy_run _ _ _ Hr). unfold ok at 1. cbv beta iota.
      destruct (astype_int (ObjCol l)) as [e|a] eqn:Ha; simpl.
      * unfold bind. rewrite !setitem_na_fresh. reflexivity.
      * destruct (astype_int_IntCol _ _ Ha) as [zs ->]. simpl.
        unfold bind. rewrite !setitem_fresh. reflexivity.
  - unfold setitem_na, bind, deref, setitem, ret. rewrite Hr, Hr. reflexivity.
Qed.

Lemma bind_ok {A B} (c : M A) (k : A -> M B) (h h' : heap) (a : A) :
  c h = (h', inr a) -> bind c k h = k a h'.
Proof. intros H. unfold bind. rewrite H. reflexivity. Qed.

Lemma bind_err {A B} (c : M A) (k : A -> M B) (h h' : heap) (e : exn) :
  c h = (h', inl e) -> bind c k h = (h', inl e).
Proof. intros H. unfold bind. rewrite H. reflexivity. Qed.

Lemma copy_ensure_run (h : heap) (r : ref) (d : DataFrame) :
  h !! r = Some d ->
  bind (copy r) _ensure_year_column h
  = (ensure_prefix h d ++ [ensure_frame d], ok (length (ensure_prefix h d))).
Proof.
  intros Hr. rewrite (bind_ok _ _ _ _ _ (copy_run _ _ _ Hr)).
  rewrite (ensure_run _ _ d) by apply heap_lookup_fresh.
  unfold ensure_prefix. destruct (getcol d "ANMOIS").
  - reflexivity.
  - rewrite heap_insert_fresh. reflexivity.
Qed.

(** [make_tables] as a function of the frame its argument refers to: the
    store only grows, and the tables are those of the filtered copy. *)
Lemma make_tables_run (h : heap) (r : ref) (d : DataFrame)
  (filters : option Filters) (metric : option string) :
  h !! r = Some d ->
  make_tables r filters metric h
  = (ensure_prefix h d ++ [ensure_frame d],
     let? d' := apply_filters (ensure_frame d) filters in build_tables d' metric).
Proof.
  intros Hr. unfold make_tables.
  change (bind (copy r) (fun df => bind (_ensure_year_column df) ?k))
    with (bind (copy r) (fun df => bind (_ensure_year_column df) k)).
  rewrite (bind_ok _ _ _ _ _ (copy_run _ _ _ Hr)).
  rewrite (bind_ok _ _ _ (ensure_prefix h d ++ [ensure_frame d])
             (length (ensure_prefix h d))).
  2:{ pose proof (copy_ensure_run h r d Hr) as H.
      rewrite (bind_ok _ _ _ _ _ (copy_run _ _ _ Hr)) in H. exact H. }
  unfold bind at 1, deref. rewrite heap_lookup_fresh. unfold ok at 1. cbv beta iota.
  unfold bind, lift, rbind.
  destruct (apply_filters (ensure_frame d) filters); reflexivity.
Qed.

Lemma make_tables_dangling (h : heap) (r : ref)
  (filters : option Filters) (metric : option string) :
  h !! r = None -> make_tables r filters metric h = (h, throw TypeError).
Proof.
  intros Hr. unfold make_tables, bind, copy. rewrite Hr. reflexivity.
Qed.

Lemma filter_and_make_run (h : heap) (r : ref) (d : DataFrame)
  (year_min year_max : option Z) (countries : option (list string))
  (metric nationality : option string) :
  h !! r = Some d ->
  let e1 := ensure_frame d in
  let filters := build_filters year_min year_max countries nationality in
  let tables :=
    let? d' := apply_filters (ensure_frame e1) (Some filters) in
    build_tables d' metric in
  filter_and_make r year_min year_max countries metric nationality h
  = match tables with
    | inl e => (ensure_prefix (ensure_prefix h d ++ [e1]) e1 ++ [ensure_frame e1], inl e)
    | inr t =>
        (filter_and_make_heap h d,
         let? df_filtered := filter_frame (ensure_frame e1) filters in
         ok (df_filtered, t))
    end.
Proof.
  intros Hr e1 filters tables. unfold filter_and_make.
  rewrite (bind_ok _ _ _ _ _ (copy_ensure_run h r d Hr)).
  fold e1. fold filters.
  set (h1 := ensure_prefix h d ++ [e1]).
  assert (Hdf : h1 !! length (ensure_prefix h d) = Some e1)
    by apply heap_lookup_fresh.
  pose proof (make_tables_run h1 _ e1 (Some filters) metric Hdf) as Hmt.
  fold tables in Hmt.
  destruct tables as [e|t] eqn:Ht.
  - rewrite (bind_err _ _ _ _ _ Hmt). reflexivity.
  - rewrite (bind_ok _ _ _ _ _ Hmt).
    set (h2 := ensure_prefix h1 e1 ++ [ensure_frame e1]).
    assert (Hdf2 : h2 !! length (ensure_prefix h d) = Some e1).
    { unfold h2, ensure_prefix. destruct (getcol e1 "ANMOIS").
      - rewrite <- !app_assoc. rewrite lookup_app_l.
        + exact Hdf.
        + exact (lookup_lt_Some _ _ _ Hdf).
      - rewrite lookup_app_l.
        + exact Hdf.
        + exact (lookup_lt_Some _ _ _ Hdf). }
    pose proof (copy_ensure_run h2 _ e1 Hdf2) as Hce.
    unfold bind at 1 in Hce.
    unfold bind at 1. destruct (copy (length (ensure_prefix h d)) h2) as [h3 [e|c]] eqn:Hc.
    + discriminate Hce.
    + rewrite (bind_ok _ _ _ _ _ Hce).
      unfold bind at 1, deref. rewrite heap_lookup_fresh. unfold ok at 1.
      cbv beta iota. unfold bind, lift, ret, rbind, filter_and_make_heap.
      fold e1. fold h1. fold h2.
      destruct (filter_frame (ensure_frame e1) filters); reflexivity.
Qed.

Lemma ensure_prefix_extends (h : heap) (d : DataFrame) :
  exists ext, ensure_prefix h d = h ++ ext.
Proof.
  unfold ensure_prefix. destruct (getcol d "ANMOIS").
  - eauto.
  - exists []. rewrite app_nil_r. reflexivity.
Qed.

(** What a store that only grew says about the frames that were there. *)
Lemma extends_keeps (h ext : heap) (r : ref) (d : DataFrame) :
  h !! r = Some d ->
  firstn (length h) (h ++ ext) = h /\ (h ++ ext) !! r = h !! r.
Proof.
  intros Hr. split.
  - apply take_app_length.
  - apply lookup_app_l. exact (lookup_lt_Some _ _ _ Hr).
Qed.

Lemma firstn_length_self (h : heap) : firstn (length h) h = h.
Proof. apply firstn_all. Qed.

(** C10. [make_tables] and [filter_and_make] never modify their input
    dataset: whatever the store, the argument, the filters and the
    metric, after the call every frame that existed before it, the one
    the argument refers to among them, is what it was, also when the call
    raises. All writes go to copies. *)
Theorem make_tables_filter_and_make_keep_input :
  forall (h : heap) (r : ref) (filters : option Filters)
         (metric : option string) (year_min year_max : option Z)
         (countries : option (list string)) (nationality : option string),
    let h1 := fst (make_tables r filters metric h) in
    let h2 := fst (filter_and_make r year_min year_max countries metric
                     nationality h) in
    (firstn (length h) h1 = h /\ h1 !! r = h !! r)
    /\ (firstn (length h) h2 = h /\ h2 !! r = h !! r).
Proof.
  intros h r filters metric year_min year_max countries nationality.
  destruct (h !! r) as [d|] eqn:Hr; cbv zeta.
  - rewrite (make_tables_run _ _ _ _ _ Hr).
    rewrite (filter_and_make_run _ _ _ year_min year_max countries metric
               nationality Hr).
    cbv zeta. rewrite <- Hr. split.
    + cbn [fst]. destruct (ensure_prefix_extends h d) as [ext ->].
      rewrite <- app_assoc. apply (extends_keeps _ _ _ _ Hr).
    + assert (Hgrow : forall k, exists ext,
                 ensure_prefix (ensure_prefix h d ++ [ensure_frame d]) k = h ++ ext).
      { intros k. destruct (ensure_prefix_extends h d) as [e1 He1].
        destruct (ensure_prefix_extends (ensure_prefix h d ++ [ensure_frame d]) k)
          as [e2 ->].
        rewrite He1. exists ((e1 ++ [ensure_frame d]) ++ e2).
        rewrite <- !app_assoc. reflexivity. }
      destruct (rbind (apply_filters (ensure_frame (ensure_frame d))
                         (Some (build_filters year_min year_max countries nationality)))
                  (fun d' => build_tables d' metric)) as [e|t]; cbn [fst].
      * destruct (Hgrow (ensure_frame d)) as [ext ->].
        rewrite <- app_assoc. apply (extends_keeps _ _ _ _ Hr).
      * unfold filter_and_make_heap.
        destruct (ensure_prefix_extends
                    (ensure_prefix (ensure_prefix h d ++ [ensure_frame d])
                       (ensure_frame d) ++ [ensure_frame (ensure_frame d)])
                    (ensure_frame d)) as [e3 ->].
        destruct (Hgrow (ensure_frame d)) as [ext ->].
        rewrite <- !app_assoc. apply (extends_keeps _ _ _ _ Hr).
  - rewrite (make_tables_dangling _ _ _ _ Hr).
    unfold filter_and_make, bind, copy. rewrite Hr. cbn [fst].
    rewrite Hr. auto using firstn_length_self.
Qed.

Lemma period_div (ym : Z * Z) : 1 <= snd ym <= 12 -> period ym / 100 = fst ym.
Proof.
  intros H. unfold period. rewrite Z.add_comm, Z.div_add by lia.
  rewrite Z.div_small by lia. reflexivity.
Qed.

Lemma period_mod (ym : Z * Z) : 1 <= snd ym <= 12 -> period ym mod 100 = snd ym.
Proof.
  intros H. unfold period. rewrite Z.add_comm, Z.mod_add by lia.
  apply Z.mod_small. lia.
Qed.

Lemma periods_div (yms : list (Z * Z)) :
  Forall (fun ym => 1 <= snd ym <= 12) yms ->
  map (fun z => z / 100) (map period yms) = map fst yms.
Proof.
  induction 1 as [|ym yms H _ IH]; simpl.
  - reflexivity.
  - rewrite IH, period_div by exact H. reflexivity.
Qed.

Lemma periods_mod (yms : list (Z * Z)) :
  Forall (fun ym => 1 <= snd ym <= 12) yms ->
  map (fun z => z mod 100) (map period yms) = map snd yms.
Proof.
  induction 1 as [|ym yms H _ IH]; simpl.
  - reflexivity.
  - rewrite IH, period_mod by exact H. reflexivity.
Qed.

(** A column of periods written as text is cast back to the periods. *)
Lemma astype_int_decimal (yms : list (Z * Z)) :
  (forall z, py_int (decimal z) = Some z) ->
  Forall (fun ym => in_int64 (period ym) = true) yms ->
  astype_int (ObjCol (map (fun ym => VStr (decimal (period ym))) yms))
  = ok (IntCol (map period yms)).
Proof.
  intros Hpy Hall. simpl.
  assert (H : mapM int_of_value (map (fun ym => VStr (decimal (period ym))) yms)
              = ok (map period yms)).
  { induction Hall as [|ym yms H _ IH]; simpl.
    - reflexivity.
    - rewrite Hpy, H. simpl. rewrite IH. reflexivity. }
  rewrite H. reflexivity.
Qed.

Lemma recompose (yms : list (Z * Z)) :
  zip_with (fun y m => y * 100 + m) (map fst yms) (map snd yms) = map period yms.
Proof. induction yms as [|ym yms IH]; simpl; [|rewrite IH]; reflexivity. Qed.

(** C6. For a column of period codes [year*100+month] with
    [1 <= month <= 12], arriving as int64 or as the decimal text of
    integers that fit int64 (read by an [int()] that reads decimal
    literals), the period decomposer returns a frame whose [year] column
    holds [p div 100] = year and whose [month] column holds [p mod 100] =
    month, row by row, so that [year*100+month] is the period again. *)
Theorem period_decompose_recompose :
  forall (h : heap) (r : ref) (d : DataFrame) (yms : list (Z * Z))
         (as_text : bool),
    (forall z, py_int (decimal z) = Some z) ->
    Forall (fun ym => 1 <= snd ym <= 12) yms ->
    (as_text = true -> Forall (fun ym => in_int64 (period ym) = true) yms) ->
    h !! r = Some d ->
    getcol d "ANMOIS"
    = Some (if as_text
            then ObjCol (map (fun ym => VStr (decimal (period ym))) yms)
            else IntCol (map period yms)) ->
    exists (r' : ref) (h' : heap) (d' : DataFrame),
      _ensure_year_column r h = (h', ok r')
      /\ h' !! r' = Some d'
      /\ getcol d' "year" = Some (IntCol (map (fun p => p / 100) (map period yms)))
      /\ getcol d' "month" = Some (IntCol (map (fun p => p mod 100) (map period yms)))
      /\ getcol d' "year" = Some (IntCol (map fst yms))
      /\ getcol d' "month" = Some (IntCol (map snd yms))
      /\ zip_with (fun y m => y * 100 + m) (map fst yms) (map snd yms)
         = map period yms.
Proof.
  intros h r d yms as_text Hpy Hm Hfit Hr Hcol.
  exists (length h), (h ++ [ensure_frame d]), (ensure_frame d).
  rewrite (ensure_run _ _ _ Hr), Hcol.
  split; [reflexivity|]. split; [apply heap_lookup_fresh|].
  assert (Hy : getcol (ensure_frame d) "year"
               = Some (IntCol (map (fun p => p / 100) (map period yms)))
               /\ getcol (ensure_frame d) "month"
                  = Some (IntCol (map (fun p => p mod 100) (map period yms)))).
  { unfold ensure_frame. rewrite Hcol. destruct as_text.
    - rewrite (astype_int_decimal yms Hpy (Hfit eq_refl)). unfold ok.
      split.
      + rewrite getcol_setcol_ne by reflexivity. apply getcol_setcol_eq.
      + apply getcol_setcol_eq.
    - split.
      + rewrite getcol_setcol_ne by reflexivity. apply getcol_setcol_eq.
      + apply getcol_setcol_eq. }
  destruct Hy as [Hy Hmo].
  split; [exact Hy|]. split; [exact Hmo|].
  split; [rewrite <- (periods_div yms Hm); exact Hy|].
  split; [rewrite <- (periods_mod yms Hm); exact Hmo|].
  apply recompose.
Qed.

(** ** Missing columns *)

(** C7. With a country filter set and no [CIE_PAYS] column in the frame,
    [filter_and_make] raises [KeyError]: line 123 indexes the column
    without the test that line 125 makes for [CIE_NAT] and that
    [make_tables] (line 53) makes for [CIE_PAYS] itself; on the same
    frame and filters [make_tables] returns its tables. *)
Theorem filter_and_make_raises_without_country_column :
  snd (filter_and_make 0%nat (Some 2019) (Some 2024) (Some ["FRANCE"])
         (Some "CIE_PAX") None [frame_without_country])
  = throw (KeyError "CIE_PAYS")
  /\ snd (make_tables 0%nat
            (Some (build_filters (Some 2019) (Some 2024) (Some ["FRANCE"]) None))
            (Some "CIE_PAX") [frame_without_country])
     = ok {| timeseries := [("year", IntCol [2019; 2024]);
                            ("CIE_PAX", IntCol [100; 150])];
             by_region := empty_frame;
             geo := empty_frame |}.
Proof. split; vm_compute; reflexivity. Qed.

(** ** The metric that is aggregated *)


Lemma has_column_getcol (d : DataFrame) (name : string) :
  has_column name d = true <-> exists c, getcol d name = Some c.
Proof.
  unfold has_column, columns. induction d as [|[n c] d IH]; simpl.
  - split; [discriminate|intros [c H]; discriminate].
  - destruct (String.eqb name n); simpl.
    + split; eauto.
    + exact IH.
Qed.

Lemma getcol_In (d : DataFrame) (name : string) (c : column) :
  In (name, c) d -> exists c', getcol d name = Some c'.
Proof.
  induction d as [|[n c0] d IH]; simpl; [intros []|].
  intros [H|H].
  - injection H as -> ->. rewrite String.eqb_refl. eauto.
  - destruct (String.eqb name n); eauto.
Qed.







Lemma dict_set_head {A} (dct : list (string * A)) (k k0 : string) (a : A) :
  In k0 (map fst dct) -> In k0 (map fst (dict_set dct k a)).
Proof.
  induction dct as [|[k' a'] dct IH]; simpl; [intros []|].
  destruct (String.eqb k k'); simpl; intros [H|H]; auto.
Qed.

Lemma getcol_in_keys (d : DataFrame) (name : string) :
  In name (map fst d) -> exists c, getcol d name = Some c.
Proof.
  intros H. apply in_map_iff in H. destruct H as [[n c] [<- H]].
  eapply getcol_In; eauto.
Qed.





(** ** Missing values in a reduction *)

Lemma select_app {A} (m1 m2 : list bool) (l1 l2 : list A) :
  length m1 = length l1 ->
  select (m1 ++ m2) (l1 ++ l2) = select m1 l1 ++ select m2 l2.
Proof.
  revert l1. induction m1 as [|b m1 IH]; intros [|a l1] H; simpl in *;
    try discriminate.
  - reflexivity.
  - injection H as H. rewrite (IH _ H). destruct b; reflexivity.
Qed.

Lemma select_unzip {A} (rows1 rows2 : list (bool * A)) (b : bool) (x : A) :
  select (map fst rows1 ++ b :: map fst rows2) (map snd rows1 ++ x :: map snd rows2)
  = select (map fst rows1) (map snd rows1)
    ++ (if b then [x] else []) ++ select (map fst rows2) (map snd rows2).
Proof.
  rewrite select_app by (rewrite !length_map; reflexivity).
  destruct b; reflexivity.
Qed.

Lemma select_unzip_app {A} (rows1 rows2 : list (bool * A)) :
  select (map fst (rows1 ++ rows2)) (map snd (rows1 ++ rows2))
  = select (map fst rows1) (map snd rows1) ++ select (map fst rows2) (map snd rows2).
Proof.
  rewrite !map_app. apply select_app. rewrite !length_map. reflexivity.
Qed.

(** C3, as amended. Missing metric values are excluded from both sum and
    mean, never counted as zero: the sum and the mean of a group do not
    change when the row of a missing cell (NaN in a float64 column, NA in
    an object column) is taken out of the data. For the single group
    whose metric is [10, missing, 30] the sum is 40 and the mean is 20,
    in the aggregator, in the time series of [make_tables] and in the
    seasonality matrix. *)
Theorem reductions_skip_missing_values :
  (forall (f : aggfunc) (rows1 rows2 : list (bool * float64)) (b : bool),
      reduce f (FloatCol (map snd rows1 ++ NaN :: map snd rows2))
        (map fst rows1 ++ b :: map fst rows2)
      = reduce f (FloatCol (map snd (rows1 ++ rows2))) (map fst (rows1 ++ rows2)))
  /\ (forall (f : aggfunc) (rows1 rows2 : list (bool * value)) (b : bool),
         reduce f (ObjCol (map snd rows1 ++ VNA :: map snd rows2))
           (map fst rows1 ++ b :: map fst rows2)
         = reduce f (ObjCol (map snd (rows1 ++ rows2))) (map fst (rows1 ++ rows2)))
  /\ reduce AggSum (FloatCol [of_Z 10; NaN; of_Z 30]) [true; true; true]
     = ok (VFloat (of_Z 40))
  /\ reduce AggMean (FloatCol [of_Z 10; NaN; of_Z 30]) [true; true; true]
     = ok (VFloat (of_Z 20))
  /\ option_map timeseries
       (match snd (make_tables 0%nat None (Some "CIE_PAX") [gap_frame]) with
        | inr t => Some t
        | inl _ => None
        end)
     = Some [("year", IntCol [2019]); ("CIE_PAX", FloatCol [of_Z 40])]
  /\ heatmap_seasonality (Some gap_frame) (Some "CIE_PAX") "mean" None
     = ok (HeatFigure
             {| p_index := [VInt 2019];
                p_columns := months;
                p_cells := [VFloat (of_Z 20) :: repeat (VFloat NaN) 11] |}).
Proof.
  split; [|split; [|repeat split; vm_compute; reflexivity]].
  - intros f rows1 rows2 b.
    destruct f; simpl; unfold nansum, nanmean;
      rewrite select_unzip, select_unzip_app, !List.filter_app;
      destruct b; reflexivity.
  - intros f rows1 rows2 b.
    destruct f; simpl; unfold obj_sum, obj_mean;
      rewrite select_unzip, select_unzip_app, !List.filter_app;
      destruct b; reflexivity.
Qed.

(** ** The numeric decision of the normaliser *)

Lemma gt_half_iff (c n : nat) :
  Float64.ltb half (Float64.div (of_Z (Z.of_nat c)) (of_Z (Z.of_nat n))) = true
  <-> (n < 2 * c)%nat.
Proof.
  unfold Float64.ltb, Float64.div, of_Z, half.
  destruct n as [|n].
  - change (Qeq_bool (inject_Z (Z.of_nat 0)) 0) with true. cbv iota.
    unfold Qsgn. simpl Qnum. destruct c as [|c]; simpl.
    + split; [discriminate|lia].
    + split; [lia|reflexivity].
  - assert (Hnz : Qeq_bool (inject_Z (Z.of_nat (S n))) 0 = false).
    { destruct (Qeq_bool _ 0) eqn:E; [|reflexivity].
      apply Qeq_bool_eq in E. unfold Qeq in E. simpl in E. lia. }
    rewrite Hnz. unfold Float64.leb, Float64.eqb.
    set (q := Qred (inject_Z (Z.of_nat c) / inject_Z (Z.of_nat (S n)))).
    assert (Hq : q == Z.of_nat c # Pos.of_succ_nat n).
    { unfold q. rewrite Qred_correct. unfold Qdiv, Qinv, Qmult, Qeq. simpl. lia. }
    rewrite andb_true_iff, negb_true_iff, Qle_bool_iff.
    split.
    + intros [Hle Hne].
      assert (Hneq : ~ (1 # 2) == q).
      { intros E. apply Qeq_bool_iff in E. congruence. }
      rewrite Hq in Hle, Hneq. unfold Qle, Qeq in *. simpl in *. lia.
    + intros Hlt. split.
      * rewrite Hq. unfold Qle. simpl. lia.
      * destruct (Qeq_bool (1 # 2) q) eqn:E; [|reflexivity].
        apply Qeq_bool_eq in E. rewrite Hq in E. unfold Qeq in E. simpl in E. lia.
Qed.

Lemma column_of_numbers_spec (ns : list number) :
  is_numeric_dtype (column_of_numbers ns) = true
  /\ col_length (column_of_numbers ns) = length ns
  /\ length (List.filter notna (values (column_of_numbers ns)))
     = length (List.filter number_notna ns).
Proof.
  unfold column_of_numbers.
  destruct (mapM _ ns) as [e|zs] eqn:Hm.
  - simpl. split; [reflexivity|]. split; [apply length_map|].
    clear Hm. induction ns as [|n ns IH]; simpl; [reflexivity|].
    destruct n as [z|f].
    + simpl. rewrite IH. reflexivity.
    + cbn [map float_of_number List.filter number_notna].
      change (notna (VFloat f)) with (not_nan f).
      destruct (not_nan f); simpl; rewrite IH; reflexivity.
  - simpl. revert zs Hm. induction ns as [|n ns IH]; simpl; intros zs Hm.
    + injection Hm as <-. repeat split.
    + destruct n as [z|f]; simpl in Hm; [|discriminate].
      destruct (mapM _ ns) as [e|zs'] eqn:Hm'; simpl in Hm; [discriminate|].
      injection Hm as <-. destruct (IH zs' eq_refl) as [_ [Hl Hc]].
      simpl. rewrite Hl, Hc. repeat split.
Qed.

Lemma null_never_converts (v : value) :
  to_numeric_str "nan" = NFloat NaN ->
  to_numeric_str "None" = NFloat NaN ->
  isna v = true -> converts v = false.
Proof.
  intros Hnan Hnone Hv. unfold converts.
  destruct v as [z|[q| | |]|s|]; try discriminate.
  - change (numeric_candidate (trimmed (VFloat NaN))) with "nan".
    rewrite Hnan. reflexivity.
  - change (numeric_candidate (trimmed VNA)) with "None".
    rewrite Hnone. reflexivity.
Qed.

(** C5, as amended. An object column is converted to numeric iff more
    than half of ALL its cells convert after normalisation, a null cell
    counting as a cell that does not convert (it is the text "nan" or
    "None", which reads as NaN): that is, iff twice the number of
    non-null cells that convert exceeds the number of cells. Converted,
    the column holds the numbers, NaN where a cell failed; otherwise
    every cell stays as its trimmed text; an all-null column stays text;
    a column that is not of dtype object is left alone. *)
Theorem normalize_column_decision :
  forall (l : list value),
    to_numeric_str "nan" = NFloat NaN ->
    to_numeric_str "None" = NFloat NaN ->
    let parsed := List.filter (fun v => notna v && converts v) l in
    (is_numeric_dtype (normalize_column (ObjCol l)) = true
     <-> (length l < 2 * length parsed)%nat)
    /\ (is_numeric_dtype (normalize_column (ObjCol l)) = true ->
        normalize_column (ObjCol l)
        = column_of_numbers
            (map (fun v => to_numeric_str (numeric_candidate (trimmed v))) l))
    /\ (is_numeric_dtype (normalize_column (ObjCol l)) = false ->
        normalize_column (ObjCol l) = ObjCol (map (fun v => VStr (trimmed v)) l))
    /\ (forallb isna l = true ->
        is_numeric_dtype (normalize_column (ObjCol l)) = false)
    /\ (forall zs fs, normalize_column (IntCol zs) = IntCol zs
                      /\ normalize_column (FloatCol fs) = FloatCol fs).
Proof.
  intros l Hnan Hnone parsed.
  set (ns := map to_numeric_str (map numeric_candidate (map trimmed l))).
  assert (Hns : ns = map (fun v => to_numeric_str (numeric_candidate (trimmed v))) l).
  { unfold ns. rewrite !map_map. reflexivity. }
  destruct (column_of_numbers_spec ns) as [Hnum [Hlen Hcnt]].
  assert (Hparsed : length (List.filter number_notna ns) = length parsed).
  { rewrite Hns. unfold parsed. clear - Hnan Hnone. induction l as [|v l IH]; simpl; [reflexivity|].
    fold (converts v).
    destruct (isna v) eqn:Hv.
    - rewrite (null_never_converts v) by assumption.
      rewrite andb_false_r. exact IH.
    - unfold notna. rewrite Hv. simpl. destruct (converts v); simpl; rewrite IH; reflexivity. }
  assert (Hdec : Float64.ltb half (notna_mean (column_of_numbers ns)) = true
                 <-> (length l < 2 * length parsed)%nat).
  { unfold notna_mean. rewrite Hlen, Hcnt, Hparsed.
    replace (length ns) with (length l) by (unfold ns; rewrite !length_map; reflexivity).
    apply gt_half_iff. }
  assert (Hnorm : normalize_column (ObjCol l)
                  = if Float64.ltb half (notna_mean (column_of_numbers ns))
                    then column_of_numbers ns
                    else ObjCol (map VStr (map trimmed l))) by reflexivity.
  assert (Hiff : is_numeric_dtype (normalize_column (ObjCol l)) = true
                 <-> (length l < 2 * length parsed)%nat).
  { rewrite <- Hdec, Hnorm.
    destruct (Float64.ltb half (notna_mean (column_of_numbers ns))).
    - rewrite Hnum. split; reflexivity.
    - simpl. split; discriminate. }
  split; [exact Hiff|]. split; [|split; [|split]].
  - rewrite Hnorm, <- Hns.
    destruct (Float64.ltb half (notna_mean (column_of_numbers ns))); [reflexivity|].
    simpl. discriminate.
  - rewrite Hnorm.
    destruct (Float64.ltb half (notna_mean (column_of_numbers ns))).
    + rewrite Hnum. discriminate.
    + rewrite map_map. reflexivity.
  - intros Hall.
    destruct (is_numeric_dtype (normalize_column (ObjCol l))) eqn:E; [|reflexivity].
    pose proof (proj1 Hiff eq_refl) as Hlt.
    assert (Hp0 : length parsed = 0%nat).
    { unfold parsed. clear - Hall. induction l as [|v l IH]; simpl in *; [reflexivity|].
      apply andb_true_iff in Hall. destruct Hall as [Hv Hall].
      unfold notna. rewrite Hv. simpl. auto. }
    lia.
  - intros zs fs. split; reflexivity.
Qed.

(** ** Derived ratios *)

Lemma numeric_values (c : column) :
  is_numeric_dtype c = true -> Forall (fun v => is_number v = true) (values c).
Proof.
  destruct c as [l|l|l]; simpl; intros H; try discriminate;
    induction l; simpl; constructor; auto.
Qed.

Lemma values_length (c : column) : length (values c) = col_length c.
Proof. destruct c; simpl; rewrite ?length_map; reflexivity. Qed.

Lemma ratio_no_zero (ps vs : list value) :
  existsb (fun v => value_eqb v (VInt 0)) vs = false ->
  map VFloat (zip_with Float64.div (map to_float ps) (map to_float vs))
  = zip_with ratio_cell ps vs.
Proof.
  revert ps. induction vs as [|v vs IH]; intros [|p ps] H; simpl in *; try reflexivity.
  apply orb_false_iff in H. destruct H as [Hv H].
  unfold ratio_cell at 1. rewrite Hv, (IH _ H). reflexivity.
Qed.

Lemma ratio_with_zero (ps vs : list value) :
  Forall (fun v => is_number v = true) ps ->
  Forall (fun v => is_number v = true) vs ->
  zip_mapM py_truediv ps
    (map (fun v => if value_eqb v (VInt 0) then VNA else v) vs)
  = ok (zip_with ratio_cell ps vs).
Proof.
  intros Hp. revert vs. induction Hp as [|p ps Hp _ IH]; intros vs Hv.
  - destruct vs; reflexivity.
  - destruct Hv as [|v vs Hv Hvs]; [reflexivity|].
    simpl. rewrite (IH _ Hvs). unfold ratio_cell.
    destruct (value_eqb v (VInt 0)).
    + destruct p; try discriminate; reflexivity.
    + destruct p, v; try discriminate; reflexivity.
Qed.

(** The column [num / den.replace({0: pd.NA})] holds the derived cell of
    each row. *)
Lemma ratio_column (num den : column) :
  is_numeric_dtype num = true -> is_numeric_dtype den = true ->
  exists q, col_truediv num (replace_zero_na den) = ok q
            /\ values q = zip_with ratio_cell (values num) (values den).
Proof.
  intros Hn Hd. unfold replace_zero_na, col_truediv.
  destruct (existsb (fun v => value_eqb v (VInt 0)) (values den)) eqn:Hz.
  - rewrite Hn. simpl.
    rewrite (ratio_with_zero _ _ (numeric_values _ Hn) (numeric_values _ Hd)).
    simpl. eauto.
  - rewrite Hn, Hd. simpl. eexists. split; [reflexivity|].
    simpl. apply ratio_no_zero. exact Hz.
Qed.







(** ** Groups *)

Lemma insert_by_In {A} (before : A -> A -> bool) (x y : A) (l : list A) :
  In y (insert_by before x l) <-> y = x \/ In y l.
Proof.
  induction l as [|z l IH]; simpl.
  - split; intros [H|H]; auto.
  - destruct (before x z); simpl.
    + split; intros [H|H]; auto.
    + rewrite IH. split; intros [H|[H|H]]; auto.
Qed.

Lemma sort_by_In {A} (before : A -> A -> bool) (y : A) (l : list A) :
  In y (sort_by before l) <-> In y l.
Proof.
  unfold sort_by. induction l as [|x l IH]; simpl.
  - reflexivity.
  - rewrite insert_by_In, IH. split; intros [H|H]; auto.
Qed.

Lemma distinct_keys_In (k : key) (ks : list key) :
  In k (distinct_keys ks) -> In k ks.
Proof.
  induction ks as [|k0 ks IH]; simpl; [auto|].
  destruct (existsb (fun g => key_eqb g k0) (distinct_keys ks)); simpl.
  - intros H. right. exact (IH H).
  - intros [H|H]; [left; exact H|right; exact (IH H)].
Qed.

(** Every group is the key of a row. *)
Lemma group_keys_In (k : key) (keys : list key) :
  In k (group_keys keys) -> In k keys.
Proof.
  unfold group_keys. rewrite sort_by_In. intros H.
  apply distinct_keys_In in H. apply filter_In in H. exact (proj1 H).
Qed.

Lemma sorted_labels_In (v : value) (vs : list value) :
  In v (sorted_labels vs) -> In v vs.
Proof.
  unfold sorted_labels. intros H. apply in_concat in H.
  destruct H as [k [Hk Hv]]. apply group_keys_In in Hk.
  apply in_map_iff in Hk. destruct Hk as [v' [<- Hv']].
  destruct Hv as [<-|[]]. exact Hv'.
Qed.

(** ** Equality of cells *)

Lemma Qeq_bool_trans (a b c : Q) :
  Qeq_bool a b = true -> Qeq_bool b c = true -> Qeq_bool a c = true.
Proof.
  rewrite !Qeq_bool_iff. intros H1 H2. rewrite H1. exact H2.
Qed.

Lemma Qeq_bool_sym (a b : Q) : Qeq_bool a b = Qeq_bool b a.
Proof.
  destruct (Qeq_bool a b) eqn:E1, (Qeq_bool b a) eqn:E2; try reflexivity.
  - apply Qeq_bool_iff in E1. symmetry in E1. apply Qeq_bool_iff in E1. congruence.
  - apply Qeq_bool_iff in E2. symmetry in E2. apply Qeq_bool_iff in E2. congruence.
Qed.

Lemma float_eqb_trans (a b c : float64) :
  Float64.eqb a b = true -> Float64.eqb b c = true -> Float64.eqb a c = true.
Proof.
  destruct a, b, c; simpl; try discriminate; auto. apply Qeq_bool_trans.
Qed.

Lemma float_eqb_sym (a b : float64) : Float64.eqb a b = Float64.eqb b a.
Proof. destruct a, b; simpl; try reflexivity. apply Qeq_bool_sym. Qed.

Lemma value_eqb_trans (a b c : value) :
  value_eqb a b = true -> value_eqb b c = true -> value_eqb a c = true.
Proof.
  destruct a as [x|x|x|], b as [y|y|y|], c as [z|z|z|]; simpl; intros H1 H2;
    try discriminate;
    try (apply String.eqb_eq in H1, H2; subst; apply String.eqb_refl);
    try (eapply float_eqb_trans; eassumption);
    repeat match goal with
           | f : float64 |- _ => destruct f; simpl in *; try discriminate
           end;
    eauto using Qeq_bool_trans.
Qed.

Lemma value_eqb_sym (a b : value) : value_eqb a b = value_eqb b a.
Proof.
  destruct a as [x|x|x|], b as [y|y|y|]; simpl; try reflexivity;
    try apply float_eqb_sym; try apply String.eqb_sym;
    repeat match goal with
           | f : float64 |- _ => destruct f; simpl in *; try reflexivity
           end;
    auto using Qeq_bool_sym.
Qed.

Lemma value_eqb_int (x y : Z) : value_eqb (VInt x) (VInt y) = (x =? y).
Proof.
  simpl. unfold Qeq_bool. simpl. rewrite !Z.mul_1_r. reflexivity.
Qed.

(** ** The seasonality matrix *)

Lemma in_zip {A B} (a : A) (b : B) (l1 : list A) (l2 : list B) :
  In (a, b) (zip l1 l2) -> In a l1 /\ In b l2.
Proof.
  revert l2. induction l1 as [|x l1 IH]; intros [|y l2]; simpl;
    try (intros H; exact (False_ind _ H)).
  intros [H|H].
  - injection H as -> ->. auto.
  - destruct (IH _ H). auto.
Qed.



Lemma mapM_total {A B} (f : A -> result B) (g : A -> B) (l : list A) :
  (forall a, f a = ok (g a)) -> mapM f l = ok (map g l).
Proof.
  intros H. induction l as [|a l IH]; simpl; [reflexivity|].
  rewrite H, IH. reflexivity.
Qed.

Lemma getcol_select_rows (m : list bool) (d : DataFrame) (name : string) :
  getcol (select_rows m d) name = option_map (select_col m) (getcol d name).
Proof.
  induction d as [|[n c] d IH]; simpl; [reflexivity|].
  destruct (String.eqb name n); [reflexivity|exact IH].
Qed.

Lemma select_col_numeric (m : list bool) (c : column) :
  is_numeric_dtype (select_col m c) = is_numeric_dtype c.
Proof. destruct c; reflexivity. Qed.

Lemma mapM_map {A B C} (f : B -> result C) (g : A -> B) (l : list A) :
  mapM f (map g l) = mapM (fun a => f (g a)) l.
Proof. induction l as [|a l IH]; simpl; [|rewrite IH]; reflexivity. Qed.





Lemma row_keys_ints (ys ms : list Z) :
  row_keys [map VInt ys; map VInt ms] = map int_key (zip ys ms).
Proof.
  simpl. revert ms. induction ys as [|y ys IH]; intros [|m ms]; simpl;
    try reflexivity.
  rewrite IH. reflexivity.
Qed.

Lemma keys_as_pairs {A} (mk : A -> key) (rows : list A) (gk : list key) :
  (forall k, In k gk -> In k (map mk rows)) ->
  exists pairs, gk = map mk pairs /\ Forall (fun ym => In ym rows) pairs.
Proof.
  induction gk as [|k gk IH]; intros H.
  - exists []. split; [reflexivity|constructor].
  - destruct IH as [pairs [-> Hp]]; [intros k' Hk'; apply H; right; exact Hk'|].
    assert (Hk : In k (map mk rows)) by (apply H; left; reflexivity).
    apply in_map_iff in Hk. destruct Hk as [ym [<- Hin]].
    exists (ym :: pairs). split; [reflexivity|constructor; assumption].
Qed.

Lemma key_components_pairs (pairs : list (Z * Z)) :
  key_component 0 (map int_key pairs) = map VInt (map fst pairs)
  /\ key_component 1 (map int_key pairs) = map VInt (map snd pairs).
Proof.
  unfold key_component. induction pairs as [|ym pairs [IH0 IH1]].
  - split; reflexivity.
  - split.
    + change (VInt (fst ym) :: omap (fun k : key => k !! 0%nat) (map int_key pairs)
              = VInt (fst ym) :: map VInt (map fst pairs)).
      f_equal. exact IH0.
    + change (VInt (snd ym) :: omap (fun k : key => k !! 1%nat) (map int_key pairs)
              = VInt (snd ym) :: map VInt (map snd pairs)).
      f_equal. exact IH1.
Qed.

Lemma rebuild_ints (l0 zs : list Z) :
  rebuild (IntCol l0) (map VInt zs) = IntCol zs.
Proof.
  unfold rebuild. f_equal. induction zs as [|z zs IH]; [reflexivity|].
  change (z :: omap (fun v => match v with VInt z => Some z | _ => None end)
                 (map VInt zs) = z :: zs).
  f_equal. exact IH.
Qed.

(** The reduction of a numeric column never raises. *)
Lemma agg_column_numeric (f : aggfunc) (keys gk : list key) (c : column) :
  is_numeric_dtype c = true -> exists col, agg_column f keys gk c = ok col.
Proof.
  intros Hc. unfold agg_column.
  destruct c as [l|l|l]; try discriminate; destruct f;
    erewrite mapM_total by (intros a; reflexivity); simpl; eauto.
Qed.


Lemma getitem_ok (d : DataFrame) (name : string) (c : column) :
  getcol d name = Some c -> getitem d name = ok c.
Proof. intros H. unfold getitem. rewrite H. reflexivity. Qed.


Lemma lookup_map {A B} (f : A -> B) (l : list A) (i : nat) :
  map f l !! i = option_map f (l !! i).
Proof.
  revert i. induction l as [|a l IH]; intros [|i]; simpl; auto.
Qed.



(** ** Recovery against the baseline *)

(** C4. Among the selected carriers the "best" selection does not
    exclude an infinite [pct_recovered]: line 101 sorts all of
    [top_companies], so that the carrier without baseline heads the top
    recoveries, while line 103 excludes it from the "worst" selection and
    line 126 reports it apart. *)
Theorem best_selection_keeps_infinite_recovery :
  recovery_analysis (Some carriers_frame) "CIE_PAX" 10
  = RecoveryShown (VInt 2019) (VInt 2024)
      [oldair_row; newair_row] [oldair_row; newair_row]
      (Some {| best := [newair_row; oldair_row];
               worst := [oldair_row];
               infers := [newair_row] |})
  /\ rec_pct newair_row = PInf.
Proof. split; vm_compute; reflexivity. Qed.

(** *** Keys up to equality of cells *)

Lemma value_eqb_cong (a b c : value) :
  value_eqb a b = true -> value_eqb a c = value_eqb b c.
Proof.
  intros H. destruct (value_eqb a c) eqn:E1, (value_eqb b c) eqn:E2; try reflexivity.
  - rewrite value_eqb_sym in H.
    rewrite (value_eqb_trans _ _ _ H E1) in E2. discriminate.
  - rewrite (value_eqb_trans _ _ _ H E2) in E1. discriminate.
Qed.

Lemma key_eqb_cong (k1 k2 k : key) :
  key_eqb k1 k2 = true -> key_eqb k1 k = key_eqb k2 k.
Proof.
  revert k2 k. induction k1 as [|a k1 IH]; intros [|b k2] k H; simpl in H;
    try discriminate; [reflexivity|].
  apply andb_true_iff in H. destruct H as [Hab H].
  destruct k as [|c k]; simpl; [reflexivity|].
  rewrite (value_eqb_cong _ _ c Hab), (IH _ k H). reflexivity.
Qed.

Lemma key_eqb_sym (k1 k2 : key) : key_eqb k1 k2 = key_eqb k2 k1.
Proof.
  revert k2. induction k1 as [|a k1 IH]; intros [|b k2]; simpl; try reflexivity.
  rewrite value_eqb_sym, IH. reflexivity.
Qed.

Lemma value_eqb_notna (a b : value) : value_eqb a b = true -> notna b = true.
Proof.
  intros H. destruct b as [y|y|y|]; try reflexivity.
  - destruct y; try reflexivity.
    destruct a as [x|x|x|]; simpl in H; try discriminate.
    destruct x; discriminate.
  - destruct a as [x|x|x|]; simpl in H; try discriminate.
    destruct x; discriminate.
Qed.

Lemma key_eqb_notna (k1 k2 : key) : key_eqb k1 k2 = true -> key_notna k2 = true.
Proof.
  revert k2. induction k1 as [|a k1 IH]; intros [|b k2]; simpl; try discriminate;
    [reflexivity|].
  intros H. apply andb_true_iff in H. destruct H as [Hab H].
  unfold key_notna. simpl. rewrite (value_eqb_notna _ _ Hab). exact (IH _ H).
Qed.

(** Every key that equals some key has a representative among the
    distinct keys. *)
Lemma distinct_keys_complete (k : key) (ks : list key) :
  In k ks -> key_eqb k k = true ->
  exists g, In g (distinct_keys ks) /\ key_eqb g k = true.
Proof.
  intros Hin Hrefl. induction ks as [|k0 ks IH]; simpl in *; [contradiction|].
  destruct (existsb (fun g => key_eqb g k0) (distinct_keys ks)) eqn:E.
  - destruct Hin as [->|Hin].
    + apply existsb_exists in E. exact E.
    + exact (IH Hin).
  - destruct Hin as [->|Hin].
    + exists k. split; [left; reflexivity|exact Hrefl].
    + destruct (IH Hin) as [g [Hg Hgk]]. exists g. split; [right; exact Hg|exact Hgk].
Qed.

(** Every row whose key has no missing cell belongs to a group. *)
Lemma group_keys_complete (k k' : key) (keys : list key) :
  In k keys -> key_eqb k' k = true ->
  exists g, In g (group_keys keys) /\ key_eqb g k = true.
Proof.
  intros Hin Heq.
  assert (Hrefl : key_eqb k k = true).
  { rewrite <- (key_eqb_cong _ _ k Heq). exact Heq. }
  destruct (distinct_keys_complete k (List.filter key_notna keys)) as [g [Hg Hgk]].
  - apply filter_In. split; [exact Hin|exact (key_eqb_notna _ _ Heq)].
  - exact Hrefl.
  - exists g. split; [|exact Hgk]. unfold group_keys. apply sort_by_In. exact Hg.
Qed.

(** *** The grouped table of (company, year) *)

Lemma row_keys_pairs (a b : list value) :
  row_keys [a; b] = map pair_key (zip a b).
Proof.
  simpl. revert b. induction a as [|x a IH]; intros [|y b]; simpl; try reflexivity.
  rewrite IH. reflexivity.
Qed.

Lemma key_components_value_pairs (pairs : list (value * value)) :
  key_component 0 (map pair_key pairs) = map fst pairs
  /\ key_component 1 (map pair_key pairs) = map snd pairs.
Proof.
  unfold key_component. induction pairs as [|xy pairs [IH0 IH1]].
  - split; reflexivity.
  - split.
    + change (fst xy :: omap (fun k : key => k !! 0%nat) (map pair_key pairs)
              = fst xy :: map fst pairs).
      f_equal. exact IH0.
    + change (snd xy :: omap (fun k : key => k !! 1%nat) (map pair_key pairs)
              = snd xy :: map snd pairs).
      f_equal. exact IH1.
Qed.

(** Cells of a column, put back into a column of its dtype, are kept. *)
Lemma rebuild_faithful (c : column) (vs : list value) :
  Forall (fun v => In v (values c)) vs -> values (rebuild c vs) = vs.
Proof.
  intros H. destruct c as [l|l|l]; [| |reflexivity].
  - unfold rebuild, values. induction H as [|v vs Hv _ IH]; [reflexivity|].
    simpl in Hv. apply in_map_iff in Hv. destruct Hv as [z [<- _]].
    change (VInt z :: map VInt (omap (fun v => match v with VInt z => Some z | _ => None end) vs)
            = VInt z :: vs).
    f_equal. exact IH.
  - unfold rebuild, values. induction H as [|v vs Hv _ IH]; [reflexivity|].
    simpl in Hv. apply in_map_iff in Hv. destruct Hv as [z [<- _]].
    change (VFloat z :: map VFloat (omap (fun v => match v with VFloat f => Some f | _ => None end) vs)
            = VFloat z :: vs).
    f_equal. exact IH.
Qed.

Lemma agg_sum_values (keys gk : list key) (c : column) :
  is_numeric_dtype c = true ->
  exists col, agg_column AggSum keys gk c = ok col
              /\ values col = map (group_total c keys) gk.
Proof.
  intros Hc. unfold agg_column, group_total.
  destruct c as [l|l|l]; try discriminate.
  - rewrite (mapM_total _ (fun k => VInt (wrap64 (sum_Z (select (group_mask keys k) l)))))
      by reflexivity.
    eexists. split; [reflexivity|].
    cbn [reduced_like rbind ok reduce]. unfold rebuild, values.
    induction gk as [|k gk IH]; [reflexivity|].
    change (VInt (wrap64 (sum_Z (select (group_mask keys k) l)))
            :: map VInt (omap (fun v => match v with VInt z => Some z | _ => None end)
                           (map (fun k => VInt (wrap64 (sum_Z (select (group_mask keys k) l)))) gk))
            = VInt (wrap64 (sum_Z (select (group_mask keys k) l)))
              :: map (fun k => VInt (wrap64 (sum_Z (select (group_mask keys k) l)))) gk).
    f_equal. exact IH.
  - rewrite (mapM_total _ (fun k => VFloat (nansum (select (group_mask keys k) l))))
      by reflexivity.
    eexists. split; [reflexivity|].
    cbn [reduced_like rbind ok reduce]. unfold rebuild, values.
    induction gk as [|k gk IH]; [reflexivity|].
    change (VFloat (nansum (select (group_mask keys k) l))
            :: map VFloat (omap (fun v => match v with VFloat f => Some f | _ => None end)
                             (map (fun k => VFloat (nansum (select (group_mask keys k) l))) gk))
            = VFloat (nansum (select (group_mask keys k) l))
              :: map (fun k => VFloat (nansum (select (group_mask keys k) l))) gk).
    f_equal. exact IH.
Qed.

Lemma to_numeric_is_numeric (c : column) : is_numeric_dtype (to_numeric c) = true.
Proof.
  destruct c as [l|l|l]; try reflexivity.
  simpl. apply column_of_numbers_spec.
Qed.

(** What lines 64 and 73-74 read off the grouped table: one row per
    group, with the company, the year and the total of the group. *)
Lemma agg_company_year (d : DataFrame) (cname metric : string)
  (cc yc mc : column) (company year total : list value) :
  getcol d cname = Some cc ->
  getcol d "year" = Some yc ->
  getcol d metric = Some mc ->
  is_numeric_dtype mc = true ->
  (let? agg := groupby_agg AggSum d [cname; "year"] metric in
   let? company := getitem agg cname in
   let? year := getitem agg "year" in
   let? total := getitem agg metric in
   ok (values company, values year, values total))
  = inr (company, year, total) ->
  let keys := row_keys [values cc; values yc] in
  exists gpairs,
    group_keys keys = map pair_key gpairs
    /\ company = map fst gpairs
    /\ year = map snd gpairs
    /\ total = map (fun xy => group_total mc keys (pair_key xy)) gpairs.
Proof.
  intros Hcc Hyc Hmc Hnum. unfold groupby_agg, getitem.
  cbn [mapM]. rewrite Hcc, Hyc, Hmc. cbn [rbind ok map].
  intros Hagg. cbv zeta. set (keys := row_keys [values cc; values yc]) in *.
  assert (Hkeys : keys = map pair_key (zip (values cc) (values yc)))
    by apply row_keys_pairs.
  destruct (keys_as_pairs pair_key (zip (values cc) (values yc)) (group_keys keys))
    as [gpairs [Hgk Hp]]; [intros k Hk; rewrite <- Hkeys; exact (group_keys_In _ _ Hk)|].
  destruct (agg_sum_values keys (group_keys keys) mc Hnum) as [col [Hcol Hv]].
  rewrite Hcol in Hagg. cbn [rbind ok existsb has_dup] in Hagg.
  destruct (String.eqb metric cname) eqn:E1; [discriminate|].
  destruct (String.eqb metric "year") eqn:E2; [discriminate|].
  destruct (String.eqb cname "year") eqn:E3; [discriminate|].
  cbn [orb] in Hagg.
  unfold key_columns in Hagg.
  change (imap _ (zip [cname; "year"] [cc; yc]))
    with [(cname, rebuild cc (key_component 0 (group_keys keys)));
          ("year", rebuild yc (key_component 1 (group_keys keys)))] in Hagg.
  cbn [app rbind ok getcol] in Hagg.
  rewrite !String.eqb_refl, (String.eqb_sym "year" cname), E3, E1, E2 in Hagg.
  cbn [rbind ok] in Hagg. injection Hagg as <- <- <-.
  exists gpairs. split; [exact Hgk|].
  destruct (key_components_value_pairs gpairs) as [H0 H1].
  rewrite Hgk, H0, H1, Hv.
  assert (Hf : Forall (fun v => In v (values cc)) (map fst gpairs)
               /\ Forall (fun v => In v (values yc)) (map snd gpairs)).
  { clear - Hp. induction Hp as [|[x y] gpairs Hxy _ [IH1 IH2]]; simpl.
    - split; constructor.
    - apply in_zip in Hxy. destruct Hxy. split; constructor; assumption. }
  destruct Hf as [Hf1 Hf2].
  rewrite (rebuild_faithful _ _ Hf1), (rebuild_faithful _ _ Hf2), Hgk, map_map.
  auto.
Qed.








Lemma firstn_subset {A} (k : nat) (l : list A) (a : A) : In a (firstn k l) -> In a l.
Proof.
  revert l. induction k as [|k IH]; intros [|x l]; simpl;
    try (intros H; exact (False_ind _ H)).
  intros [H|H]; [left; exact H|right; exact (IH _ H)].
Qed.



(** * Further properties of the pipeline *)

(** ** The period helper: aliasing and idempotence *)

Lemma setcol_same (d : DataFrame) (name : string) (c : column) :
  getcol d name = Some c -> setcol d name c = d.
Proof.
  induction d as [|[n c'] d IH]; simpl.
  - discriminate.
  - destruct (String.eqb name n) eqn:E.
    + intros [= ->]. reflexivity.
    + intros H. rewrite IH by exact H. reflexivity.
Qed.

Lemma nrows_setcol_na (d : DataFrame) (name : string) :
  nrows (setcol d name (na_column (nrows d))) = nrows d.
Proof.
  destruct d as [|[n c] d]; simpl.
  - reflexivity.
  - destruct (String.eqb name n); simpl.
    + apply repeat_length.
    + reflexivity.
Qed.

Lemma year_month_twice (d : DataFrame) (y m : column) :
  let e := setcol (setcol d "year" y) "month" m in
  setcol (setcol e "year" y) "month" m = e.
Proof.
  intros e.
  assert (Hy : getcol e "year" = Some y).
  { unfold e. rewrite getcol_setcol_ne by reflexivity. apply getcol_setcol_eq. }
  rewrite (setcol_same e "year" y Hy).
  apply setcol_same. apply getcol_setcol_eq.
Qed.

Lemma na_twice (d : DataFrame) :
  let d1 := setcol d "year" (na_column (nrows d)) in
  let e := setcol d1 "month" (na_column (nrows d1)) in
  let e1 := setcol e "year" (na_column (nrows e)) in
  setcol e1 "month" (na_column (nrows e1)) = e.
Proof.
  intros d1 e e1.
  assert (H1 : nrows d1 = nrows d) by apply nrows_setcol_na.
  assert (H2 : nrows e = nrows d1) by apply nrows_setcol_na.
  assert (He1 : e1 = e).
  { unfold e1. apply setcol_same. unfold e.
    rewrite getcol_setcol_ne by reflexivity.
    unfold e in H2. rewrite H2, H1. apply getcol_setcol_eq. }
  rewrite He1. apply setcol_same. rewrite H2. apply getcol_setcol_eq.
Qed.

(** [_ensure_year_column] applied to its own result changes nothing. *)
Lemma ensure_frame_idem (d : DataFrame) :
  ensure_frame (ensure_frame d) = ensure_frame d.
Proof.
  unfold ensure_frame at 2 3.
  destruct (getcol d "ANMOIS") as [c|] eqn:Hc.
  - assert (Hint : forall d0 l, getcol d0 "ANMOIS" = Some (IntCol l) ->
              let e := setcol (setcol d0 "year" (IntCol (map (fun z => z / 100) l)))
                         "month" (IntCol (map (fun z => z mod 100) l)) in
              ensure_frame e = e).
    { intros d0 l H0 e. unfold ensure_frame.
      assert (Ha : getcol e "ANMOIS" = Some (IntCol l)).
      { unfold e. rewrite !getcol_setcol_ne by reflexivity. exact H0. }
      rewrite Ha. apply year_month_twice. }
    assert (Hna : forall e0, (match c with IntCol _ => False | _ => True end) ->
              (forall l, astype_int c <> inr (IntCol l)) ->
              let d1 := setcol d "year" (na_column (nrows d)) in
              let e := setcol d1 "month" (na_column (nrows d1)) in
              e0 = e -> ensure_frame e0 = e0).
    { intros e0 Hni Hfail d1 e ->. unfold ensure_frame.
      assert (Ha : getcol e "ANMOIS" = Some c).
      { unfold e, d1. rewrite !getcol_setcol_ne by reflexivity. exact Hc. }
      rewrite Ha.
      destruct c as [l|l|l]; [destruct Hni| |].
      - destruct (astype_int (FloatCol l)) as [x|[z|z|z]] eqn:E;
          try apply na_twice.
        exfalso. exact (Hfail z eq_refl).
      - destruct (astype_int (ObjCol l)) as [x|[z|z|z]] eqn:E;
          try apply na_twice.
        exfalso. exact (Hfail z eq_refl). }
    destruct c as [l|l|l].
    + apply Hint. exact Hc.
    + destruct (astype_int (FloatCol l)) as [x|[z|z|z]] eqn:E.
      * apply (Hna _ I); [intros l0; discriminate | reflexivity].
      * apply Hint. apply getcol_setcol_eq.
      * destruct (astype_int_IntCol _ _ E) as [l0 H0]. discriminate H0.
      * destruct (astype_int_IntCol _ _ E) as [l0 H0]. discriminate H0.
    + destruct (astype_int (ObjCol l)) as [x|[z|z|z]] eqn:E.
      * apply (Hna _ I); [intros l0; discriminate | reflexivity].
      * apply Hint. apply getcol_setcol_eq.
      * destruct (astype_int_IntCol _ _ E) as [l0 H0]. discriminate H0.
      * destruct (astype_int_IntCol _ _ E) as [l0 H0]. discriminate H0.
  - unfold ensure_frame.
    assert (Ha : getcol (setcol d "year" (na_column (nrows d))) "ANMOIS" = None).
    { rewrite getcol_setcol_ne by reflexivity. exact Hc. }
    rewrite Ha. rewrite nrows_setcol_na. apply setcol_same. apply getcol_setcol_eq.
Qed.

Lemma has_column_false (d : DataFrame) (name : string) :
  getcol d name = None -> has_column name d = false.
Proof.
  intros H. destruct (has_column name d) eqn:E; [|reflexivity].
  apply has_column_getcol in E. destruct E as [c E]. congruence.
Qed.

Lemma has_column_true (d : DataFrame) (name : string) (c : column) :
  getcol d name = Some c -> has_column name d = true.
Proof. intros H. apply has_column_getcol. eauto. Qed.

(** X1. [_ensure_year_column] never raises on a frame of the store. With
    an [ANMOIS] column it returns a new frame and leaves the caller's
    frame and the rest of the store as they were; without one it returns
    the caller's own frame, to which it has added a [year] column that is
    missing in every row (and no [month] column). *)
Theorem ensure_year_column_aliasing :
  forall (h : heap) (r : ref) (d : DataFrame),
    h !! r = Some d ->
    exists (h' : heap) (r' : ref),
      _ensure_year_column r h = (h', ok r')
      /\ if has_column "ANMOIS" d
         then r' = length h /\ h' !! r = Some d /\ firstn (length h) h' = h
         else r' = r
              /\ h' = <[r := setcol d "year" (na_column (nrows d))]> h.
Proof.
  intros h r d Hr. rewrite (ensure_run h r d Hr).
  destruct (getcol d "ANMOIS") as [c|] eqn:Hc.
  - rewrite (has_column_true _ _ _ Hc).
    exists (h ++ [ensure_frame d]), (length h). split; [reflexivity|].
    split; [reflexivity|].
    destruct (extends_keeps h [ensure_frame d] r d Hr) as [H1 H2].
    split; [exact (eq_trans H2 Hr) | exact H1].
  - rewrite (has_column_false _ _ Hc).
    exists (<[r := ensure_frame d]> h), r. split; [reflexivity|].
    split; [reflexivity|]. unfold ensure_frame. rewrite Hc. reflexivity.
Qed.

(** X2. [_ensure_year_column] is idempotent: applied to the frame it
    returned, it returns a frame with the same contents. *)
Theorem ensure_year_column_idempotent :
  forall (h : heap) (r : ref) (d : DataFrame),
    h !! r = Some d ->
    exists (h1 h2 : heap) (r1 r2 : ref) (e : DataFrame),
      _ensure_year_column r h = (h1, ok r1)
      /\ h1 !! r1 = Some e
      /\ _ensure_year_column r1 h1 = (h2, ok r2)
      /\ h2 !! r2 = Some e.
Proof.
  intros h r d Hr.
  assert (H1 : exists h1 r1, _ensure_year_column r h = (h1, ok r1)
                             /\ h1 !! r1 = Some (ensure_frame d)).
  { rewrite (ensure_run h r d Hr). destruct (getcol d "ANMOIS").
    - eexists _, _. split; [reflexivity|]. apply heap_lookup_fresh.
    - eexists _, _. split; [reflexivity|].
      apply list_lookup_insert_eq. exact (lookup_lt_Some _ _ _ Hr). }
  destruct H1 as [h1 [r1 [Hrun1 Hl1]]].
  exists h1.
  assert (H2 : exists h2 r2, _ensure_year_column r1 h1 = (h2, ok r2)
                             /\ h2 !! r2 = Some (ensure_frame d)).
  { rewrite (ensure_run h1 r1 _ Hl1). rewrite ensure_frame_idem.
    destruct (getcol (ensure_frame d) "ANMOIS").
    - eexists _, _. split; [reflexivity|]. apply heap_lookup_fresh.
    - eexists _, _. split; [reflexivity|].
      apply list_lookup_insert_eq. exact (lookup_lt_Some _ _ _ Hl1). }
  destruct H2 as [h2 [r2 [Hrun2 Hl2]]].
  exists h2, r1, r2, (ensure_frame d). auto.
Qed.

(** ** The filtered frame and the tables *)

Lemma getcol_ensure_frame (d : DataFrame) (name : string) :
  String.eqb name "ANMOIS" = false -> String.eqb name "year" = false ->
  String.eqb name "month" = false ->
  getcol (ensure_frame d) name = getcol d name.
Proof.
  intros Ha Hy Hm. unfold ensure_frame.
  destruct (getcol d "ANMOIS") as [[l|l|l]|].
  - rewrite !getcol_setcol_ne by assumption. reflexivity.
  - destruct (astype_int (FloatCol l)) as [x|[z|z|z]];
      rewrite !getcol_setcol_ne by assumption; reflexivity.
  - destruct (astype_int (ObjCol l)) as [x|[z|z|z]];
      rewrite !getcol_setcol_ne by assumption; reflexivity.
  - rewrite !getcol_setcol_ne by assumption. reflexivity.
Qed.

Lemma has_column_select_rows (m : list bool) (d : DataFrame) (name : string) :
  has_column name (select_rows m d) = has_column name d.
Proof.
  destruct (getcol d name) as [c|] eqn:E.
  - rewrite (has_column_true _ _ _ E).
    apply (has_column_true _ _ (select_col m c)).
    rewrite getcol_select_rows, E. reflexivity.
  - rewrite (has_column_false _ _ E). apply has_column_false.
    rewrite getcol_select_rows, E. reflexivity.
Qed.

Lemma rbind_ext {A B} (c : result A) (k1 k2 : A -> result B) :
  (forall a, k1 a = k2 a) -> rbind c k1 = rbind c k2.
Proof. intros H. destruct c; simpl; auto. Qed.

Lemma filter_frame_steps (e : DataFrame) (year_min year_max : option Z)
  (countries : option (list string)) (nationality : option string) :
  filter_frame e (build_filters year_min year_max countries nationality)
  = filter_steps e year_min year_max countries nationality.
Proof.
  unfold filter_frame, filter_steps, build_filters, year_step, country_step,
    nationality_step.
  cbn [f_year_min f_year_max f_countries f_nationality].
  destruct year_min as [a|], year_max as [b|], countries as [[|c cs]|],
    nationality as [n|]; cbn [list_truthy str_truthy];
    try (destruct (String.eqb n "") eqn:En; cbn [negb]);
    repeat (apply rbind_ext; intros ?);
    try reflexivity;
    match goal with
    | |- context [getcol ?d "CIE_NAT"] => destruct (getcol d "CIE_NAT"); reflexivity
    end.
Qed.

Lemma apply_filters_steps (e : DataFrame) (year_min year_max : option Z)
  (countries : option (list string)) (nationality : option string) :
  has_column "CIE_PAYS" e = true \/ list_truthy countries = false ->
  apply_filters e (Some (build_filters year_min year_max countries nationality))
  = filter_steps e year_min year_max countries nationality.
Proof.
  intros Hp.
  assert (Hc : match countries with
               | Some (_ :: _) => exists c, getcol e "CIE_PAYS" = Some c
               | _ => True
               end).
  { destruct countries as [[|c cs]|]; auto.
    destruct Hp as [H|H]; [apply has_column_getcol; exact H | discriminate]. }
  clear Hp.
  unfold apply_filters, filter_steps, build_filters, year_step, country_step,
    nationality_step.
  destruct year_min as [a|], year_max as [b|], countries as [[|c cs]|],
    nationality as [n|];
    try (destruct (String.eqb n "") eqn:En);
    cbv beta iota delta [dict_truthy str_truthy list_truthy negb f_year_min
                           f_year_max f_countries f_nationality];
    rewrite ?En;
    cbv beta iota delta [dict_truthy str_truthy list_truthy negb f_year_min
                           f_year_max f_countries f_nationality];
    rewrite ?En;
    try match type of Hc with ex _ => destruct Hc as [pc Hc] end;
    try (destruct (getitem e "year") as [x|yc]; cbn [rbind ok throw];
         [reflexivity|];
         destruct (between_mask yc a b) as [x|m]; cbn [rbind ok throw];
         [reflexivity|]);
    cbn [rbind ok throw]; unfold getitem;
    rewrite ?getcol_select_rows, ?Hc; cbn [option_map rbind ok throw];
    try reflexivity.
  all: match goal with
       | |- context [match ?x with Some _ => _ | None => _ end] =>
           destruct x; reflexivity
       end.
Qed.

(** The filters of the returned frame and those of the tables select
    the same rows as long as the country filter finds its column. *)
Lemma filters_agree (e : DataFrame) (year_min year_max : option Z)
  (countries : option (list string)) (nationality : option string) :
  has_column "CIE_PAYS" e = true \/ list_truthy countries = false ->
  apply_filters e (Some (build_filters year_min year_max countries nationality))
  = filter_frame e (build_filters year_min year_max countries nationality).
Proof.
  intros Hp. rewrite filter_frame_steps. apply apply_filters_steps. exact Hp.
Qed.

Lemma has_column_ensure_frame (d : DataFrame) (countries : option (list string)) :
  has_column "CIE_PAYS" d = true \/ list_truthy countries = false ->
  has_column "CIE_PAYS" (ensure_frame d) = true \/ list_truthy countries = false.
Proof.
  intros [Hp|Hp]; [left|right; exact Hp].
  apply has_column_getcol in Hp. destruct Hp as [c Hc].
  apply (has_column_true _ _ c).
  rewrite getcol_ensure_frame by reflexivity. exact Hc.
Qed.

(** [filter_and_make] by the three filter steps. *)
Lemma filter_and_make_by_steps (h : heap) (r : ref) (d : DataFrame)
  (year_min year_max : option Z) (countries : option (list string))
  (metric nationality : option string) :
  h !! r = Some d ->
  has_column "CIE_PAYS" d = true \/ list_truthy countries = false ->
  snd (filter_and_make r year_min year_max countries metric nationality h)
  = (let? df := filter_steps (ensure_frame d) year_min year_max countries
                  nationality in
     let? t := build_tables df metric in
     ok (df, t)).
Proof.
  intros Hr Hp.
  rewrite (filter_and_make_run h r d year_min year_max countries metric
             nationality Hr).
  cbv zeta. rewrite ensure_frame_idem.
  rewrite apply_filters_steps by (apply has_column_ensure_frame; exact Hp).
  rewrite filter_frame_steps.
  destruct (filter_steps (ensure_frame d) year_min year_max countries nationality)
    as [x|df]; cbn [rbind].
  - reflexivity.
  - destruct (build_tables df metric) as [x|t]; reflexivity.
Qed.

(** X3. As long as the country filter finds its column (the frame has
    [CIE_PAYS], or no country is selected), [filter_and_make] returns the
    filtered frame together with the tables built from that very frame:
    the tables are those [make_tables] gives for the same filters, and
    the call raises exactly when the filtering or the table building
    does. *)
Theorem filter_and_make_tables_of_returned_frame :
  forall (h : heap) (r : ref) (d : DataFrame) (year_min year_max : option Z)
         (countries : option (list string)) (metric nationality : option string),
    h !! r = Some d ->
    has_column "CIE_PAYS" d = true \/ list_truthy countries = false ->
    let filters := build_filters year_min year_max countries nationality in
    snd (filter_and_make r year_min year_max countries metric nationality h)
    = (let? df := filter_frame (ensure_frame d) filters in
       let? t := build_tables df metric in
       ok (df, t))
    /\ snd (make_tables r (Some filters) metric h)
       = (let? df := filter_frame (ensure_frame d) filters in
          build_tables df metric).
Proof.
  intros h r d year_min year_max countries metric nationality Hr Hp filters.
  pose proof (filters_agree (ensure_frame d) year_min year_max countries
                nationality (has_column_ensure_frame d countries Hp)) as Hag.
  fold filters in Hag.
  split.
  - rewrite (filter_and_make_run h r d year_min year_max countries metric
               nationality Hr).
    cbv zeta. fold filters. rewrite ensure_frame_idem, Hag.
    destruct (filter_frame (ensure_frame d) filters) as [x|df]; cbn [rbind].
    + reflexivity.
    + destruct (build_tables df metric) as [x|t]; reflexivity.
  - rewrite (make_tables_run h r d (Some filters) metric Hr). cbn [snd].
    rewrite Hag. reflexivity.
Qed.

(** *** Masks *)

Lemma select_select {A} (m1 m2 : list bool) (l : list A) :
  select (select m1 m2) (select m1 l) = select (mask_and m1 m2) l.
Proof.
  revert m2 l. induction m1 as [|b m1 IH]; intros m2 l.
  - reflexivity.
  - destruct m2 as [|c m2], l as [|a l]; simpl.
    + destruct b; reflexivity.
    + destruct b; simpl; [reflexivity|].
      clear IH. induction m1 as [|b' m1 IH']; [reflexivity|].
      destruct l as [|a' l]; simpl; [reflexivity|]. reflexivity.
    + destruct b; simpl; [destruct c; reflexivity|].
      destruct (select m1 m2); reflexivity.
    + destruct b, c; simpl; rewrite IH; reflexivity.
Qed.

Lemma select_map {A B} (f : A -> B) (m : list bool) (l : list A) :
  select m (map f l) = map f (select m l).
Proof.
  revert l. induction m as [|b m IH]; intros [|a l]; simpl; try reflexivity.
  destruct b; simpl; rewrite IH; reflexivity.
Qed.

Lemma values_select_col (m : list bool) (c : column) :
  values (select_col m c) = select m (values c).
Proof. destruct c; simpl; rewrite ?select_map; reflexivity. Qed.

Lemma select_col_select_col (m1 m2 : list bool) (c : column) :
  select_col (select m1 m2) (select_col m1 c) = select_col (mask_and m1 m2) c.
Proof. destruct c; simpl; rewrite select_select; reflexivity. Qed.

Lemma select_rows_select_rows (m1 m2 : list bool) (d : DataFrame) :
  select_rows (select m1 m2) (select_rows m1 d) = select_rows (mask_and m1 m2) d.
Proof.
  unfold select_rows. rewrite map_map. apply map_ext. intros [n c]. simpl.
  rewrite select_col_select_col. reflexivity.
Qed.

Lemma select_all {A B} (l' : list B) (l : list A) :
  length l = length l' -> select (map (fun _ => true) l') l = l.
Proof.
  revert l. induction l' as [|b l' IH]; intros [|a l] H; simpl in *;
    try reflexivity; try discriminate.
  rewrite IH by lia. reflexivity.
Qed.

Lemma select_col_all {B} (l' : list B) (c : column) :
  col_length c = length l' -> select_col (map (fun _ => true) l') c = c.
Proof. destruct c; simpl; intros H; rewrite select_all by exact H; reflexivity. Qed.

Lemma select_rows_all {B} (l' : list B) (d : DataFrame) :
  rectangular (length l') d -> select_rows (map (fun _ => true) l') d = d.
Proof.
  intros H. unfold select_rows. induction H as [|[n c] d Hc H IH]; simpl.
  - reflexivity.
  - simpl in Hc. rewrite select_col_all by exact Hc. rewrite IH. reflexivity.
Qed.

Lemma mask_and_maps {A B} (f : A -> bool) (g : B -> bool) (l1 : list A) (l2 : list B) :
  mask_and (map f l1) (map g l2)
  = map (fun ab => f (fst ab) && g (snd ab)) (zip l1 l2).
Proof.
  revert l2. induction l1 as [|a l1 IH]; intros [|b l2]; simpl; try reflexivity.
  rewrite IH. reflexivity.
Qed.

Lemma between_mask_years (l : list Z) (lo hi : Z) :
  between_mask (IntCol l) lo hi
  = ok (map (fun y => (lo <=? y) && (y <=? hi)) l).
Proof.
  unfold between_mask, col_ge, col_le. simpl.
  rewrite !mapM_map.
  rewrite (mapM_total _ (fun z => lo <=? z)) by reflexivity.
  rewrite (mapM_total _ (fun z => z <=? hi)) by reflexivity.
  simpl. f_equal.
  induction l as [|y l IH]; simpl; [reflexivity|]. rewrite IH. reflexivity.
Qed.

Lemma rectangular_setcol (n : nat) (d : DataFrame) (name : string) (c : column) :
  rectangular n d -> col_length c = n -> rectangular n (setcol d name c).
Proof.
  intros H Hc. induction H as [|[n0 c0] d H0 H IH]; simpl.
  - constructor; [exact Hc | constructor].
  - destruct (String.eqb name n0); constructor; auto.
Qed.

Lemma rectangular_getcol (n : nat) (d : DataFrame) (name : string) (c : column) :
  rectangular n d -> getcol d name = Some c -> col_length c = n.
Proof.
  intros H. induction H as [|[n0 c0] d H0 H IH]; simpl.
  - discriminate.
  - destruct (String.eqb name n0).
    + intros [= <-]. exact H0.
    + exact IH.
Qed.

(** The frame [_ensure_year_column] makes of a frame with int64 periods. *)
Lemma ensure_frame_periods (d : DataFrame) (periods : list Z) :
  getcol d "ANMOIS" = Some (IntCol periods) ->
  ensure_frame d
  = setcol (setcol d "year" (IntCol (map (fun z => z / 100) periods)))
      "month" (IntCol (map (fun z => z mod 100) periods)).
Proof. intros H. unfold ensure_frame. rewrite H. reflexivity. Qed.

Lemma ensure_frame_rectangular (d : DataFrame) (periods : list Z) :
  getcol d "ANMOIS" = Some (IntCol periods) ->
  rectangular (length periods) d ->
  rectangular (length periods) (ensure_frame d)
  /\ getcol (ensure_frame d) "year"
     = Some (IntCol (map (fun z => z / 100) periods)).
Proof.
  intros H Hr. rewrite (ensure_frame_periods d periods H). split.
  - apply rectangular_setcol; [apply rectangular_setcol; [exact Hr|]|];
      simpl; apply length_map.
  - rewrite getcol_setcol_ne by reflexivity. apply getcol_setcol_eq.
Qed.

Lemma mask_and_all {B} (m : list bool) (l' : list B) :
  length l' = length m -> mask_and m (map (fun _ => true) l') = m.
Proof.
  revert l'. induction m as [|b m IH]; intros [|a l'] H; simpl in *;
    try reflexivity; try discriminate.
  rewrite andb_true_r, IH by lia. reflexivity.
Qed.

Lemma col_isin_select (m : list bool) (c : column) (l : list string) :
  col_isin (select_col m c) l = select m (col_isin c l).
Proof. unfold col_isin. rewrite values_select_col, select_map. reflexivity. Qed.

Lemma col_eq_str_select (m : list bool) (c : column) (n : string) :
  col_eq_str (select_col m c) n = select m (col_eq_str c n).
Proof. unfold col_eq_str. rewrite values_select_col, select_map. reflexivity. Qed.

(** On a frame with int64 periods, a country and a nationality column,
    the three filters keep the rows that pass the three tests. *)
Lemma filter_steps_rows (e : DataFrame) (year_min year_max : option Z)
  (countries : option (list string)) (nationality : option string)
  (periods : list Z) (pays nat_ : column) :
  rectangular (length periods) e ->
  getcol e "year" = Some (IntCol (map (fun z => z / 100) periods)) ->
  getcol e "CIE_PAYS" = Some pays ->
  getcol e "CIE_NAT" = Some nat_ ->
  filter_steps e year_min year_max countries nationality
  = ok (select_rows
          (map (row_passes year_min year_max countries nationality)
             (zip (zip periods (values pays)) (values nat_))) e).
Proof.
  intros Hrect Hy Hp Hn.
  pose proof (rectangular_getcol _ _ _ _ Hrect Hp) as Lp.
  pose proof (rectangular_getcol _ _ _ _ Hrect Hn) as Ln.
  rewrite <- values_length in Lp, Ln.
  set (M1 := map (year_ok year_min year_max) periods).
  set (M2 := map (country_ok countries) (values pays)).
  set (M3 := map (nationality_ok nationality) (values nat_)).
  assert (L1 : length M1 = length periods) by apply length_map.
  assert (L2 : length M2 = length periods)
    by (unfold M2; rewrite length_map; exact Lp).
  assert (H1 : year_step e year_min year_max = ok (select_rows M1 e)).
  { unfold year_step, M1, year_ok.
    destruct year_min as [lo|], year_max as [hi|];
      try (rewrite select_rows_all by exact Hrect; reflexivity).
    rewrite (getitem_ok _ _ _ Hy). cbn [rbind ok].
    rewrite between_mask_years. cbn [rbind ok]. rewrite map_map. reflexivity. }
  assert (H2 : country_step (select_rows M1 e) countries
               = ok (select_rows (mask_and M1 M2) e)).
  { unfold country_step, M2, country_ok.
    destruct countries as [[|c cs]|];
      try (rewrite mask_and_all by (rewrite L1; exact Lp); reflexivity).
    unfold getitem. rewrite getcol_select_rows, Hp. cbn [option_map rbind ok].
    rewrite col_isin_select, select_rows_select_rows. reflexivity. }
  assert (H3 : nationality_step (select_rows (mask_and M1 M2) e) nationality
               = select_rows (mask_and (mask_and M1 M2) M3) e).
  { assert (L12 : length (mask_and M1 M2) = length periods).
    { unfold M1, M2. rewrite mask_and_maps, length_map, length_zip.
      rewrite Lp. lia. }
    unfold nationality_step, M3, nationality_ok.
    rewrite getcol_select_rows, Hn. cbn [option_map].
    destruct nationality as [n|];
      try (rewrite mask_and_all by (rewrite L12; exact Ln); reflexivity).
    destruct (String.eqb n "");
      try (rewrite mask_and_all by (rewrite L12; exact Ln); reflexivity).
    rewrite col_eq_str_select, select_rows_select_rows. reflexivity. }
  unfold filter_steps. rewrite H1. cbn [rbind ok]. rewrite H2. cbn [rbind ok].
  rewrite H3. f_equal. f_equal.
  unfold M1, M2, M3. rewrite !mask_and_maps. reflexivity.
Qed.

(** X4. On a frame with int64 periods, a country and a nationality
    column, [filter_and_make] returns exactly the rows that pass every
    filter that is set, in their order: the year of the period within the
    two bounds, the country among the selected ones, the nationality
    equal to the selected one. A filter that is not set (no bound, no or
    an empty selection) restricts nothing, and the filtering itself never
    raises. *)
Theorem filter_and_make_keeps_matching_rows :
  forall (h : heap) (r : ref) (d : DataFrame) (year_min year_max : option Z)
         (countries : option (list string)) (metric nationality : option string)
         (periods : list Z) (pays nat_ : column),
    h !! r = Some d ->
    getcol d "ANMOIS" = Some (IntCol periods) ->
    getcol d "CIE_PAYS" = Some pays ->
    getcol d "CIE_NAT" = Some nat_ ->
    rectangular (length periods) d ->
    let keep := map (row_passes year_min year_max countries nationality)
                  (zip (zip periods (values pays)) (values nat_)) in
    let df := select_rows keep (ensure_frame d) in
    snd (filter_and_make r year_min year_max countries metric nationality h)
    = (let? t := build_tables df metric in ok (df, t)).
Proof.
  intros h r d year_min year_max countries metric nationality periods pays nat_
    Hr Ha Hp Hn Hrect keep df.
  rewrite (filter_and_make_by_steps h r d year_min year_max countries metric
             nationality Hr (or_introl (has_column_true _ _ _ Hp))).
  destruct (ensure_frame_rectangular d periods Ha Hrect) as [Hre Hy].
  rewrite (filter_steps_rows (ensure_frame d) year_min year_max countries
             nationality periods pays nat_ Hre Hy).
  - reflexivity.
  - rewrite getcol_ensure_frame by reflexivity. exact Hp.
  - rewrite getcol_ensure_frame by reflexivity. exact Hn.
Qed.

(** ** Sorting *)

Lemma insert_by_perm {A} (before : A -> A -> bool) (x : A) (l : list A) :
  Permutation (insert_by before x l) (x :: l).
Proof.
  induction l as [|y l IH]; simpl.
  - reflexivity.
  - destruct (before x y).
    + reflexivity.
    + rewrite IH. apply perm_swap.
Qed.

Lemma sort_by_perm {A} (before : A -> A -> bool) (l : list A) :
  Permutation (sort_by before l) l.
Proof.
  unfold sort_by. induction l as [|x l IH]; simpl.
  - reflexivity.
  - rewrite insert_by_perm. rewrite IH. reflexivity.
Qed.

Lemma ordered_by_perm {A} (R : A -> A -> bool) (l l' : list A) :
  (forall a b, R a b = true -> R b a = true) ->
  Permutation l l' -> ordered_by R l -> ordered_by R l'.
Proof.
  intros Hsym Hp. induction Hp as [|x l l' Hp IH|x y l|l l' l'' Hp1 IH1 Hp2 IH2].
  - auto.
  - simpl. intros [H1 H2]. split; [|auto].
    rewrite <- Hp. exact H1.
  - simpl. intros [H1 [H2 H3]]. inversion H1 as [|? ? Hyx H1']; subst.
    repeat split; auto.
  - auto.
Qed.

Lemma ordered_by_and {A} (R1 R2 : A -> A -> bool) (l : list A) :
  ordered_by R1 l -> ordered_by R2 l ->
  ordered_by (fun a b => R1 a b && R2 a b) l.
Proof.
  induction l as [|x l IH]; simpl; [auto|].
  intros [H1 H1'] [H2 H2']. split; [|auto].
  clear IH H1' H2'. induction l as [|y l IH]; [constructor|].
  inversion H1; inversion H2; subst. constructor.
  - rewrite andb_true_iff. auto.
  - auto.
Qed.

Lemma ordered_by_map {A B} (f : A -> B) (R : B -> B -> bool) (l : list A) :
  ordered_by R (map f l) <-> ordered_by (fun a b => R (f a) (f b)) l.
Proof.
  induction l as [|x l IH]; simpl; [split; auto|].
  rewrite IH. rewrite List.Forall_map. split; intros [H1 H2]; split; auto.
Qed.

Lemma ordered_by_weaken {A} (R1 R2 : A -> A -> bool) (P : A -> Prop) (l : list A) :
  (forall a b, P a -> P b -> R1 a b = true -> R2 a b = true) ->
  Forall P l -> ordered_by R1 l -> ordered_by R2 l.
Proof.
  intros H HP. induction HP as [|x l Hx HP IH]; simpl; [auto|].
  intros [H1 H2]. split; [|auto].
  clear IH H2. induction HP as [|y l Hy HP IH]; [constructor|].
  inversion H1; subst. constructor; auto.
Qed.

Section Sorting.

Context {A : Type} (before : A -> A -> bool) (P : A -> Prop).
Hypothesis total : forall a b, P a -> P b -> before a b = false -> before b a = true.
Hypothesis trans : forall a b c, P a -> P b -> P c ->
  before a b = true -> before b c = true -> before a c = true.

Lemma insert_by_ordered (x : A) (l : list A) :
  P x -> Forall P l -> ordered_by before l ->
  ordered_by before (insert_by before x l).
Proof using total trans.
  intros Hx HP. induction HP as [|y l Hy HP IH]; simpl.
  - intros _. split; [constructor | exact I].
  - intros [H1 H2]. destruct (before x y) eqn:E; simpl.
    + split; [|split; assumption].
      constructor; [exact E|].
      clear IH H2. induction HP as [|z l Hz HP IH]; [constructor|].
      inversion H1; subst. constructor; [|auto].
      apply (trans x y z); auto.
    + split; [|auto].
      rewrite (insert_by_perm before x l). constructor; [|exact H1].
      apply total; auto.
Qed.

Lemma sort_by_ordered (l : list A) :
  Forall P l -> ordered_by before (sort_by before l).
Proof using total trans.
  unfold sort_by. intros HP. induction HP as [|x l Hx HP IH]; simpl.
  - exact I.
  - apply insert_by_ordered; auto.
    change (Forall P (sort_by before l)).
    rewrite (sort_by_perm before l). exact HP.
Qed.

End Sorting.

(** *** The order of numbers *)

Lemma float_leb_total (x y : float64) :
  is_nan x = false -> is_nan y = false ->
  Float64.leb x y = false -> Float64.leb y x = true.
Proof.
  destruct x as [a| | |], y as [b| | |]; simpl; try discriminate; auto.
  intros _ _ H. apply Qle_bool_iff.
  destruct (Qlt_le_dec b a) as [Hlt|Hle].
  - apply Qlt_le_weak. exact Hlt.
  - apply Qle_bool_iff in Hle. congruence.
Qed.

Lemma float_leb_trans (x y z : float64) :
  Float64.leb x y = true -> Float64.leb y z = true -> Float64.leb x z = true.
Proof.
  destruct x as [a| | |], y as [b| | |], z as [c| | |]; simpl;
    try discriminate; auto.
  rewrite !Qle_bool_iff. apply Qle_trans.
Qed.

Lemma number_isna (v : value) :
  is_number v = true -> isna v = is_nan (to_float v).
Proof. destruct v; simpl; try discriminate; reflexivity. Qed.

Lemma desc_before_number (a b : value) :
  is_number a = true -> is_number b = true ->
  desc_before a b
  = is_nan (to_float b)
    || negb (is_nan (to_float a)) && Float64.leb (to_float b) (to_float a).
Proof.
  intros Ha Hb. unfold desc_before.
  rewrite (number_isna a Ha), (number_isna b Hb).
  destruct (is_nan (to_float b)) eqn:Eb; [reflexivity|].
  destruct (is_nan (to_float a)) eqn:Ea; [reflexivity|]. simpl.
  destruct a, b; simpl in *; try discriminate; rewrite ?Ea, ?Eb; reflexivity.
Qed.

Lemma float_leb_nan_r (x y : float64) : Float64.leb x y = true -> is_nan y = false.
Proof. destruct x, y; simpl; try discriminate; auto. Qed.

Lemma float_leb_nan_l (x y : float64) : Float64.leb x y = true -> is_nan x = false.
Proof. destruct x, y; simpl; try discriminate; auto. Qed.

Lemma desc_before_total (a b : value) :
  is_number a = true -> is_number b = true ->
  desc_before a b = false -> desc_before b a = true.
Proof.
  intros Ha Hb. rewrite (desc_before_number a b Ha Hb), (desc_before_number b a Hb Ha).
  destruct (is_nan (to_float a)) eqn:Ea, (is_nan (to_float b)) eqn:Eb; simpl;
    try discriminate; auto.
  apply float_leb_total; assumption.
Qed.

Lemma desc_before_trans (a b c : value) :
  is_number a = true -> is_number b = true -> is_number c = true ->
  desc_before a b = true -> desc_before b c = true -> desc_before a c = true.
Proof.
  intros Ha Hb Hc.
  rewrite (desc_before_number a b Ha Hb), (desc_before_number b c Hb Hc),
    (desc_before_number a c Ha Hc).
  destruct (is_nan (to_float c)) eqn:Ec; simpl; [auto|].
  destruct (is_nan (to_float b)) eqn:Eb; simpl; [discriminate|].
  destruct (is_nan (to_float a)) eqn:Ea; simpl; [intros H; discriminate H|].
  intros H1 H2. apply (float_leb_trans _ _ _ H2 H1).
Qed.

(** *** Rows taken in a given order *)

Lemma take_at_seq_app {A} (pre l : list A) :
  take_at (seq (length pre) (length l)) (pre ++ l) = l.
Proof.
  revert pre. induction l as [|a l IH]; intros pre; [reflexivity|].
  unfold take_at in *. simpl.
  rewrite list_lookup_middle by reflexivity. f_equal.
  specialize (IH (pre ++ [a])).
  rewrite length_app in IH. simpl in IH.
  rewrite Nat.add_1_r in IH. rewrite <- app_assoc in IH. exact IH.
Qed.

Lemma take_at_seq {A} (l : list A) : take_at (seq 0 (length l)) l = l.
Proof. exact (take_at_seq_app [] l). Qed.

Lemma take_at_perm {A} (idxs : list nat) (l : list A) :
  Permutation idxs (seq 0 (length l)) -> Permutation (take_at idxs l) l.
Proof.
  intros H. unfold take_at. rewrite H. fold (take_at (seq 0 (length l)) l).
  rewrite take_at_seq. reflexivity.
Qed.

Lemma take_at_cons {A} (i : nat) (idxs : list nat) (l : list A) :
  take_at (i :: idxs) l
  = match l !! i with
    | Some x => x :: take_at idxs l
    | None => take_at idxs l
    end.
Proof. reflexivity. Qed.

Lemma take_at_zip {A B} (idxs : list nat) (a : list A) (b : list B) :
  length a = length b ->
  take_at idxs (zip a b) = zip (take_at idxs a) (take_at idxs b).
Proof.
  intros Hl. induction idxs as [|i idxs IH]; [reflexivity|].
  rewrite !take_at_cons, IH.
  destruct (a !! i) as [x|] eqn:Ea, (b !! i) as [y|] eqn:Eb.
  - rewrite (proj2 (lookup_zip_Some a b i x y) (conj Ea Eb)). reflexivity.
  - apply lookup_lt_Some in Ea. apply lookup_ge_None in Eb. lia.
  - apply lookup_lt_Some in Eb. apply lookup_ge_None in Ea. lia.
  - rewrite (proj2 (lookup_zip_None a b i) (or_introl Ea)). reflexivity.
Qed.

Lemma take_at_map {A B} (f : A -> B) (idxs : list nat) (l : list A) :
  take_at idxs (map f l) = map f (take_at idxs l).
Proof.
  induction idxs as [|i idxs IH]; [reflexivity|].
  rewrite !take_at_cons, lookup_map, IH. destruct (l !! i); reflexivity.
Qed.

Lemma values_take_col (idxs : list nat) (c : column) :
  values (take_col idxs c) = take_at idxs (values c).
Proof. destruct c; simpl; rewrite ?take_at_map; reflexivity. Qed.

Lemma getcol_take_rows (idxs : list nat) (d : DataFrame) (name : string) :
  getcol (take_rows idxs d) name = option_map (take_col idxs) (getcol d name).
Proof.
  induction d as [|[n c] d IH]; simpl; [reflexivity|].
  destruct (String.eqb name n); [reflexivity | exact IH].
Qed.

Lemma sort_order_perm (before : value -> value -> bool) (vs : list value) :
  Permutation (sort_order before vs) (seq 0 (length vs)).
Proof.
  unfold sort_order. rewrite sort_by_perm.
  change (Permutation ((zip (seq 0 (length vs)) vs).*1) (seq 0 (length vs))).
  rewrite fst_zip by (rewrite length_seq; lia). reflexivity.
Qed.

Lemma take_at_pairs {A} (sp : list (nat * A)) (vs : list A) :
  Forall (fun iv => vs !! fst iv = Some (snd iv)) sp ->
  take_at (map fst sp) vs = map snd sp.
Proof.
  intros H. induction H as [|[i v] sp Hv H IH]; [reflexivity|].
  simpl in Hv. simpl map. rewrite take_at_cons, Hv, IH. reflexivity.
Qed.

Lemma indexed_lookup {A} (vs : list A) :
  Forall (fun iv => vs !! fst iv = Some (snd iv)) (zip (seq 0 (length vs)) vs).
Proof.
  apply List.Forall_forall. intros [i v] Hin.
  apply list_elem_of_In, list_elem_of_lookup in Hin. destruct Hin as [j Hj].
  apply lookup_zip_Some in Hj. destruct Hj as [H1 H2].
  apply lookup_seq in H1. destruct H1 as [-> _]. exact H2.
Qed.

(** The sorted column is in the order it was sorted by. *)
Lemma sort_order_ordered (before : value -> value -> bool) (P : value -> Prop)
  (vs : list value) :
  (forall a b, P a -> P b -> before a b = false -> before b a = true) ->
  (forall a b c, P a -> P b -> P c ->
                 before a b = true -> before b c = true -> before a c = true) ->
  Forall P vs ->
  ordered_by before (take_at (sort_order before vs) vs).
Proof.
  intros Htot Htr HP. unfold sort_order.
  set (B := fun a b : nat * value => before (snd a) (snd b)).
  set (rows := zip (seq 0 (length vs)) vs).
  rewrite (take_at_pairs (sort_by B rows) vs).
  2:{ rewrite (sort_by_perm B rows). apply indexed_lookup. }
  apply ordered_by_map.
  apply (sort_by_ordered B (fun iv => P (snd iv))).
  - intros a b. apply Htot.
  - intros a b c. apply Htr.
  - apply List.Forall_forall. intros [i v] Hin.
    apply in_zip in Hin. destruct Hin as [_ Hin].
    rewrite List.Forall_forall in HP. apply HP. exact Hin.
Qed.

(** ** The tables of [make_tables] *)

Lemma plain_metric_spec (m : string) :
  plain_metric m = true ->
  String.eqb m "" = false /\ String.eqb m "year" = false
  /\ String.eqb m "CIE_PAYS" = false /\ String.eqb m "CIE_PAYS_EN" = false
  /\ String.eqb m "CIE_PAYS_ISO3" = false
  /\ String.eqb m "lat" = false /\ String.eqb m "lon" = false.
Proof.
  unfold plain_metric. cbn [existsb]. rewrite negb_true_iff, !orb_false_iff.
  intros [H1 [H2 [H3 [H4 [H5 [H6 [H7 _]]]]]]]. repeat split; assumption.
Qed.

Lemma metric_column_valid (d : DataFrame) (m : string) (c : column) :
  getcol d m = Some c -> is_numeric_dtype c = true -> String.eqb m "" = false ->
  metric_column d (Some m) = Some m.
Proof.
  intros Hc Hn Hm. unfold metric_column, str_truthy. rewrite Hm, Hc, Hn.
  reflexivity.
Qed.

Lemma mapM_getitem (d : DataFrame) (names : list string) :
  Forall (fun n => exists c, getcol d n = Some c) names ->
  exists cols, mapM (getitem d) names = ok cols.
Proof.
  intros H. induction H as [|n names [c Hc] H [cols IH]]; simpl.
  - eauto.
  - rewrite (getitem_ok _ _ _ Hc). cbn [rbind ok]. rewrite IH. cbn [rbind ok].
    eauto.
Qed.

(** A group-by of a numeric column returns, unless the column is one of
    the grouping columns or a grouping column is named twice. *)
Lemma groupby_agg_returns (f : aggfunc) (d : DataFrame) (by_ : list string)
  (target : string) (c : column) :
  Forall (fun n => exists c, getcol d n = Some c) by_ ->
  getcol d target = Some c -> is_numeric_dtype c = true ->
  existsb (String.eqb target) by_ || has_dup by_ = false ->
  exists t, groupby_agg f d by_ target = ok t.
Proof.
  intros Hby Hc Hn Hcl. unfold groupby_agg.
  destruct (mapM_getitem d by_ Hby) as [cols ->]. cbn [rbind ok].
  rewrite (getitem_ok _ _ _ Hc). cbn [rbind ok].
  destruct (agg_column_numeric f (row_keys (map values cols))
              (group_keys (row_keys (map values cols))) c Hn) as [col ->].
  cbn [rbind ok]. rewrite Hcl. eauto.
Qed.

(** *** Groups of one int64 column *)

Lemma Qle_bool_inject (a b : Z) : Qle_bool (inject_Z a) (inject_Z b) = (a <=? b).
Proof. unfold Qle_bool, inject_Z. simpl. rewrite !Z.mul_1_r. reflexivity. Qed.

Lemma key_eqb_year (a b : Z) : key_eqb (year_key a) (year_key b) = (a =? b).
Proof.
  unfold year_key. cbn [key_eqb]. rewrite value_eqb_int, andb_true_r. reflexivity.
Qed.

Lemma key_leb_year (a b : Z) : key_leb (year_key a) (year_key b) = (a <=? b).
Proof.
  unfold year_key. cbn [key_leb]. rewrite value_eqb_int.
  destruct (a =? b) eqn:E.
  - apply Z.eqb_eq in E. subst. symmetry. apply Z.leb_refl.
  - apply Qle_bool_inject.
Qed.

Lemma row_keys_year (ys : list Z) : row_keys [map VInt ys] = map year_key ys.
Proof. simpl. rewrite map_map. reflexivity. Qed.

Lemma key_component_year (years : list Z) :
  key_component 0 (map year_key years) = map VInt years.
Proof.
  unfold key_component. induction years as [|y years IH]; [reflexivity|].
  change (VInt y :: omap (fun k : key => k !! 0%nat) (map year_key years)
          = VInt y :: map VInt years).
  f_equal. exact IH.
Qed.

Lemma distinct_keys_distinct (ks : list key) :
  ordered_by (fun a b => negb (key_eqb a b)) (distinct_keys ks).
Proof.
  induction ks as [|k ks IH]; simpl; [exact I|].
  destruct (existsb (fun g => key_eqb g k) (distinct_keys ks)) eqn:E; [exact IH|].
  simpl. split; [|exact IH].
  apply List.Forall_forall. intros g Hg.
  rewrite negb_true_iff, key_eqb_sym.
  destruct (key_eqb g k) eqn:E'; [|reflexivity].
  assert (existsb (fun g => key_eqb g k) (distinct_keys ks) = true).
  { apply existsb_exists. eauto. }
  congruence.
Qed.

Lemma group_keys_distinct (keys : list key) :
  ordered_by (fun a b => negb (key_eqb a b)) (group_keys keys).
Proof.
  unfold group_keys.
  apply (ordered_by_perm _ (distinct_keys (List.filter key_notna keys))).
  - intros a b. rewrite (key_eqb_sym b a). auto.
  - symmetry. apply sort_by_perm.
  - apply distinct_keys_distinct.
Qed.

(** The groups of an int64 column are its distinct values, ascending. *)
Lemma group_keys_years (ys : list Z) :
  exists years,
    group_keys (map year_key ys) = map year_key years
    /\ ordered_by Z.ltb years
    /\ (forall y, In y years <-> In y ys).
Proof.
  destruct (keys_as_pairs year_key ys (group_keys (map year_key ys)))
    as [years [Hgk Hin]]; [intros k; apply group_keys_In|].
  exists years. split; [exact Hgk|]. split.
  - assert (Hord : ordered_by key_leb (group_keys (map year_key ys))).
    { unfold group_keys.
      apply (sort_by_ordered key_leb (fun k => exists y, k = year_key y)).
      - intros a b [x ->] [y ->]. rewrite !key_leb_year.
        intros H. apply Z.leb_gt in H. apply Z.leb_le. lia.
      - intros a b c [x ->] [y ->] [z ->]. rewrite !key_leb_year.
        intros H1 H2. apply Z.leb_le in H1, H2. apply Z.leb_le. lia.
      - apply List.Forall_forall. intros k Hk.
        apply distinct_keys_In in Hk. apply filter_In in Hk. destruct Hk as [Hk _].
        apply in_map_iff in Hk. destruct Hk as [y [<- _]]. eauto. }
    pose proof (group_keys_distinct (map year_key ys)) as Hd.
    rewrite Hgk in Hord, Hd.
    apply (proj1 (ordered_by_map year_key _ years)) in Hord.
    apply (proj1 (ordered_by_map year_key _ years)) in Hd.
    pose proof (ordered_by_and _ _ _ Hord Hd) as H.
    apply (ordered_by_weaken _ Z.ltb (fun _ => True) years) in H.
    + exact H.
    + intros a b _ _. rewrite key_leb_year, key_eqb_year.
      rewrite andb_true_iff, negb_true_iff.
      intros [H1 H2]. apply Z.leb_le in H1. apply Z.eqb_neq in H2.
      apply Z.ltb_lt. lia.
    + apply List.Forall_forall. auto.
  - intros y. split.
    + intros Hy. rewrite List.Forall_forall in Hin. auto.
    + intros Hy.
      destruct (group_keys_complete (year_key y) (year_key y) (map year_key ys))
        as [g [Hg Heq]].
      * apply in_map. exact Hy.
      * rewrite key_eqb_year. apply Z.eqb_refl.
      * rewrite Hgk in Hg. apply in_map_iff in Hg. destruct Hg as [y' [<- Hy']].
        rewrite key_eqb_year in Heq. apply Z.eqb_eq in Heq. subst. exact Hy'.
Qed.

(** *** The three tables are built *)

Lemma reduce_numeric (f : aggfunc) (c : column) (mask : list bool) :
  is_numeric_dtype c = true -> exists v, reduce f c mask = ok v.
Proof. destruct c, f; simpl; try discriminate; eauto. Qed.

Lemma dict_set_Forall {A} (Q : string * A -> Prop) (dct : list (string * A))
  (k : string) (a : A) :
  Forall Q dct -> Q (k, a) -> Forall Q (dict_set dct k a).
Proof.
  intros H Hk. induction H as [|[k' a'] dct Hq H IH]; simpl.
  - constructor; [exact Hk | constructor].
  - destruct (String.eqb k k') eqn:E.
    + apply String.eqb_eq in E. subst k'. constructor; assumption.
    + constructor; assumption.
Qed.

Lemma agg_entries_returns (d : DataFrame) (by_ : string) (keys gk : list key)
  (entries : list (string * agg_spec)) :
  Forall (fun e => String.eqb (fst e) by_ = false
                   /\ exists c, getcol d (fst e) = Some c
                                /\ (snd e = SpecSum -> is_numeric_dtype c = true))
    entries ->
  exists cols, agg_entries d by_ keys gk entries = ok cols
               /\ map fst cols = map fst entries.
Proof.
  intros H. induction H as [|[n s] entries [Hn [c [Hc Hs]]] H [cols [IH1 IH2]]].
  - exists []. split; reflexivity.
  - simpl in Hn, Hc, Hs. cbn [agg_entries]. rewrite Hn.
    rewrite (getitem_ok _ _ _ Hc). cbn [rbind ok].
    destruct s.
    + destruct (agg_column_numeric AggSum keys gk c (Hs eq_refl)) as [col ->].
      cbn [rbind ok]. rewrite IH1. cbn [rbind ok].
      exists ((n, col) :: cols). split; [reflexivity|]. simpl. rewrite IH2.
      reflexivity.
    + cbn [rbind ok]. rewrite IH1. cbn [rbind ok].
      eexists. split; [reflexivity|]. simpl. rewrite IH2. reflexivity.
Qed.

(** The ranking by country is built for a numeric metric that is not the
    country column itself. *)
Lemma make_by_region_returns (d : DataFrame) (m : string) (c : column) :
  getcol d m = Some c -> is_numeric_dtype c = true ->
  String.eqb m "CIE_PAYS" = false ->
  exists t, make_by_region d (Some m) = ok t.
Proof.
  intros Hc Hn Hm. unfold make_by_region.
  destruct (getcol d "CIE_PAYS") as [pays|] eqn:Hp; [|eauto].
  destruct (str_truthy (Some m)); [|eauto].
  set (keys := row_keys [values pays]).
  set (Q := fun e : string * agg_spec =>
              String.eqb (fst e) "CIE_PAYS" = false
              /\ exists c, getcol d (fst e) = Some c
                           /\ (snd e = SpecSum -> is_numeric_dtype c = true)).
  assert (H0 : Forall Q [(m, SpecSum)]).
  { constructor; [|constructor]. split; [exact Hm|]. exists c. auto. }
  assert (H1 : Forall Q (if has_column "CIE_PAYS_EN" d
                         then dict_set [(m, SpecSum)] "CIE_PAYS_EN" SpecFirst
                         else [(m, SpecSum)])).
  { destruct (has_column "CIE_PAYS_EN" d) eqn:E; [|exact H0].
    apply dict_set_Forall; [exact H0|]. split; [reflexivity|].
    apply has_column_getcol in E. destruct E as [c' Hc']. exists c'.
    split; [exact Hc' | discriminate]. }
  match goal with
  | |- context [agg_entries d "CIE_PAYS" keys ?gk ?es] =>
      assert (H2 : Forall Q es)
  end.
  { destruct (has_column "CIE_PAYS_ISO3" d) eqn:E; [|exact H1].
    apply dict_set_Forall; [exact H1|]. split; [reflexivity|].
    apply has_column_getcol in E. destruct E as [c' Hc']. exists c'.
    split; [exact Hc' | discriminate]. }
  destruct (agg_entries_returns d "CIE_PAYS" keys (group_keys keys) _ H2)
    as [cols [Hcols Hnames]].
  rewrite Hcols. cbn [rbind ok]. unfold sort_values_desc.
  assert (Hin : In m (map fst (key_columns ["CIE_PAYS"] [pays] (group_keys keys)
                                 ++ cols))).
  { rewrite map_app. apply in_or_app. right. rewrite Hnames.
    destruct (has_column "CIE_PAYS_ISO3" d), (has_column "CIE_PAYS_EN" d);
      repeat apply dict_set_head; left; reflexivity. }
  destruct (getcol_in_keys _ _ Hin) as [tc Htc].
  rewrite (getitem_ok _ _ _ Htc). cbn [rbind ok]. eauto.
Qed.

Lemma make_timeseries_returns (d : DataFrame) (m : string) (c : column) :
  getcol d m = Some c -> is_numeric_dtype c = true ->
  String.eqb m "year" = false ->
  exists t, make_timeseries d (Some m) = ok t.
Proof.
  intros Hc Hn Hm. unfold make_timeseries.
  destruct (getcol d "year") as [yc|] eqn:Hy; [|eauto].
  destruct (notna_any yc && str_truthy (Some m)); [|eauto].
  apply (groupby_agg_returns AggSum d ["year"] m c); auto.
  - constructor; [eauto | constructor].
  - cbn [existsb has_dup]. rewrite Hm. reflexivity.
Qed.

Lemma make_geo_returns (d : DataFrame) (m : string) (c : column) :
  getcol d m = Some c -> is_numeric_dtype c = true ->
  String.eqb m "lat" = false -> String.eqb m "lon" = false ->
  exists t, make_geo d (Some m) = ok t.
Proof.
  intros Hc Hn Hm1 Hm2. unfold make_geo.
  destruct (has_column "lat" d) eqn:E1; [|cbn [andb]; eauto].
  destruct (has_column "lon" d) eqn:E2; [|cbn [andb]; eauto].
  cbn [andb]. destruct (str_truthy (Some m)); [|eauto].
  apply has_column_getcol in E1, E2.
  apply (groupby_agg_returns AggSum d ["lat"; "lon"] m c); auto.
  cbn [existsb has_dup]. rewrite Hm1, Hm2. reflexivity.
Qed.

(** For a numeric metric with a plain name, [make_tables] returns the
    three tables, each built from the filtered frame. *)
Lemma make_tables_parts (h : heap) (r : ref) (d d' : DataFrame)
  (filters : option Filters) (m : string) (c : column) :
  h !! r = Some d ->
  apply_filters (ensure_frame d) filters = ok d' ->
  getcol d' m = Some c -> is_numeric_dtype c = true -> plain_metric m = true ->
  exists t,
    snd (make_tables r filters (Some m) h) = ok t
    /\ make_timeseries d' (Some m) = ok (timeseries t)
    /\ make_by_region d' (Some m) = ok (by_region t)
    /\ make_geo d' (Some m) = ok (geo t).
Proof.
  intros Hr Hf Hc Hn Hpl.
  destruct (plain_metric_spec m Hpl) as [H0 [H1 [H2 [_ [_ [H5 H6]]]]]].
  rewrite (make_tables_run h r d filters (Some m) Hr). cbn [snd].
  rewrite Hf. cbn [rbind ok]. unfold build_tables.
  rewrite (metric_column_valid d' m c Hc Hn H0).
  destruct (make_timeseries_returns d' m c Hc Hn H1) as [ts Hts].
  destruct (make_by_region_returns d' m c Hc Hn H2) as [br Hbr].
  destruct (make_geo_returns d' m c Hc Hn H5 H6) as [g Hg].
  rewrite Hts, Hbr, Hg. cbn [rbind ok].
  eexists. split; [reflexivity|]. cbn [timeseries by_region geo]. auto.
Qed.

(** *** The time series *)

Lemma group_mask_year (ys : list Z) (y : Z) :
  group_mask (map year_key ys) (year_key y) = map (Z.eqb y) ys.
Proof.
  unfold group_mask. rewrite map_map. apply map_ext. intros y'.
  apply key_eqb_year.
Qed.

Lemma group_total_reduce (c : column) (keys : list key) (k : key) :
  is_numeric_dtype c = true ->
  reduce AggSum c (group_mask keys k) = ok (group_total c keys k).
Proof.
  intros Hn. unfold group_total.
  destruct (reduce_numeric AggSum c (group_mask keys k) Hn) as [v ->].
  reflexivity.
Qed.

Lemma make_timeseries_years (d : DataFrame) (m : string) (ys : list Z) (c : column) :
  getcol d "year" = Some (IntCol ys) -> ys <> [] ->
  getcol d m = Some c -> is_numeric_dtype c = true ->
  String.eqb m "" = false -> String.eqb m "year" = false ->
  exists (years : list Z) (totals : column),
    make_timeseries d (Some m) = ok [("year", IntCol years); (m, totals)]
    /\ ordered_by Z.ltb years
    /\ (forall y, In y years <-> In y ys)
    /\ Forall2 (fun y total => reduce AggSum c (map (Z.eqb y) ys) = ok total)
         years (values totals).
Proof.
  intros Hy Hne Hc Hn Hm0 Hm.
  destruct (group_keys_years ys) as [years [Hgk [Hord Hin]]].
  destruct (agg_sum_values (map year_key ys) (map year_key years) c Hn)
    as [totals [Hagg Hvals]].
  exists years, totals. split; [|split; [exact Hord|split; [exact Hin|]]].
  - unfold make_timeseries. rewrite Hy.
    assert (Hany : notna_any (IntCol ys) = true).
    { destruct ys as [|y ys]; [congruence | reflexivity]. }
    rewrite Hany. unfold str_truthy. rewrite Hm0. cbn [negb andb].
    unfold groupby_agg, getitem. cbn [mapM]. rewrite Hy, Hc.
    cbn [rbind ok map values]. rewrite row_keys_year, Hgk, Hagg.
    cbn [rbind ok existsb has_dup]. rewrite Hm. cbn [orb].
    unfold key_columns.
    change (imap _ (zip ["year"] [IntCol ys]))
      with [("year", rebuild (IntCol ys) (key_component 0 (map year_key years)))].
    rewrite key_component_year, rebuild_ints. reflexivity.
  - rewrite Hvals. clear Hagg Hvals Hord Hin Hgk.
    induction years as [|y years IH]; simpl; constructor; [|exact IH].
    rewrite <- group_mask_year. apply group_total_reduce. exact Hn.
Qed.

(** X5. The time series of [make_tables] for a numeric metric has one
    row per year of the filtered rows, in ascending order of the year,
    and each total is the sum reduction of the metric over the rows of
    that year. *)
Theorem timeseries_one_row_per_year :
  forall (h : heap) (r : ref) (d d' : DataFrame) (filters : option Filters)
         (m : string) (ys : list Z) (c : column),
    h !! r = Some d ->
    apply_filters (ensure_frame d) filters = ok d' ->
    getcol d' "year" = Some (IntCol ys) -> ys <> [] ->
    getcol d' m = Some c -> is_numeric_dtype c = true -> plain_metric m = true ->
    exists (t : Tables) (years : list Z) (totals : column),
      snd (make_tables r filters (Some m) h) = ok t
      /\ timeseries t = [("year", IntCol years); (m, totals)]
      /\ ordered_by Z.ltb years
      /\ (forall y, In y years <-> In y ys)
      /\ Forall2 (fun y total => reduce AggSum c (map (Z.eqb y) ys) = ok total)
           years (values totals).
Proof.
  intros h r d d' filters m ys c Hr Hf Hy Hne Hc Hn Hpl.
  destruct (make_tables_parts h r d d' filters m c Hr Hf Hc Hn Hpl)
    as [t [Ht [Hts _]]].
  destruct (plain_metric_spec m Hpl) as [H0 [H1 _]].
  destruct (make_timeseries_years d' m ys c Hy Hne Hc Hn H0 H1)
    as [years [totals [Hts' Hrest]]].
  exists t, years, totals. split; [exact Ht|]. split; [|exact Hrest].
  rewrite Hts' in Hts. injection Hts as <-. reflexivity.
Qed.

(** *** The ranking by country *)

Lemma key_component_single (labels : list value) :
  key_component 0 (map (fun v => [v]) labels) = labels.
Proof.
  unfold key_component. induction labels as [|v labels IH]; [reflexivity|].
  change (v :: omap (fun k : key => k !! 0%nat) (map (fun v => [v]) labels)
          = v :: labels).
  f_equal. exact IH.
Qed.

Lemma concat_single {A} (l : list A) : concat (map (fun v => [v]) l) = l.
Proof. induction l as [|a l IH]; simpl; [reflexivity|]. rewrite IH. reflexivity. Qed.

Lemma zip_map_r {A B} (f : A -> B) (l : list A) :
  zip l (map f l) = map (fun a => (a, f a)) l.
Proof. induction l as [|a l IH]; simpl; [reflexivity|]. rewrite IH. reflexivity. Qed.

Lemma group_total_number (c : column) (keys : list key) (k : key) :
  is_numeric_dtype c = true -> is_number (group_total c keys k) = true.
Proof. intros H. unfold group_total. destruct c; try discriminate; reflexivity. Qed.

(** The groups of one column: its distinct cells that are not missing. *)
Lemma group_keys_single (vs : list value) :
  group_keys (map (fun v => [v]) vs) = map (fun v => [v]) (sorted_labels vs)
  /\ Forall (fun g => In g vs) (sorted_labels vs).
Proof.
  destruct (keys_as_pairs (fun v : value => [v]) vs
              (group_keys (map (fun v => [v]) vs)))
    as [labels [Hgk Hin]]; [intros k; apply group_keys_In|].
  unfold sorted_labels. rewrite Hgk.
  change (concat (map (fun v : value => [v]) labels))
    with (concat (@map value (list value) (fun v => [v]) labels)).
  rewrite concat_single. auto.
Qed.

Lemma make_by_region_ranking (d : DataFrame) (m : string) (pays c : column) :
  getcol d "CIE_PAYS" = Some pays ->
  getcol d m = Some c -> is_numeric_dtype c = true -> plain_metric m = true ->
  exists (t : DataFrame) (regions totals : column),
    make_by_region d (Some m) = ok t
    /\ getcol t "CIE_PAYS" = Some regions
    /\ getcol t m = Some totals
    /\ ordered_by desc_before (values totals)
    /\ length (values regions) = length (values totals)
    /\ Permutation (zip (values regions) (values totals))
         (map (fun g => (g, group_total c (row_keys [values pays]) [g]))
            (sorted_labels (values pays)))
    /\ exists rest, t = ("CIE_PAYS", regions) :: (m, totals) :: rest.
Proof.
  intros Hp Hc Hn Hpl.
  destruct (plain_metric_spec m Hpl) as [H0 [_ [H2 [H3 [H4 _]]]]].
  set (keys := row_keys [values pays]).
  assert (Hkeys : keys = map (fun v => [v]) (values pays)) by reflexivity.
  destruct (group_keys_single (values pays)) as [Hgk Hlab].
  rewrite <- Hkeys in Hgk.
  set (labels := sorted_labels (values pays)) in *.
  set (Q := fun e : string * agg_spec =>
              String.eqb (fst e) "CIE_PAYS" = false
              /\ exists c, getcol d (fst e) = Some c
                           /\ (snd e = SpecSum -> is_numeric_dtype c = true)).
  assert (HE : exists R,
             (if has_column "CIE_PAYS_ISO3" d
              then dict_set (if has_column "CIE_PAYS_EN" d
                             then dict_set [(m, SpecSum)] "CIE_PAYS_EN" SpecFirst
                             else [(m, SpecSum)]) "CIE_PAYS_ISO3" SpecFirst
              else (if has_column "CIE_PAYS_EN" d
                    then dict_set [(m, SpecSum)] "CIE_PAYS_EN" SpecFirst
                    else [(m, SpecSum)]))
             = (m, SpecSum) :: R /\ Forall Q R).
  { rewrite String.eqb_sym in H3, H4.
    assert (Qen : has_column "CIE_PAYS_EN" d = true -> Q ("CIE_PAYS_EN", SpecFirst)).
    { intros E. split; [reflexivity|]. apply has_column_getcol in E.
      destruct E as [c' Hc']. exists c'. split; [exact Hc' | discriminate]. }
    assert (Qiso : has_column "CIE_PAYS_ISO3" d = true
                   -> Q ("CIE_PAYS_ISO3", SpecFirst)).
    { intros E. split; [reflexivity|]. apply has_column_getcol in E.
      destruct E as [c' Hc']. exists c'. split; [exact Hc' | discriminate]. }
    destruct (has_column "CIE_PAYS_ISO3" d), (has_column "CIE_PAYS_EN" d);
      cbn [dict_set]; rewrite ?H3, ?H4; cbn [dict_set]; rewrite ?H3, ?H4;
      simpl;
      eexists; (split; [reflexivity|]);
      repeat (apply List.Forall_cons || apply List.Forall_nil); auto. }
  destruct HE as [R [HE HR]].
  destruct (agg_sum_values keys (group_keys keys) c Hn) as [totals0 [Hagg Hvals]].
  destruct (agg_entries_returns d "CIE_PAYS" keys (group_keys keys) R HR)
    as [rest [Hrest _]].
  set (regions0 := rebuild pays (key_component 0 (group_keys keys))).
  set (idxs := sort_order desc_before (values totals0)).
  assert (Hrun : make_by_region d (Some m)
                 = ok (take_rows idxs
                         (("CIE_PAYS", regions0) :: (m, totals0) :: rest))).
  { unfold make_by_region. rewrite Hp. unfold str_truthy. rewrite H0.
    cbn [negb]. fold keys. rewrite HE. cbn [agg_entries]. rewrite H2.
    rewrite (getitem_ok _ _ _ Hc). cbn [rbind ok]. rewrite Hagg. cbn [rbind ok].
    rewrite Hrest. cbn [rbind ok]. unfold sort_values_desc, getitem, key_columns.
    change (imap _ (zip ["CIE_PAYS"] [pays])) with [("CIE_PAYS", regions0)].
    cbn [app getcol]. rewrite H2, String.eqb_refl. reflexivity. }
  assert (Hreg : values regions0 = labels).
  { unfold regions0. rewrite Hgk, key_component_single.
    apply rebuild_faithful. exact Hlab. }
  assert (Htot : values totals0
                 = map (fun g => group_total c keys [g]) labels).
  { rewrite Hvals, Hgk, map_map. reflexivity. }
  exists (take_rows idxs (("CIE_PAYS", regions0) :: (m, totals0) :: rest)),
    (take_col idxs regions0), (take_col idxs totals0).
  split; [exact Hrun|]. split; [reflexivity|]. split.
  { cbn [take_rows map fst snd getcol]. rewrite H2, String.eqb_refl. reflexivity. }
  split.
  { rewrite values_take_col. unfold idxs.
    apply (sort_order_ordered desc_before (fun v => is_number v = true)).
    + exact desc_before_total.
    + exact desc_before_trans.
    + rewrite Htot. apply List.Forall_forall. intros v Hv.
      apply in_map_iff in Hv. destruct Hv as [g [<- _]].
      apply group_total_number. exact Hn. }
  assert (Hlen : length (values regions0) = length (values totals0)).
  { rewrite Hreg, Htot, length_map. reflexivity. }
  assert (Hidx : forall A (l : list A), length l = length (values totals0) ->
                 Permutation (take_at idxs l) l).
  { intros A l Hl. apply take_at_perm. unfold idxs. rewrite sort_order_perm, Hl.
    reflexivity. }
  split.
  - rewrite !values_take_col.
    rewrite (Permutation_length (Hidx _ _ Hlen)).
    rewrite (Permutation_length (Hidx _ _ eq_refl)). exact Hlen.
  - split; [|exists (take_rows idxs rest); reflexivity].
    rewrite !values_take_col.
    rewrite <- take_at_zip by exact Hlen.
    rewrite take_at_perm.
    + rewrite Hreg, Htot. rewrite zip_map_r. reflexivity.
    + unfold idxs. rewrite sort_order_perm.
      rewrite length_zip, Hlen, Nat.min_id. reflexivity.
Qed.

Lemma value_eqb_refl (v : value) : notna v = true -> value_eqb v v = true.
Proof.
  destruct v as [z|[q| | |]|s|]; simpl; try discriminate; auto.
  - intros _. apply Qeq_bool_iff. reflexivity.
  - intros _. apply Qeq_bool_iff. reflexivity.
  - intros _. apply String.eqb_refl.
Qed.

Lemma key_eqb_single (a b : value) : key_eqb [a] [b] = value_eqb a b.
Proof. cbn [key_eqb]. apply andb_true_r. Qed.

Lemma sorted_labels_distinct (vs : list value) :
  ordered_by (fun a b => negb (value_eqb a b)) (sorted_labels vs).
Proof.
  pose proof (group_keys_distinct (map (fun v => [v]) vs)) as H.
  rewrite (proj1 (group_keys_single vs)) in H.
  apply (proj1 (ordered_by_map (fun v : value => [v]) _ _)) in H.
  apply (ordered_by_weaken _ _ (fun _ => True) _ ) with (3 := H).
  - intros a b _ _. rewrite key_eqb_single. auto.
  - apply List.Forall_forall. auto.
Qed.

Lemma sorted_labels_complete (vs : list value) (v : value) :
  In v vs -> notna v = true ->
  exists g, In g (sorted_labels vs) /\ value_eqb g v = true.
Proof.
  intros Hin Hv.
  destruct (group_keys_complete [v] [v] (map (fun v => [v]) vs)) as [g [Hg Heq]].
  - apply (in_map (fun v => [v])). exact Hin.
  - rewrite key_eqb_single. apply value_eqb_refl. exact Hv.
  - rewrite (proj1 (group_keys_single vs)) in Hg.
    apply in_map_iff in Hg. destruct Hg as [g' [<- Hg']].
    rewrite key_eqb_single in Heq. eauto.
Qed.

Lemma group_mask_single (vs : list value) (g : value) :
  group_mask (row_keys [vs]) [g] = map (value_eqb g) vs.
Proof.
  unfold group_mask. cbn [row_keys]. rewrite map_map. apply map_ext.
  intros v. apply key_eqb_single.
Qed.

Lemma Forall2_zip {A B} (R : A -> B -> Prop) (a : list A) (b : list B) :
  length a = length b ->
  Forall (fun p => R (fst p) (snd p)) (zip a b) -> Forall2 R a b.
Proof.
  revert b. induction a as [|x a IH]; intros [|y b] Hl H; simpl in *;
    try discriminate; constructor.
  - inversion H; subst. assumption.
  - apply IH; [lia|]. inversion H; subst. assumption.
Qed.

(** X6. The regional ranking of [make_tables] for a numeric metric has
    one row per country of the filtered rows (each distinct country that
    is not missing, once), the rows are in descending order of the total
    (missing totals last), and the total of a country is the sum
    reduction of the metric over the rows of that country. *)
Theorem by_region_ranks_each_country_once :
  forall (h : heap) (r : ref) (d d' : DataFrame) (filters : option Filters)
         (m : string) (pays c : column),
    h !! r = Some d ->
    apply_filters (ensure_frame d) filters = ok d' ->
    getcol d' "CIE_PAYS" = Some pays ->
    getcol d' m = Some c -> is_numeric_dtype c = true -> plain_metric m = true ->
    exists (t : Tables) (regions totals : column),
      snd (make_tables r filters (Some m) h) = ok t
      /\ getcol (by_region t) "CIE_PAYS" = Some regions
      /\ getcol (by_region t) m = Some totals
      /\ ordered_by desc_before (values totals)
      /\ ordered_by (fun a b => negb (value_eqb a b)) (values regions)
      /\ (forall v, In v (values pays) -> notna v = true ->
                    exists g, In g (values regions) /\ value_eqb g v = true)
      /\ Forall2 (fun g total =>
                    reduce AggSum c (map (value_eqb g) (values pays)) = ok total)
           (values regions) (values totals).
Proof.
  intros h r d d' filters m pays c Hr Hf Hp Hc Hn Hpl.
  destruct (make_tables_parts h r d d' filters m c Hr Hf Hc Hn Hpl)
    as [t [Ht [_ [Hbr _]]]].
  destruct (make_by_region_ranking d' m pays c Hp Hc Hn Hpl)
    as [br [regions [totals [Hbr' [Hreg [Htot [Hord [Hlen [Hperm _]]]]]]]]].
  rewrite Hbr' in Hbr. injection Hbr as Hbr.
  exists t, regions, totals. rewrite <- Hbr.
  split; [exact Ht|]. split; [exact Hreg|]. split; [exact Htot|].
  split; [exact Hord|].
  assert (Hregs : Permutation (values regions) (sorted_labels (values pays))).
  { apply (Permutation_map fst) in Hperm.
    change (map fst (zip (values regions) (values totals)))
      with ((zip (values regions) (values totals)).*1) in Hperm.
    rewrite fst_zip in Hperm by lia.
    rewrite map_map in Hperm. simpl in Hperm. rewrite map_id in Hperm.
    exact Hperm. }
  split; [|split].
  - apply (ordered_by_perm _ (sorted_labels (values pays))).
    + intros a b. rewrite (value_eqb_sym b a). auto.
    + symmetry. exact Hregs.
    + apply sorted_labels_distinct.
  - intros v Hv Hna.
    destruct (sorted_labels_complete (values pays) v Hv Hna) as [g [Hg Heq]].
    exists g. split; [|exact Heq].
    apply (Permutation_in g (Permutation_sym Hregs)). exact Hg.
  - apply Forall2_zip; [exact Hlen|].
    apply List.Forall_forall. intros [g total] Hin.
    apply (Permutation_in _ Hperm) in Hin.
    apply in_map_iff in Hin. destruct Hin as [g' [Heq _]].
    injection Heq as <- <-. cbn [fst snd].
    rewrite <- group_mask_single. apply group_total_reduce. exact Hn.
Qed.

(** ** Normalisation on ingest *)

Lemma rstrip_nonempty (c : ascii) (s r : string) :
  rstrip s = r -> r <> EmptyString -> rstrip (String c s) = String c r.
Proof.
  intros H Hne. cbn [rstrip]. rewrite H. destruct r; [congruence|reflexivity].
Qed.

Lemma rstrip_idem (s : string) : rstrip (rstrip s) = rstrip s.
Proof.
  induction s as [|c s IH]; [reflexivity|].
  cbn [rstrip]. destruct (rstrip s) as [|c1 r1] eqn:E.
  - destruct (is_space c) eqn:Ec; [reflexivity|].
    cbn [rstrip]. rewrite Ec. reflexivity.
  - apply rstrip_nonempty; [exact IH | discriminate].
Qed.

Lemma rstrip_first (s : string) (c : ascii) :
  first_char s = Some c -> is_space c = false -> first_char (rstrip s) = Some c.
Proof.
  destruct s as [|c0 s]; [discriminate|]. intros [= ->] Hc.
  cbn [rstrip]. destruct (rstrip s); [rewrite Hc|]; reflexivity.
Qed.

Lemma lstrip_first (s : string) (c : ascii) :
  first_char (lstrip s) = Some c -> is_space c = false.
Proof.
  induction s as [|c0 s IH]; [discriminate|].
  cbn [lstrip]. destruct (is_space c0) eqn:E; [exact IH|].
  intros [= <-]. exact E.
Qed.

Lemma lstrip_clean (s : string) :
  (forall c, first_char s = Some c -> is_space c = false) -> lstrip s = s.
Proof.
  destruct s as [|c s]; [reflexivity|]. intros H. cbn [lstrip].
  rewrite (H c eq_refl). reflexivity.
Qed.

Lemma rstrip_last (s : string) (c : ascii) :
  last_char (rstrip s) = Some c -> is_space c = false.
Proof.
  induction s as [|c0 s IH]; [discriminate|].
  cbn [rstrip]. destruct (rstrip s) as [|c1 r1] eqn:E.
  - destruct (is_space c0) eqn:Ec; [discriminate|].
    intros [= <-]. exact Ec.
  - cbn [last_char]. exact IH.
Qed.

Lemma strip_first (s : string) (c : ascii) :
  first_char (strip s) = Some c -> is_space c = false.
Proof.
  unfold strip. intros H.
  destruct (first_char (lstrip s)) as [c0|] eqn:E.
  - pose proof (lstrip_first s c0 E) as Hc0.
    rewrite (rstrip_first _ _ E Hc0) in H. injection H as <-. exact Hc0.
  - destruct (lstrip s); [discriminate H | discriminate E].
Qed.

Lemma strip_idem (s : string) : strip (strip s) = strip s.
Proof.
  unfold strip at 1. rewrite lstrip_clean by apply strip_first.
  unfold strip. apply rstrip_idem.
Qed.

Lemma has_char_replace (a b : ascii) (s : string) :
  Ascii.eqb b a = false -> has_char a (replace_char a b s) = false.
Proof.
  intros Hab. induction s as [|c s IH]; [reflexivity|].
  cbn [replace_char has_char]. rewrite IH.
  destruct (Ascii.eqb c a) eqn:E; [rewrite Hab | rewrite E]; reflexivity.
Qed.

Lemma has_char_lstrip (a : ascii) (s : string) :
  has_char a s = false -> has_char a (lstrip s) = false.
Proof.
  induction s as [|c s IH]; [auto|]. cbn [lstrip has_char].
  intros H. apply orb_false_iff in H. destruct H as [H1 H2].
  destruct (is_space c); [auto|]. cbn [has_char]. rewrite H1, H2. reflexivity.
Qed.

Lemma has_char_rstrip (a : ascii) (s : string) :
  has_char a s = false -> has_char a (rstrip s) = false.
Proof.
  induction s as [|c s IH]; [auto|]. cbn [rstrip has_char].
  intros H. apply orb_false_iff in H. destruct H as [H1 H2].
  specialize (IH H2).
  destruct (rstrip s) as [|c1 r1].
  - destruct (is_space c); [reflexivity|]. cbn [has_char]. rewrite H1. reflexivity.
  - cbn [has_char] in *. rewrite H1. exact IH.
Qed.

Lemma replace_char_absent (a b : ascii) (s : string) :
  has_char a s = false -> replace_char a b s = s.
Proof.
  induction s as [|c s IH]; [reflexivity|]. cbn [has_char replace_char].
  intros H. apply orb_false_iff in H. destruct H as [H1 H2].
  rewrite H1, (IH H2). reflexivity.
Qed.

(** The text kept for a cell is trimmed, and trimming it again changes
    nothing. *)
Lemma trimmed_is_trimmed (v : value) : is_trimmed (trimmed v).
Proof.
  unfold trimmed, is_trimmed. split; [|split].
  - apply strip_first.
  - unfold strip. apply rstrip_last.
  - unfold strip. apply has_char_rstrip, has_char_lstrip, has_char_replace.
    reflexivity.
Qed.

Lemma trimmed_idem (v : value) : trimmed (VStr (trimmed v)) = trimmed v.
Proof.
  unfold trimmed at 1. cbn [py_str].
  rewrite replace_char_absent by apply trimmed_is_trimmed.
  unfold trimmed. apply strip_idem.
Qed.

Lemma normalize_column_length (c : column) :
  col_length (normalize_column c) = col_length c.
Proof.
  destruct c as [l|l|l]; try reflexivity. unfold normalize_column.
  destruct (Float64.ltb half _).
  - destruct (column_of_numbers_spec
                (map to_numeric_str (map numeric_candidate (map trimmed l))))
      as [_ [H _]].
    rewrite H, !length_map. reflexivity.
  - simpl. rewrite !length_map. reflexivity.
Qed.

Lemma normalize_column_cells (c : column) :
  is_numeric_dtype (normalize_column c) = true
  \/ Forall (fun v => exists s, v = VStr s /\ is_trimmed s)
       (values (normalize_column c)).
Proof.
  destruct c as [l|l|l]; try (left; reflexivity). unfold normalize_column.
  destruct (Float64.ltb half _).
  - left. apply column_of_numbers_spec.
  - right. simpl. rewrite map_map. apply List.Forall_forall. intros v Hv.
    apply in_map_iff in Hv. destruct Hv as [v0 [<- _]].
    exists (trimmed v0). split; [reflexivity | apply trimmed_is_trimmed].
Qed.

Lemma normalize_column_idem (c : column) :
  normalize_column (normalize_column c) = normalize_column c.
Proof.
  destruct c as [l|l|l]; try reflexivity.
  unfold normalize_column at 2 3.
  set (conv := column_of_numbers
                 (map to_numeric_str (map numeric_candidate (map trimmed l)))).
  destruct (Float64.ltb half (notna_mean conv)) eqn:E.
  - assert (Hn : is_numeric_dtype conv = true) by apply column_of_numbers_spec.
    destruct conv; try discriminate; reflexivity.
  - unfold normalize_column.
    assert (Hs : map trimmed (map VStr (map trimmed l)) = map trimmed l).
    { rewrite !map_map. apply map_ext. intros v. apply trimmed_idem. }
    rewrite Hs. fold conv. rewrite E. reflexivity.
Qed.

(** X7. The normalisation of [fetch_and_cache] keeps the shape of the
    frame: the same column labels in the same order and the same number
    of rows in every column; a column that is already numeric is left as
    it is. *)
Theorem normalize_frame_keeps_shape :
  forall (all_df : DataFrame),
    columns (normalize_frame all_df) = columns all_df
    /\ Forall2 (fun before after =>
                  col_length (snd after) = col_length (snd before)
                  /\ (is_numeric_dtype (snd before) = true
                      -> snd after = snd before))
         all_df (normalize_frame all_df).
Proof.
  intros all_df. unfold normalize_frame, columns. split.
  - rewrite map_map. reflexivity.
  - induction all_df as [|[n c] df IH]; simpl; constructor; [|exact IH].
    simpl. split; [apply normalize_column_length|].
    destruct c; try discriminate; reflexivity.
Qed.

(** X8. After the normalisation every column is numeric or holds text
    only: each of its cells is a string without surrounding white space
    and without no-break space. No cell of a text column is missing any
    more (a null cell has become its text). *)
Theorem normalize_frame_numeric_or_trimmed_text :
  forall (all_df : DataFrame),
    Forall (fun nc =>
              is_numeric_dtype (snd nc) = true
              \/ Forall (fun v => exists s, v = VStr s /\ is_trimmed s)
                   (values (snd nc)))
      (normalize_frame all_df).
Proof.
  intros all_df.
  unfold normalize_frame. apply List.Forall_forall. intros nc Hin.
  apply in_map_iff in Hin. destruct Hin as [[n c] [<- _]]. simpl.
  apply normalize_column_cells.
Qed.

(** X9. The normalisation is idempotent: applied to a frame it has
    already normalised, it changes nothing. *)
Theorem normalize_frame_idempotent :
  forall (all_df : DataFrame),
    normalize_frame (normalize_frame all_df) = normalize_frame all_df.
Proof.
  intros all_df. unfold normalize_frame. rewrite map_map.
  apply map_ext. intros [n c]. simpl. rewrite normalize_column_idem.
  reflexivity.
Qed.

(** ** The recovery highlights *)

Lemma asc_before_number (a b : value) :
  is_number a = true -> is_number b = true ->
  asc_before a b
  = is_nan (to_float b)
    || negb (is_nan (to_float a)) && Float64.leb (to_float a) (to_float b).
Proof.
  intros Ha Hb. unfold asc_before.
  rewrite (number_isna a Ha), (number_isna b Hb).
  destruct (is_nan (to_float b)) eqn:Eb; [reflexivity|].
  destruct (is_nan (to_float a)) eqn:Ea; [reflexivity|]. simpl.
  destruct a, b; simpl in *; try discriminate; rewrite ?Ea, ?Eb; reflexivity.
Qed.

Lemma asc_before_total (a b : value) :
  is_number a = true -> is_number b = true ->
  asc_before a b = false -> asc_before b a = true.
Proof.
  intros Ha Hb. rewrite (asc_before_number a b Ha Hb), (asc_before_number b a Hb Ha).
  destruct (is_nan (to_float a)) eqn:Ea, (is_nan (to_float b)) eqn:Eb; simpl;
    try discriminate; auto.
  apply float_leb_total; assumption.
Qed.

Lemma asc_before_trans (a b c : value) :
  is_number a = true -> is_number b = true -> is_number c = true ->
  asc_before a b = true -> asc_before b c = true -> asc_before a c = true.
Proof.
  intros Ha Hb Hc.
  rewrite (asc_before_number a b Ha Hb), (asc_before_number b c Hb Hc),
    (asc_before_number a c Ha Hc).
  destruct (is_nan (to_float c)) eqn:Ec; simpl; [auto|].
  destruct (is_nan (to_float b)) eqn:Eb; simpl; [discriminate|].
  destruct (is_nan (to_float a)) eqn:Ea; simpl; [intros H; discriminate H|].
  apply float_leb_trans.
Qed.

Lemma ordered_by_firstn {A} (R : A -> A -> bool) (k : nat) (l : list A) :
  ordered_by R l -> ordered_by R (firstn k l).
Proof.
  revert l. induction k as [|k IH]; intros [|x l]; simpl; auto.
  intros [H1 H2]. split; [|auto].
  apply List.Forall_forall. intros y Hy. apply firstn_subset in Hy.
  rewrite List.Forall_forall in H1. auto.
Qed.

Lemma ordered_by_head_n {A} (R : A -> A -> bool) (n : Z) (l : list A) :
  ordered_by R l -> ordered_by R (head_n n l).
Proof. unfold head_n. destruct (0 <=? n); apply ordered_by_firstn. Qed.

Lemma head_n_length {A} (n : Z) (l : list A) :
  0 <= n -> (length (head_n n l) <= Z.to_nat n)%nat.
Proof.
  intros H. unfold head_n. destruct (0 <=? n) eqn:E.
  - rewrite length_firstn. lia.
  - apply Z.leb_gt in E. lia.
Qed.

(** Rows sorted by one of their float fields. *)
Lemma sort_rows_ordered {A} (f : A -> float64) (before : value -> value -> bool)
  (l : list A) :
  (forall a b, is_number a = true -> is_number b = true ->
               before a b = false -> before b a = true) ->
  (forall a b c, is_number a = true -> is_number b = true -> is_number c = true ->
                 before a b = true -> before b c = true -> before a c = true) ->
  ordered_by (fun a b => before (VFloat (f a)) (VFloat (f b)))
    (sort_by (fun a b => before (VFloat (f a)) (VFloat (f b))) l).
Proof.
  intros Htot Htr.
  apply (sort_by_ordered _ (fun _ => True)).
  - intros a b _ _. apply Htot; reflexivity.
  - intros a b c _ _ _. apply Htr; reflexivity.
  - apply List.Forall_forall. auto.
Qed.

(** X10. Whenever no delta among the selected rows is infinite or NaN,
    the recovery highlights are computed, and: the best rows are the
    first three of the shown carriers in descending order of the
    percentage; the worst rows are the first three, in ascending order of
    the percentage, of the shown carriers whose percentage is not
    +infinity, so that no worst row has an infinite percentage; and the
    carriers called out apart are exactly those of infinite percentage. *)
Theorem recovery_highlights_selection :
  forall (top_companies : list RecoveryRow),
    Forall (fun r => is_finite (rec_abs_delta r) = true) top_companies ->
    exists (h : Highlights) (by_best by_worst : list RecoveryRow),
      recovery_highlights top_companies = Some h
      /\ Permutation by_best top_companies
      /\ ordered_by (fun a b => desc_before (VFloat (rec_pct a)) (VFloat (rec_pct b)))
           by_best
      /\ best h = firstn 3 by_best
      /\ Permutation by_worst
           (List.filter (fun r => negb (Float64.eqb (rec_pct r) PInf)) top_companies)
      /\ ordered_by (fun a b => asc_before (VFloat (rec_pct a)) (VFloat (rec_pct b)))
           by_worst
      /\ worst h = firstn 3 by_worst
      /\ (forall r, In r (worst h) -> rec_pct r <> PInf)
      /\ infers h = List.filter (fun r => Float64.eqb (rec_pct r) PInf) top_companies.
Proof.
  intros top Hfin.
  set (D := fun a b : RecoveryRow =>
              desc_before (VFloat (rec_pct a)) (VFloat (rec_pct b))).
  set (U := fun a b : RecoveryRow =>
              asc_before (VFloat (rec_pct a)) (VFloat (rec_pct b))).
  set (numeric := List.filter (fun r => negb (Float64.eqb (rec_pct r) PInf)) top).
  assert (Hb : forall r, In r (firstn 3 (sort_by D top)) -> In r top).
  { intros r Hr. apply firstn_subset in Hr. apply sort_by_In in Hr. exact Hr. }
  assert (Hw : forall r, In r (firstn 3 (sort_by U numeric)) -> In r numeric).
  { intros r Hr. apply firstn_subset in Hr. apply sort_by_In in Hr. exact Hr. }
  assert (Hall : forallb (fun r => is_finite (rec_abs_delta r))
                   (firstn 3 (sort_by D top) ++ firstn 3 (sort_by U numeric)) = true).
  { apply forallb_forall. intros r Hr. rewrite List.Forall_forall in Hfin.
    apply in_app_or in Hr. destruct Hr as [Hr|Hr].
    - apply Hfin, Hb, Hr.
    - apply Hw in Hr. apply filter_In in Hr. apply Hfin, Hr. }
  eexists _, (sort_by D top), (sort_by U numeric).
  split.
  { unfold recovery_highlights, head_n. cbn [Z.leb Z.compare].
    change (Z.to_nat 3) with 3%nat. fold D U numeric. rewrite Hall.
    reflexivity. }
  cbn [best worst infers].
  split; [apply sort_by_perm|].
  split; [apply (sort_rows_ordered rec_pct desc_before);
          [exact desc_before_total | exact desc_before_trans]|].
  split; [reflexivity|].
  split; [apply sort_by_perm|].
  split; [apply (sort_rows_ordered rec_pct asc_before);
          [exact asc_before_total | exact asc_before_trans]|].
  split; [reflexivity|].
  split; [|reflexivity].
  intros r Hr Hinf. apply Hw in Hr. apply filter_In in Hr. destruct Hr as [_ Hr].
  rewrite Hinf in Hr. discriminate Hr.
Qed.

(** ** The years of the recovery analysis *)

Lemma group_keys_notna (k : key) (keys : list key) :
  In k (group_keys keys) -> key_notna k = true.
Proof.
  unfold group_keys. intros H. apply sort_by_In in H.
  apply distinct_keys_In in H. apply filter_In in H. apply H.
Qed.

Lemma sorted_labels_notna (v : value) (vs : list value) :
  In v (sorted_labels vs) -> notna v = true.
Proof.
  intros H.
  assert (Hk : In [v] (group_keys (map (fun v => [v]) vs))).
  { rewrite (proj1 (group_keys_single vs)). apply (in_map (fun v => [v])). exact H. }
  apply group_keys_notna in Hk. simpl in Hk. rewrite andb_true_r in Hk. exact Hk.
Qed.

Lemma float_eqb_leb (x y : float64) :
  Float64.eqb x y = true -> Float64.leb x y = true.
Proof.
  destruct x as [a| | |], y as [b| | |]; simpl; try discriminate; auto.
  rewrite Qeq_bool_iff, Qle_bool_iff. intros H. rewrite H. apply Qle_refl.
Qed.

Lemma float_leb_refl (x : float64) : is_nan x = false -> Float64.leb x x = true.
Proof.
  destruct x; simpl; try discriminate; auto. intros _. apply Qle_bool_iff.
  apply Qle_refl.
Qed.

Lemma notna_number (v : value) :
  is_number v = true -> notna v = true -> is_nan (to_float v) = false.
Proof.
  intros Hn Hna. unfold notna in Hna. rewrite (number_isna v Hn) in Hna.
  apply negb_true_iff in Hna. exact Hna.
Qed.

Lemma value_eqb_number (a b : value) :
  is_number a = true -> is_number b = true ->
  value_eqb a b = Float64.eqb (to_float a) (to_float b).
Proof. destruct a, b; simpl; try discriminate; reflexivity. Qed.

Lemma key_leb_number (a b : value) :
  is_number a = true -> is_number b = true ->
  notna a = true -> notna b = true ->
  key_leb [a] [b] = Float64.leb (to_float a) (to_float b).
Proof.
  intros Ha Hb Na Nb. cbn [key_leb].
  rewrite (value_eqb_number a b Ha Hb).
  pose proof (notna_number a Ha Na) as Ea.
  pose proof (notna_number b Hb Nb) as Eb.
  destruct (Float64.eqb (to_float a) (to_float b)) eqn:E.
  - symmetry. apply float_eqb_leb. exact E.
  - destruct a, b; simpl in *; try discriminate; rewrite ?Ea, ?Eb; reflexivity.
Qed.

(** The distinct numbers of a column come in ascending order. *)
Lemma sorted_labels_ordered (vs : list value) :
  Forall (fun v => is_number v = true) vs ->
  ordered_by (fun a b => Float64.leb (to_float a) (to_float b)) (sorted_labels vs).
Proof.
  intros Hnum.
  set (P := fun k : key => exists v, k = [v] /\ is_number v = true /\ notna v = true).
  assert (Hord : ordered_by key_leb (group_keys (map (fun v => [v]) vs))).
  { unfold group_keys. apply (sort_by_ordered key_leb P).
    - intros a b [x [-> [Hx Nx]]] [y [-> [Hy Ny]]].
      rewrite !key_leb_number by assumption.
      apply float_leb_total; apply notna_number; assumption.
    - intros a b c [x [-> [Hx Nx]]] [y [-> [Hy Ny]]] [z [-> [Hz Nz]]].
      rewrite !key_leb_number by assumption. apply float_leb_trans.
    - apply List.Forall_forall. intros k Hk.
      apply distinct_keys_In in Hk. apply filter_In in Hk. destruct Hk as [Hk Hna].
      apply in_map_iff in Hk. destruct Hk as [v [<- Hv]].
      exists v. split; [reflexivity|]. split.
      + rewrite List.Forall_forall in Hnum. auto.
      + simpl in Hna. rewrite andb_true_r in Hna. exact Hna. }
  rewrite (proj1 (group_keys_single vs)) in Hord.
  apply (proj1 (ordered_by_map (fun v : value => [v]) _ _)) in Hord.
  apply (ordered_by_weaken _ _
           (fun v => is_number v = true /\ notna v = true) _) with (3 := Hord).
  - intros a b [Ha Na] [Hb Nb] H. rewrite key_leb_number in H by assumption.
    exact H.
  - apply List.Forall_forall. intros v Hv. split.
    + rewrite List.Forall_forall in Hnum. apply Hnum.
      apply sorted_labels_In. exact Hv.
    + apply (sorted_labels_notna v vs Hv).
Qed.

Lemma ordered_by_last {A} (R : A -> A -> bool) (l : list A) (z : A) :
  ordered_by R l -> last l = Some z ->
  forall x, In x l -> x = z \/ R x z = true.
Proof.
  induction l as [|a l IH]; [discriminate|].
  intros [H1 H2] Hl x Hx. destruct l as [|a' l].
  - injection Hl as <-. destruct Hx as [<-|[]]. left. reflexivity.
  - change (last (a' :: l) = Some z) in Hl.
    destruct Hx as [<-|Hx].
    + right. rewrite List.Forall_forall in H1. apply H1.
      clear - Hl. revert a' Hl. induction l as [|b l IH]; intros a' Hl.
      * injection Hl as <-. left. reflexivity.
      * right. apply (IH b). exact Hl.
    + apply IH; assumption.
Qed.

Lemma cohort_years_groups (cc yc : list value) (gpairs : list (value * value)) :
  group_keys (row_keys [cc; yc]) = map pair_key gpairs ->
  (forall y, In y (sorted_labels (map snd gpairs)) -> In y (cohort_years cc yc))
  /\ (forall y, In y (cohort_years cc yc) ->
                exists y', In y' (sorted_labels (map snd gpairs))
                           /\ value_eqb y' y = true).
Proof.
  intros Hgk. rewrite row_keys_pairs in Hgk. split.
  - intros y Hy. apply sorted_labels_In in Hy.
    apply in_map_iff in Hy. destruct Hy as [[e y'] [Heq Hin]]. simpl in Heq. subst y'.
    assert (Hk : In (pair_key (e, y)) (group_keys (map pair_key (zip cc yc)))).
    { rewrite Hgk. apply in_map. exact Hin. }
    pose proof (group_keys_notna _ _ Hk) as Hna.
    apply group_keys_In in Hk. apply in_map_iff in Hk.
    destruct Hk as [[e' y'] [Heq Hz]]. unfold pair_key in Heq. simpl in Heq.
    injection Heq as -> ->.
    unfold cohort_years. apply in_map_iff. exists (e, y). split; [reflexivity|].
    apply filter_In. split; [exact Hz|].
    simpl in Hna. rewrite andb_true_r in Hna. exact Hna.
  - intros y Hy. unfold cohort_years in Hy. apply in_map_iff in Hy.
    destruct Hy as [[e y'] [Heq Hin]]. simpl in Heq. subst y'.
    apply filter_In in Hin. destruct Hin as [Hz Hna]. simpl in Hna.
    apply andb_true_iff in Hna. destruct Hna as [Ne Ny].
    destruct (group_keys_complete (pair_key (e, y)) (pair_key (e, y))
                (map pair_key (zip cc yc))) as [g [Hg Heq]].
    + apply in_map. exact Hz.
    + unfold pair_key. simpl. rewrite !value_eqb_refl by assumption. reflexivity.
    + rewrite Hgk in Hg. apply in_map_iff in Hg. destruct Hg as [[e' y'] [<- Hg]].
      unfold pair_key in Heq. simpl in Heq.
      apply andb_true_iff in Heq. destruct Heq as [_ Heq].
      rewrite andb_true_r in Heq.
      assert (Ny' : notna y' = true).
      { apply (value_eqb_notna y y'). rewrite value_eqb_sym. exact Heq. }
      destruct (sorted_labels_complete (map snd gpairs) y') as [y'' [H1 H2]].
      * apply in_map_iff. exists (e', y'). auto.
      * exact Ny'.
      * exists y''. split; [exact H1|]. apply (value_eqb_trans _ y'); assumption.
Qed.

Lemma recovery_years_numeric (df_fr : DataFrame) :
  exists c, getcol (recovery_years df_fr) "year" = Some c
            /\ is_numeric_dtype c = true.
Proof.
  unfold recovery_years.
  destruct (getitem df_fr "ANMOIS") as [x|a0]; cbn [rbind].
  - eexists. split; [apply getcol_setcol_eq|].
    destruct (getcol df_fr "year"); [apply to_numeric_is_numeric | reflexivity].
  - destruct (astype_int a0) as [x|a]; cbn [rbind].
    + eexists. split; [apply getcol_setcol_eq|].
      destruct (getcol df_fr "year"); [apply to_numeric_is_numeric | reflexivity].
    + destruct (col_floordiv a 100) as [x|q]; cbn [rbind].
      * eexists. split; [apply getcol_setcol_eq|].
        destruct (getcol df_fr "year"); [apply to_numeric_is_numeric | reflexivity].
      * destruct (astype_int q) as [x|y] eqn:Ey; cbn [rbind ok].
        -- eexists. split; [apply getcol_setcol_eq|].
           destruct (getcol df_fr "year"); [apply to_numeric_is_numeric | reflexivity].
        -- exists y. split; [apply getcol_setcol_eq|].
           destruct (astype_int_IntCol _ _ Ey) as [zs ->]. reflexivity.
Qed.

Lemma existsb_eqb_ext (v : value) (l1 l2 : list value) :
  (forall y, In y l1 -> exists y', In y' l2 /\ value_eqb y' y = true) ->
  (forall y, In y l2 -> exists y', In y' l1 /\ value_eqb y' y = true) ->
  existsb (value_eqb v) l1 = existsb (value_eqb v) l2.
Proof.
  intros H1 H2.
  assert (Hdir : forall a b : list value,
             (forall y, In y a -> exists y', In y' b /\ value_eqb y' y = true) ->
             existsb (value_eqb v) a = true -> existsb (value_eqb v) b = true).
  { intros a b H Ha. apply existsb_exists in Ha. destruct Ha as [y [Hy Hv]].
    destruct (H y Hy) as [y' [Hy' He]]. apply existsb_exists. exists y'.
    split; [exact Hy'|]. apply (value_eqb_trans _ y); [exact Hv|].
    rewrite value_eqb_sym. exact He. }
  destruct (existsb (value_eqb v) l1) eqn:E1, (existsb (value_eqb v) l2) eqn:E2;
    try reflexivity.
  - rewrite (Hdir l1 l2 H1 E1) in E2. discriminate.
  - rewrite (Hdir l2 l1 H2 E2) in E1. discriminate.
Qed.

Lemma group_years_in (cc yc : list value) (gpairs : list (value * value)) :
  group_keys (row_keys [cc; yc]) = map pair_key gpairs ->
  forall y, In y (map snd gpairs) -> In y yc.
Proof.
  intros Hgk y Hy. rewrite row_keys_pairs in Hgk.
  apply in_map_iff in Hy. destruct Hy as [[e y'] [Heq Hin]]. simpl in Heq. subst y'.
  assert (Hk : In (pair_key (e, y)) (group_keys (map pair_key (zip cc yc)))).
  { rewrite Hgk. apply in_map. exact Hin. }
  apply group_keys_In in Hk. apply in_map_iff in Hk.
  destruct Hk as [[e' y'] [Heq Hz]]. unfold pair_key in Heq. simpl in Heq.
  injection Heq as -> ->. apply in_zip in Hz. apply Hz.
Qed.

Lemma cohort_years_in (cc yc : list value) (y : value) :
  In y (cohort_years cc yc) -> In y yc /\ notna y = true.
Proof.
  unfold cohort_years. intros H. apply in_map_iff in H.
  destruct H as [[e y'] [Heq Hin]]. simpl in Heq. subst y'.
  apply filter_In in Hin. destruct Hin as [Hz Hna]. simpl in Hna.
  apply andb_true_iff in Hna. apply in_zip in Hz. split; [apply Hz | apply Hna].
Qed.

Lemma last_In {A} (l : list A) (z : A) : last l = Some z -> In z l.
Proof.
  intros H. apply last_Some in H. destruct H as [l' ->].
  apply in_or_app. right. left. reflexivity.
Qed.

(** X11. Whenever the recovery analysis shows its table: the latest year
    is the greatest year among the rows of the French cohort that have a
    company and a year; the baseline year is 2019 when one of these rows
    is of 2019, and their smallest year otherwise; the two years are
    printed differently; the table is in descending order of the latest
    total; the carriers shown are its first [top_n] rows (at most
    [top_n]), and the highlights are those of the carriers shown. *)
Theorem recovery_years_and_table_order :
  forall (df_filtered : option DataFrame) (metric_choice : string) (top_n : Z)
         (baseline_year latest_year : value)
         (df_recovery top_companies : list RecoveryRow)
         (highlights : option Highlights),
    recovery_analysis df_filtered metric_choice top_n
    = RecoveryShown baseline_year latest_year df_recovery top_companies highlights ->
    exists (cc yc mc : column),
      let cohort := recovery_years (french_cohort df_filtered) in
      let years := cohort_years (values cc) (values yc) in
      getcol cohort metric_choice = Some mc
      /\ getcol (setcol cohort metric_choice (to_numeric mc))
           (company_column (french_cohort df_filtered)) = Some cc
      /\ getcol (setcol cohort metric_choice (to_numeric mc)) "year" = Some yc
      /\ In latest_year years
      /\ (forall y, In y years ->
                    Float64.leb (to_float y) (to_float latest_year) = true)
      /\ (if existsb (value_eqb (VInt 2019)) years
          then baseline_year = VInt 2019
          else In baseline_year years
               /\ forall y, In y years ->
                            Float64.leb (to_float baseline_year) (to_float y) = true)
      /\ py_str baseline_year <> py_str latest_year
      /\ ordered_by (fun a b => desc_before (VFloat (rec_last a)) (VFloat (rec_last b)))
           df_recovery
      /\ top_companies = head_n top_n df_recovery
      /\ (0 <= top_n -> (length top_companies <= Z.to_nat top_n)%nat)
      /\ highlights = recovery_highlights top_companies.
Proof.
  intros df_filtered metric_choice top_n baseline_year latest_year
    df_recovery top_companies highlights H.
  unfold recovery_analysis in H.
  set (fr := french_cohort df_filtered) in *.
  destruct (frame_empty fr); [discriminate|].
  set (cname := company_column fr) in *.
  set (coh := recovery_years fr) in *.
  destruct (getcol coh metric_choice) as [mc|] eqn:Hmc; [|discriminate].
  set (d := setcol coh metric_choice (to_numeric mc)) in *.
  destruct (rbind (groupby_agg AggSum d [cname; "year"] metric_choice) _)
    as [e|[[company year] total]] eqn:Hagg; [discriminate|].
  destruct (getcol d cname) as [cc|] eqn:Hcc.
  2:{ exfalso. revert Hagg. unfold groupby_agg, getitem. cbn [mapM].
      rewrite Hcc. discriminate. }
  destruct (getcol d "year") as [yc|] eqn:Hyc.
  2:{ exfalso. revert Hagg. unfold groupby_agg, getitem. cbn [mapM].
      rewrite Hcc, Hyc. discriminate. }
  assert (Hdm : getcol d metric_choice = Some (to_numeric mc))
    by apply getcol_setcol_eq.
  destruct (agg_company_year d cname metric_choice cc yc (to_numeric mc)
              company year total Hcc Hyc Hdm (to_numeric_is_numeric mc) Hagg)
    as [gpairs [Hgk [-> [-> ->]]]].
  assert (Hynum : is_numeric_dtype yc = true).
  { unfold d in Hyc. destruct (String.eqb "year" metric_choice) eqn:E.
    - apply String.eqb_eq in E. subst metric_choice.
      rewrite getcol_setcol_eq in Hyc. injection Hyc as <-.
      apply to_numeric_is_numeric.
    - rewrite getcol_setcol_ne in Hyc by exact E.
      destruct (recovery_years_numeric fr) as [c [Hc Hn]]. fold coh in Hc.
      rewrite Hc in Hyc. injection Hyc as <-. exact Hn. }
  pose proof (numeric_values yc Hynum) as Hnums.
  rewrite List.Forall_forall in Hnums.
  set (SL := sorted_labels (map snd gpairs)) in *.
  destruct (cohort_years_groups (values cc) (values yc) gpairs Hgk) as [Hsound Hcompl].
  fold SL in Hsound, Hcompl.
  assert (Hord : ordered_by (fun a b => Float64.leb (to_float a) (to_float b)) SL).
  { apply sorted_labels_ordered. apply List.Forall_forall. intros y Hy.
    apply Hnums. apply (group_years_in _ _ _ Hgk). exact Hy. }
  assert (Hsl : forall y, In y SL -> is_number y = true /\ notna y = true).
  { intros y Hy. split.
    - apply Hnums. apply (group_years_in _ _ _ Hgk).
      apply sorted_labels_In. exact Hy.
    - apply (sorted_labels_notna y _ Hy). }
  assert (Hle : forall y y', In y (cohort_years (values cc) (values yc)) ->
                In y' SL -> value_eqb y' y = true ->
                Float64.leb (to_float y) (to_float y') = true
                /\ Float64.leb (to_float y') (to_float y) = true).
  { intros y y' Hy Hy' He. destruct (cohort_years_in _ _ _ Hy) as [Hin _].
    destruct (Hsl y' Hy') as [Hn' _].
    rewrite (value_eqb_number y' y Hn' (Hnums y Hin)) in He. split.
    - apply float_eqb_leb. rewrite float_eqb_sym. exact He.
    - apply float_eqb_leb. exact He. }
  destruct SL as [|y0 years] eqn:Hyears; [discriminate|].
  destruct (last (y0 :: years)) as [ly|] eqn:Hlast; [|discriminate].
  destruct (String.eqb _ _) eqn:Hstr; [discriminate|].
  injection H as <- <- <- <- <-.
  exists cc, yc, mc. cbv zeta.
  split; [exact Hmc|]. split; [exact Hcc|]. split; [exact Hyc|].
  split; [apply Hsound, last_In, Hlast|].
  split.
  { intros y Hy. destruct (Hcompl y Hy) as [y' [Hy' He]].
    destruct (Hle y y' Hy Hy' He) as [H1 _].
    destruct (ordered_by_last _ _ _ Hord Hlast y' Hy') as [->|Hr]; [exact H1|].
    apply (float_leb_trans _ _ _ H1 Hr). }
  split.
  { unfold baseline_of.
    rewrite (existsb_eqb_ext (VInt 2019) (y0 :: years)
               (cohort_years (values cc) (values yc))).
    - destruct (existsb (value_eqb (VInt 2019)) (cohort_years (values cc) (values yc)));
        [reflexivity|].
      split; [apply Hsound; left; reflexivity|].
      intros y Hy. destruct (Hcompl y Hy) as [y' [Hy' He]].
      destruct (Hle y y' Hy Hy' He) as [_ H2].
      destruct Hord as [Hfirst _]. rewrite List.Forall_forall in Hfirst.
      destruct Hy' as [<-|Hy']; [exact H2|].
      apply (float_leb_trans _ _ _ (Hfirst y' Hy') H2).
    - intros y Hy. exists y. split; [apply Hsound; exact Hy|].
      apply value_eqb_refl. apply (Hsl y Hy).
    - exact Hcompl. }
  split.
  { intros Heq. rewrite Heq, String.eqb_refl in Hstr. discriminate. }
  split.
  { apply (sort_rows_ordered rec_last desc_before);
      [exact desc_before_total | exact desc_before_trans]. }
  split; [reflexivity|]. split; [apply head_n_length | reflexivity].
Qed.

(** ** The metrics the application offers *)

Lemma app_numeric_cols_In (raw : DataFrame) (c : string) :
  In c (app_numeric_cols raw) ->
  exists col, getcol raw c = Some col /\ is_numeric_dtype col = true.
Proof.
  unfold app_numeric_cols. intros H. apply filter_In in H. destruct H as [_ H].
  apply andb_true_iff in H. destruct H as [H _].
  destruct (getcol raw c) as [col|]; [eauto | discriminate].
Qed.

Lemma mem_In (s : string) (l : list string) : mem s l = true -> In s l.
Proof.
  unfold mem. intros H. apply existsb_exists in H. destruct H as [x [Hx He]].
  apply String.eqb_eq in He. subst. exact Hx.
Qed.

Lemma mem_numeric (raw : DataFrame) (c : string) :
  mem c (app_numeric_cols raw) = true ->
  exists col, getcol raw c = Some col /\ is_numeric_dtype col = true.
Proof. intros H. apply app_numeric_cols_In, mem_In, H. Qed.

(** One of the two ratios is computed when its columns are numeric. *)
Lemma ratio_computed (raw : DataFrame) (per_flight : bool) (num den : column) :
  let '(name, n, d) := ratio_metric per_flight in
  getcol raw n = Some num -> getcol raw d = Some den ->
  is_numeric_dtype num = true -> is_numeric_dtype den = true ->
  exists q, df_with_metrics raw (Some name) = ok (setcol raw name q)
            /\ col_truediv num (replace_zero_na den) = ok q.
Proof.
  destruct per_flight; cbn [ratio_metric]; intros Hn Hd Nn Nd;
    destruct (ratio_column num den Nn Nd) as [q [Hq _]]; exists q;
    (split; [|exact Hq]); unfold df_with_metrics.
  - change (String.eqb "PAX_PER_VOL" "PAX_PER_VOL") with true.
    change (String.eqb "PAX_PER_VOL" "FRP_PER_PAX") with false. cbv iota.
    rewrite (getitem_ok _ _ _ Hn), (getitem_ok _ _ _ Hd). cbn [rbind ok].
    rewrite Hq. reflexivity.
  - change (String.eqb "FRP_PER_PAX" "PAX_PER_VOL") with false.
    change (String.eqb "FRP_PER_PAX" "FRP_PER_PAX") with true. cbv iota.
    cbn [rbind ok].
    rewrite (getitem_ok _ _ _ Hn), (getitem_ok _ _ _ Hd). cbn [rbind ok].
    rewrite Hq. reflexivity.
Qed.

Lemma df_with_metrics_plain (raw : DataFrame) (m : string) :
  String.eqb m "PAX_PER_VOL" = false -> String.eqb m "FRP_PER_PAX" = false ->
  df_with_metrics raw (Some m) = ok raw.
Proof. intros H1 H2. unfold df_with_metrics. rewrite H1, H2. reflexivity. Qed.

(** X12. Every metric the selector offers can be computed: for a dataset
    that has no column named like the two ratios, the working frame of a
    selected metric is built without an exception and has the metric as
    a column; the other columns are those of the dataset. A ratio is
    offered only when its two source columns are numeric. *)
Theorem offered_metric_is_computable :
  forall (raw : DataFrame) (m : string),
    In m (metric_options raw) ->
    has_column "PAX_PER_VOL" raw = false ->
    has_column "FRP_PER_PAX" raw = false ->
    exists (df : DataFrame) (c : column),
      df_with_metrics raw (Some m) = ok df
      /\ getcol df m = Some c
      /\ (forall n, String.eqb n m = false -> getcol df n = getcol raw n).
Proof.
  intros raw m Hin Hp Hf. unfold metric_options in Hin.
  apply in_app_or in Hin. destruct Hin as [Hin|Hin].
  - destruct (app_numeric_cols_In raw m Hin) as [col [Hcol _]].
    assert (H1 : String.eqb m "PAX_PER_VOL" = false).
    { destruct (String.eqb m "PAX_PER_VOL") eqn:E; [|reflexivity].
      apply String.eqb_eq in E. subst m.
      rewrite (has_column_true _ _ _ Hcol) in Hp. discriminate. }
    assert (H2 : String.eqb m "FRP_PER_PAX" = false).
    { destruct (String.eqb m "FRP_PER_PAX") eqn:E; [|reflexivity].
      apply String.eqb_eq in E. subst m.
      rewrite (has_column_true _ _ _ Hcol) in Hf. discriminate. }
    exists raw, col. rewrite (df_with_metrics_plain raw m H1 H2). auto.
  - assert (Hcase : (m = "PAX_PER_VOL"
                     /\ mem "CIE_PAX" (app_numeric_cols raw) = true
                     /\ mem "CIE_VOL" (app_numeric_cols raw) = true)
                    \/ (m = "FRP_PER_PAX"
                        /\ mem "CIE_FRP" (app_numeric_cols raw) = true
                        /\ mem "CIE_PAX" (app_numeric_cols raw) = true)).
    { destruct (mem "CIE_PAX" (app_numeric_cols raw)) eqn:E1,
               (mem "CIE_VOL" (app_numeric_cols raw)) eqn:E2,
               (mem "CIE_FRP" (app_numeric_cols raw)) eqn:E3;
        cbn [andb app] in Hin; simpl in Hin;
        repeat (destruct Hin as [Hin|Hin]; [subst m; auto|]); destruct Hin. }
    destruct Hcase as [[-> [Ha Hb]]|[-> [Ha Hb]]].
    + destruct (mem_numeric raw _ Ha) as [num [Hn Nn]].
      destruct (mem_numeric raw _ Hb) as [den [Hd Nd]].
      destruct (ratio_computed raw true num den Hn Hd Nn Nd) as [q [Hq _]].
      exists (setcol raw "PAX_PER_VOL" q), q. split; [exact Hq|].
      split; [apply getcol_setcol_eq|].
      intros n Hne. apply getcol_setcol_ne. exact Hne.
    + destruct (mem_numeric raw _ Ha) as [num [Hn Nn]].
      destruct (mem_numeric raw _ Hb) as [den [Hd Nd]].
      destruct (ratio_computed raw false num den Hn Hd Nn Nd) as [q [Hq _]].
      exists (setcol raw "FRP_PER_PAX" q), q. split; [exact Hq|].
      split; [apply getcol_setcol_eq|].
      intros n Hne. apply getcol_setcol_ne. exact Hne.
Qed.

(** *** A ratio whose denominator holds a zero *)

Lemma ratio_dtype (num den q : column) :
  is_numeric_dtype num = true -> is_numeric_dtype den = true ->
  col_truediv num (replace_zero_na den) = ok q ->
  is_numeric_dtype q
  = negb (existsb (fun v => value_eqb v (VInt 0)) (values den)).
Proof.
  intros Nn Nd. unfold replace_zero_na, col_truediv.
  destruct (existsb (fun v => value_eqb v (VInt 0)) (values den)).
  - rewrite Nn. cbn [is_numeric_dtype andb].
    destruct (zip_mapM _ _ _); cbn [rbind ok]; intros [= <-]. reflexivity.
  - rewrite Nn, Nd. cbn [andb]. intros [= <-]. reflexivity.
Qed.

(** The filters keep the columns and their dtypes. *)
Lemma apply_filters_schema (e d' : DataFrame) (filters : option Filters) :
  apply_filters e filters = ok d' ->
  exists f : column -> column,
    (forall c, is_numeric_dtype (f c) = is_numeric_dtype c)
    /\ forall n, getcol d' n = option_map f (getcol e n).
Proof.
  set (P := fun d : DataFrame =>
              exists f : column -> column,
                (forall c, is_numeric_dtype (f c) = is_numeric_dtype c)
                /\ forall n, getcol d n = option_map f (getcol e n)).
  assert (P0 : P e).
  { exists (fun c => c). split; [reflexivity|]. intros n.
    destruct (getcol e n); reflexivity. }
  assert (Psel : forall m d, P d -> P (select_rows m d)).
  { intros m d [f [Hf Hg]]. exists (fun c => select_col m (f c)). split.
    - intros c. rewrite select_col_numeric. apply Hf.
    - intros n. rewrite getcol_select_rows, Hg. destruct (getcol e n); reflexivity. }
  change (apply_filters e filters = ok d' -> P d').
  unfold apply_filters. destruct filters as [F|]; [|intros [= <-]; exact P0].
  destruct (dict_truthy F); [|intros [= <-]; exact P0].
  match goal with
  | |- rbind ?r _ = _ -> _ => destruct r as [x|d1] eqn:E1; [discriminate|]
  end.
  assert (P1 : P d1).
  { revert E1.
    destruct (f_year_min F) as [[ymin|]|], (f_year_max F) as [[ymax|]|];
      try (intros [= <-]; exact P0).
    destruct (getitem e "year") as [x|yc]; [discriminate|]. cbn [rbind].
    destruct (between_mask yc ymin ymax) as [x|m]; [discriminate|]. cbn [rbind].
    intros [= <-]. apply Psel, P0. }
  clear E1.
  cbn [rbind]. intros [= <-].
  assert (P2 : P (if list_truthy (f_countries F)
                  then match getcol d1 "CIE_PAYS", f_countries F with
                       | Some c, Some l => select_rows (col_isin c l) d1
                       | _, _ => d1
                       end
                  else d1)).
  { destruct (list_truthy (f_countries F)); [|exact P1].
    destruct (getcol d1 "CIE_PAYS"); [|exact P1].
    destruct (f_countries F); [apply Psel|]; exact P1. }
  destruct (str_truthy (f_nationality F)); [|exact P2].
  match goal with
  | |- P match getcol ?d "CIE_NAT" with _ => _ end =>
      destruct (getcol d "CIE_NAT"); [|exact P2]
  end.
  destruct (f_nationality F); [apply Psel|]; exact P2.
Qed.

Lemma tables_fall_back (e : DataFrame) (name : string) (q pax : column)
  (filters : option Filters) :
  getcol e name = Some q -> is_numeric_dtype q = false ->
  getcol e "CIE_PAX" = Some pax -> is_numeric_dtype pax = true ->
  (let? d' := apply_filters e filters in build_tables d' (Some name))
  = (let? d' := apply_filters e filters in build_tables d' (Some "CIE_PAX")).
Proof.
  intros Hq Nq Hp Np.
  destruct (apply_filters e filters) as [x|d'] eqn:Hf; [reflexivity|].
  cbn [rbind]. destruct (apply_filters_schema e d' filters Hf) as [f [Hnum Hget]].
  unfold build_tables.
  assert (H1 : metric_column d' (Some name) = Some "CIE_PAX").
  { unfold metric_column. rewrite (Hget name), Hq. cbn [option_map].
    rewrite Hnum, Nq, andb_false_r.
    rewrite (has_column_true d' "CIE_PAX" (f pax)); [reflexivity|].
    rewrite Hget, Hp. reflexivity. }
  assert (H2 : metric_column d' (Some "CIE_PAX") = Some "CIE_PAX").
  { apply (metric_column_valid d' "CIE_PAX" (f pax)).
    - rewrite Hget, Hp. reflexivity.
    - rewrite Hnum. exact Np.
    - reflexivity. }
  rewrite H1, H2. reflexivity.
Qed.

(** X13. Each of the two ratios is a numeric column exactly when its
    denominator column holds no zero. When it holds one, the ratio is of
    dtype object, so that [make_tables] and [filter_and_make] do not
    aggregate it: asked for the ratio, they return the very tables they
    return for [CIE_PAX]. *)
Theorem ratio_with_zero_denominator_shows_passengers :
  forall (raw : DataFrame) (per_flight : bool) (num den : column),
    let '(metric, num_name, den_name) := ratio_metric per_flight in
    getcol raw num_name = Some num ->
    getcol raw den_name = Some den ->
    is_numeric_dtype num = true ->
    is_numeric_dtype den = true ->
    exists (df : DataFrame) (q : column),
      df_with_metrics raw (Some metric) = ok df
      /\ getcol df metric = Some q
      /\ is_numeric_dtype q
         = negb (existsb (fun v => value_eqb v (VInt 0)) (values den))
      /\ (existsb (fun v => value_eqb v (VInt 0)) (values den) = true ->
          forall (h : heap) (r : ref) (filters : option Filters)
                 (year_min year_max : option Z) (countries : option (list string))
                 (nationality : option string),
            h !! r = Some df ->
            snd (make_tables r filters (Some metric) h)
            = snd (make_tables r filters (Some "CIE_PAX") h)
            /\ snd (filter_and_make r year_min year_max countries (Some metric)
                      nationality h)
               = snd (filter_and_make r year_min year_max countries
                        (Some "CIE_PAX") nationality h)).
Proof.
  intros raw per_flight num den.
  pose proof (ratio_computed raw per_flight num den) as Hrc.
  assert (Hpax : let '(metric, num_name, den_name) := ratio_metric per_flight in
                 getcol raw num_name = Some num -> getcol raw den_name = Some den ->
                 is_numeric_dtype num = true -> is_numeric_dtype den = true ->
                 String.eqb "CIE_PAX" metric = false
                 /\ (String.eqb metric "ANMOIS" = false
                     /\ String.eqb metric "year" = false
                     /\ String.eqb metric "month" = false)
                 /\ exists pax, getcol raw "CIE_PAX" = Some pax
                                /\ is_numeric_dtype pax = true).
  { destruct per_flight; cbn [ratio_metric]; intros Hn Hd Nn Nd;
      (split; [reflexivity|]); (split; [repeat split; reflexivity|]); eauto. }
  destruct (ratio_metric per_flight) as [[metric num_name] den_name].
  intros Hn Hd Nn Nd.
  destruct (Hrc Hn Hd Nn Nd) as [q [Hrun Hq]].
  destruct (Hpax Hn Hd Nn Nd) as [Hne [[Ha [Hy Hm]] [pax [Hp Np]]]].
  exists (setcol raw metric q), q.
  split; [exact Hrun|]. split; [apply getcol_setcol_eq|].
  split; [exact (ratio_dtype num den q Nn Nd Hq)|].
  intros Hz h r filters year_min year_max countries nationality Hr.
  set (df := setcol raw metric q) in *.
  assert (Nq : is_numeric_dtype q = false).
  { rewrite (ratio_dtype num den q Nn Nd Hq), Hz. reflexivity. }
  assert (Hq' : getcol (ensure_frame df) metric = Some q).
  { rewrite getcol_ensure_frame by assumption. apply getcol_setcol_eq. }
  assert (Hp' : getcol (ensure_frame df) "CIE_PAX" = Some pax).
  { rewrite getcol_ensure_frame by reflexivity. unfold df.
    rewrite getcol_setcol_ne by exact Hne. exact Hp. }
  split.
  - rewrite !(make_tables_run h r df filters _ Hr). cbn [snd].
    apply (tables_fall_back _ metric q pax filters Hq' Nq Hp' Np).
  - rewrite !(filter_and_make_run h r df year_min year_max countries _
                nationality Hr).
    cbv zeta. rewrite ensure_frame_idem.
    rewrite (tables_fall_back _ metric q pax _ Hq' Nq Hp' Np). reflexivity.
Qed.

(** ** The years the application offers *)

Lemma unique_Z_In (l : list Z) (y : Z) : In y (unique_Z l) <-> In y l.
Proof.
  induction l as [|x l IH]; simpl; [reflexivity|].
  rewrite filter_In, IH. split.
  - intros [H|[H _]]; auto.
  - intros [H|H]; [auto|]. destruct (Z.eq_dec x y) as [E|E]; [auto|].
    right. split; [exact H|]. apply negb_true_iff. apply Z.eqb_neq. congruence.
Qed.

Lemma ordered_by_filter {A} (R : A -> A -> bool) (P : A -> bool) (l : list A) :
  ordered_by R l -> ordered_by R (List.filter P l).
Proof.
  induction l as [|x l IH]; simpl; [auto|]. intros [H1 H2].
  destruct (P x); simpl; [split|]; auto.
  apply List.Forall_forall. intros y Hy. apply filter_In in Hy.
  rewrite List.Forall_forall in H1. apply H1, Hy.
Qed.

Lemma unique_Z_distinct (l : list Z) :
  ordered_by (fun a b => negb (a =? b)) (unique_Z l).
Proof.
  induction l as [|x l IH]; simpl; [exact I|]. split.
  - apply List.Forall_forall. intros y Hy. apply filter_In in Hy.
    destruct Hy as [_ Hy]. rewrite Z.eqb_sym. exact Hy.
  - apply ordered_by_filter. exact IH.
Qed.

Lemma sorted_Z_In (l : list Z) (y : Z) : In y (sorted_Z l) <-> In y l.
Proof. apply sort_by_In. Qed.

(** Sorting distinct integers puts them in strictly ascending order. *)
Lemma sorted_unique_ascending (l : list Z) :
  ordered_by Z.ltb (sorted_Z (unique_Z l)).
Proof.
  assert (H1 : ordered_by Z.leb (sorted_Z (unique_Z l))).
  { apply (sort_by_ordered Z.leb (fun _ => True)).
    - intros a b _ _ H. apply Z.leb_gt in H. apply Z.leb_le. lia.
    - intros a b c _ _ _ Hab Hbc. apply Z.leb_le in Hab, Hbc. apply Z.leb_le. lia.
    - apply List.Forall_forall. auto. }
  assert (H2 : ordered_by (fun a b => negb (a =? b)) (sorted_Z (unique_Z l))).
  { apply (ordered_by_perm _ (unique_Z l)).
    - intros a b. rewrite (Z.eqb_sym b a). auto.
    - symmetry. apply sort_by_perm.
    - apply unique_Z_distinct. }
  pose proof (ordered_by_and _ _ _ H1 H2) as H.
  apply (ordered_by_weaken _ Z.ltb (fun _ => True) _) with (3 := H).
  - intros a b _ _. rewrite andb_true_iff, negb_true_iff.
    intros [Hle Hne]. apply Z.leb_le in Hle. apply Z.eqb_neq in Hne.
    apply Z.ltb_lt. lia.
  - apply List.Forall_forall. auto.
Qed.

Lemma year_options_In (raw : DataFrame) (c : column) (ps : list Z) :
  getcol raw "ANMOIS" = Some c ->
  astype_int (dropna_col c) = ok (IntCol ps) ->
  exists opts,
    year_options raw = ok opts
    /\ opts = sorted_Z (unique_Z (map (fun y => y / 100) (sorted_Z (unique_Z ps))))
    /\ forall y, In y opts <-> exists p, In p ps /\ y = p / 100.
Proof.
  intros Hc Ha. unfold year_options. rewrite Hc, Ha. cbn [rbind ok ints].
  eexists. split; [reflexivity|]. split; [reflexivity|].
  intros y. rewrite sorted_Z_In, unique_Z_In, in_map_iff. split.
  - intros [p [<- Hp]]. apply (proj1 (sorted_Z_In _ _)) in Hp.
    apply (proj1 (unique_Z_In _ _)) in Hp. eauto.
  - intros [p [Hp ->]]. exists p. split; [reflexivity|].
    apply (proj2 (sorted_Z_In _ _)). apply (proj2 (unique_Z_In _ _)). exact Hp.
Qed.

(** X14. The years offered by the range slider are the years of the
    periods that are not missing, each once, in strictly ascending
    order. *)
Theorem year_options_ascending :
  forall (raw : DataFrame) (c : column) (ps : list Z),
    getcol raw "ANMOIS" = Some c ->
    astype_int (dropna_col c) = ok (IntCol ps) ->
    exists opts,
      year_options raw = ok opts
      /\ ordered_by Z.ltb opts
      /\ (forall y, In y opts <-> exists p, In p ps /\ y = p / 100).
Proof.
  intros raw c ps Hc Ha.
  destruct (year_options_In raw c ps Hc Ha) as [opts [Hrun [Hopts Hin]]].
  exists opts. split; [exact Hrun|]. split; [|exact Hin].
  rewrite Hopts. apply sorted_unique_ascending.
Qed.

Lemma fold_min_le (l : list Z) (x y : Z) :
  y = x \/ In y l -> fold_left Z.min l x <= y.
Proof.
  revert x y. induction l as [|a l IH]; intros x y H; simpl.
  - destruct H as [->|[]]. lia.
  - assert (Hm : fold_left Z.min l (Z.min x a) <= Z.min x a)
      by (apply IH; left; reflexivity).
    destruct H as [->|[->|H]]; [lia | lia |].
    apply IH. right. exact H.
Qed.

Lemma fold_max_ge (l : list Z) (x y : Z) :
  y = x \/ In y l -> y <= fold_left Z.max l x.
Proof.
  revert x y. induction l as [|a l IH]; intros x y H; simpl.
  - destruct H as [->|[]]. lia.
  - assert (Hm : Z.max x a <= fold_left Z.max l (Z.max x a))
      by (apply IH; left; reflexivity).
    destruct H as [->|[->|H]]; [lia | lia |].
    apply IH. right. exact H.
Qed.

Lemma min_max_bounds (l : list Z) (y : Z) :
  In y l -> min_list l <= y <= max_list l.
Proof.
  destruct l as [|x l]; [intros []|]. intros H. unfold min_list, max_list.
  split; [apply fold_min_le | apply fold_max_ge];
    (destruct H as [->|H]; [left; reflexivity | right; exact H]).
Qed.

(** X15. With the range the slider starts with (the first and the last
    of the years it offers), no country and no nationality selected,
    [filter_and_make] keeps every row of a dataset with int64 periods:
    the frame it returns is the dataset with its [year] and [month]
    columns. *)
Theorem default_year_range_keeps_every_row :
  forall (h : heap) (r : ref) (d : DataFrame) (periods opts : list Z)
         (year_min year_max : option Z) (countries : option (list string))
         (metric nationality : option string),
    h !! r = Some d ->
    getcol d "ANMOIS" = Some (IntCol periods) ->
    rectangular (length periods) d ->
    year_options d = ok opts ->
    default_year_range opts = (year_min, year_max) ->
    list_truthy countries = false ->
    str_truthy nationality = false ->
    snd (filter_and_make r year_min year_max countries metric nationality h)
    = (let? t := build_tables (ensure_frame d) metric in
       ok (ensure_frame d, t)).
Proof.
  intros h r d periods opts year_min year_max countries metric nationality
    Hr Ha Hrect Hopts Hdef Hc Hn.
  rewrite (filter_and_make_by_steps h r d year_min year_max countries metric
             nationality Hr (or_intror Hc)).
  destruct (ensure_frame_rectangular d periods Ha Hrect) as [Hre Hy].
  assert (Hsteps : filter_steps (ensure_frame d) year_min year_max countries
                     nationality = ok (ensure_frame d)).
  { unfold filter_steps.
    assert (H1 : year_step (ensure_frame d) year_min year_max = ok (ensure_frame d)).
    { destruct (year_options_In d (IntCol periods) periods Ha eq_refl)
        as [opts' [Hrun [_ Hin]]].
      rewrite Hrun in Hopts. injection Hopts as ->.
      unfold default_year_range in Hdef.
      destruct opts as [|o os] eqn:Eo; injection Hdef as <- <-; [reflexivity|].
      unfold year_step.
      rewrite (getitem_ok _ _ _ Hy). cbn [rbind ok].
      rewrite between_mask_years. cbn [rbind ok]. rewrite map_map. cbv beta.
      rewrite (map_ext_in _ (fun _ : Z => true) periods).
      2:{ intros p Hp.
          destruct (min_max_bounds (o :: os) (p / 100)) as [Hlo Hhi].
          - apply Hin. eauto.
          - unfold min_list, max_list in Hlo, Hhi.
            apply andb_true_iff. split; apply Z.leb_le; assumption. }
      rewrite select_rows_all by exact Hre. reflexivity. }
    rewrite H1. cbn [rbind ok].
    assert (H2 : country_step (ensure_frame d) countries = ok (ensure_frame d)).
    { unfold country_step. destruct countries as [[|c cs]|]; try reflexivity.
      discriminate Hc. }
    rewrite H2. cbn [rbind ok]. f_equal. unfold nationality_step.
    destruct nationality as [n|]; [|reflexivity].
    unfold str_truthy in Hn. apply negb_false_iff in Hn. rewrite Hn.
    destruct (getcol (ensure_frame d) "CIE_NAT"); reflexivity. }
  rewrite Hsteps. reflexivity.
Qed.

(** ** The headline figures of the overview *)

Lemma reduce_sum_number (c : column) (mask : list bool) (v : value) :
  is_numeric_dtype c = true -> reduce AggSum c mask = ok v -> is_number v = true.
Proof. destruct c; simpl; try discriminate; intros _ [= <-]; reflexivity. Qed.

Lemma py_float_of_number (v : value) :
  is_number v = true -> py_float_of v = ok (to_float v).
Proof. destruct v; simpl; try discriminate; reflexivity. Qed.

Lemma Forall2_last {A B} (R : A -> B -> Prop) (l1 : list A) (l2 : list B) (a : A) :
  Forall2 R l1 l2 -> last l1 = Some a -> exists b, last l2 = Some b /\ R a b.
Proof.
  intros H. induction H as [|x y l1 l2 Hxy H IH]; [discriminate|].
  destruct H as [|x' y' l1 l2 Hxy' H].
  - intros [= <-]. exists y. auto.
  - intros Hl. change (last (x' :: l1) = Some a) in Hl.
    destruct (IH Hl) as [b [Hb Hr]]. exists b. auto.
Qed.

Lemma ordered_ltb_bounds (years : list Z) (y1 yn : Z) :
  ordered_by Z.ltb years -> head years = Some y1 -> last years = Some yn ->
  forall y, In y years -> y1 <= y <= yn.
Proof.
  intros Hord Hh Hl y Hy. split.
  - destruct years as [|x years]; [discriminate|]. injection Hh as ->.
    destruct Hy as [->|Hy]; [lia|]. destruct Hord as [H _].
    rewrite List.Forall_forall in H. specialize (H y Hy).
    apply Z.ltb_lt in H. lia.
  - destruct (ordered_by_last _ _ _ Hord Hl y Hy) as [->|H]; [lia|].
    apply Z.ltb_lt in H. lia.
Qed.

Lemma ordered_ltb_single (years : list Z) :
  ordered_by Z.ltb years ->
  (forall y y', In y years -> In y' years -> y = y') ->
  (length years <= 1)%nat.
Proof.
  destruct years as [|a [|b years]]; simpl; try lia.
  intros [H _] Heq. exfalso. inversion H as [|? ? Hab _]; subst.
  apply Z.ltb_lt in Hab.
  assert (a = b) by (apply Heq; [left | right; left]; reflexivity). lia.
Qed.

Lemma ordered_ltb_two (years : list Z) (y y' : Z) :
  In y years -> In y' years -> y <> y' -> (2 <= length years)%nat.
Proof.
  destruct years as [|a [|b years]].
  - intros [].
  - intros [<-|[]] [<-|[]]. congruence.
  - simpl. lia.
Qed.

(** X16. The change shown in the overview compares the total of the
    earliest year of the filtered rows with the total of their latest
    year: "inf" when the earliest total is 0, the percentage
    (last / first - 1) * 100 otherwise, next to the rounded difference;
    the latest figure is the total of the latest year. With fewer than
    two different years the change is "N/A", without delta. *)
Theorem change_kpi_compares_first_and_last_year :
  forall (h : heap) (r : ref) (d d' : DataFrame) (filters : option Filters)
         (m : string) (ys : list Z) (c : column),
    h !! r = Some d ->
    apply_filters (ensure_frame d) filters = ok d' ->
    getcol d' "year" = Some (IntCol ys) ->
    getcol d' m = Some c -> is_numeric_dtype c = true -> plain_metric m = true ->
    exists t : Tables,
      snd (make_tables r filters (Some m) h) = ok t
      /\ ((forall y y', In y ys -> In y' ys -> y = y') ->
          change_kpi (timeseries t) = (ChangeNA, None))
      /\ (forall y y', In y ys -> In y' ys -> y <> y' ->
          exists (y_first y_last : Z) (total_first total_last : value),
            In y_first ys /\ In y_last ys
            /\ (forall y0, In y0 ys -> y_first <= y0 <= y_last)
            /\ reduce AggSum c (map (Z.eqb y_first) ys) = ok total_first
            /\ reduce AggSum c (map (Z.eqb y_last) ys) = ok total_last
            /\ change_kpi (timeseries t)
               = (let first_val := to_float total_first in
                  let last_val := to_float total_last in
                  let abs_delta := Float64.sub last_val first_val in
                  (if Float64.eqb first_val (Fin 0) then ChangeInf
                   else ChangePct (Float64.mul
                                     (Float64.sub (Float64.div last_val first_val)
                                        (Fin 1))
                                     (Fin 100)),
                   Some (match py_round abs_delta with
                         | inr z => DeltaInt z
                         | inl _ => DeltaFloat abs_delta
                         end)))
            /\ latest_kpi (timeseries t)
               = match py_int_of total_last with
                 | inr z => Some z
                 | inl _ => None
                 end).
Proof.
  intros h r d d' filters m ys c Hr Hf Hy Hc Hn Hpl.
  destruct (make_tables_parts h r d d' filters m c Hr Hf Hc Hn Hpl)
    as [t [Ht [Hts _]]].
  destruct (plain_metric_spec m Hpl) as [H0 [H1 _]].
  exists t. split; [exact Ht|].
  destruct ys as [|y0 ys0] eqn:Eys.
  { assert (Hempty : timeseries t = empty_frame).
    { unfold make_timeseries in Hts. rewrite Hy in Hts. cbn in Hts.
      injection Hts as <-. reflexivity. }
    rewrite Hempty. split; [reflexivity|]. intros y y' []. }
  rewrite <- Eys in *.
  assert (Hne : ys <> []) by (rewrite Eys; discriminate).
  destruct (make_timeseries_years d' m ys c Hy Hne Hc Hn H0 H1)
    as [years [totals [Hts' [Hord [Hin Hall]]]]].
  rewrite Hts' in Hts. injection Hts as Hts. rewrite <- Hts.
  pose proof (Forall2_length _ _ _ Hall) as Hlen.
  split.
  - intros Hsame.
    assert (Hl : (length years <= 1)%nat).
    { apply ordered_ltb_single; [exact Hord|].
      intros y y' H1' H2'. apply Hsame; apply Hin; assumption. }
    unfold change_kpi, frame_empty, nrows. cbn [col_length].
    destruct years as [|a [|b years]]; simpl in Hl; try lia; reflexivity.
  - intros y y' Hy1 Hy2 Hneq.
    assert (Hl : (2 <= length years)%nat).
    { apply (ordered_ltb_two years y y'); [apply Hin | apply Hin |]; assumption. }
    destruct years as [|y1 years1] eqn:Ey; [simpl in Hl; lia|].
    destruct (last (y1 :: years1)) as [yn|] eqn:Elast.
    2:{ apply last_None in Elast. discriminate. }
    rewrite <- Ey in *.
    destruct (values totals) as [|t1 totals1] eqn:Et.
    { rewrite Ey in Hlen. discriminate Hlen. }
    assert (Hhead : head years = Some y1) by (rewrite Ey; reflexivity).
    assert (R1 : reduce AggSum c (map (Z.eqb y1) ys) = ok t1).
    { rewrite Ey in Hall. inversion Hall; subst. assumption. }
    destruct (Forall2_last _ _ _ _ Hall Elast) as [tn [Htn Rn]].
    rewrite <- Et in Htn.
    assert (Hh1 : head (values totals) = Some t1) by (rewrite Et; reflexivity).
    exists y1, yn, t1, tn.
    split; [apply Hin; rewrite Ey; left; reflexivity|].
    split; [apply Hin; apply last_In; exact Elast|].
    split.
    { intros y2 Hy2'. apply (ordered_ltb_bounds years y1 yn Hord Hhead Elast).
      apply Hin. exact Hy2'. }
    split; [exact R1|]. split; [exact Rn|].
    pose proof (reduce_sum_number _ _ _ Hn R1) as N1.
    pose proof (reduce_sum_number _ _ _ Hn Rn) as Nn.
    assert (Hnrows : nrows [("year", IntCol years); (m, totals)] = length years)
      by reflexivity.
    assert (Hfl : first_last [("year", IntCol years); (m, totals)]
                  = Some (to_float t1, to_float tn)).
    { unfold first_last.
      change ([("year", IntCol years); (m, totals)] !! 1%nat) with (Some (m, totals)).
      cbv beta iota. rewrite Hh1, Htn.
      rewrite (py_float_of_number t1 N1), (py_float_of_number tn Nn). reflexivity. }
    split.
    + unfold change_kpi, frame_empty. rewrite Hnrows, Hfl.
      assert (E1 : negb (Nat.eqb (length years) 0) && (2 <=? length years)%nat = true).
      { apply andb_true_iff. split.
        - apply negb_true_iff. apply Nat.eqb_neq. lia.
        - apply Nat.leb_le. exact Hl. }
      rewrite E1. cbv zeta.
      destruct (Float64.eqb (to_float t1) (Fin 0)); reflexivity.
    + unfold latest_kpi, frame_empty. rewrite Hnrows.
      assert (E1 : Nat.eqb (length years) 0 = false) by (apply Nat.eqb_neq; lia).
      rewrite E1.
      change ([("year", IntCol years); (m, totals)] !! 1%nat) with (Some (m, totals)).
      cbv beta iota. rewrite Htn. reflexivity.
Qed.

Lemma desc_before_refl (a : value) : is_number a = true -> desc_before a a = true.
Proof.
  intros Ha. rewrite (desc_before_number a a Ha Ha).
  destruct (is_nan (to_float a)) eqn:E; [reflexivity|]. simpl.
  apply float_leb_refl. exact E.
Qed.

Lemma In_zip_l {A B} (a : A) (l1 : list A) (l2 : list B) :
  In a l1 -> length l1 = length l2 -> exists b, In (a, b) (zip l1 l2).
Proof.
  revert l2. induction l1 as [|x l1 IH]; intros [|y l2] Hin Hl; simpl in *;
    try contradiction; try discriminate.
  destruct Hin as [->|Hin].
  - exists y. left. reflexivity.
  - destruct (IH l2 Hin) as [b Hb]; [lia|]. exists b. right. exact Hb.
Qed.

(** X17. The top region shown in the overview is a country of the
    filtered rows whose total no other country exceeds; it is "N/A" only
    when no row has a country. *)
Theorem top_region_has_the_largest_total :
  forall (h : heap) (r : ref) (d d' : DataFrame) (filters : option Filters)
         (m : string) (pays c : column),
    h !! r = Some d ->
    apply_filters (ensure_frame d) filters = ok d' ->
    getcol d' "CIE_PAYS" = Some pays ->
    getcol d' m = Some c -> is_numeric_dtype c = true -> plain_metric m = true ->
    exists t : Tables,
      snd (make_tables r filters (Some m) h) = ok t
      /\ match top_region_kpi (by_region t) with
         | Some g =>
             In g (values pays)
             /\ exists total,
                  reduce AggSum c (map (value_eqb g) (values pays)) = ok total
                  /\ forall g' total',
                       In g' (values pays) -> notna g' = true ->
                       reduce AggSum c (map (value_eqb g') (values pays)) = ok total' ->
                       desc_before total total' = true
         | None => forall v, In v (values pays) -> notna v = false
         end.
Proof.
  intros h r d d' filters m pays c Hr Hf Hp Hc Hn Hpl.
  destruct (make_tables_parts h r d d' filters m c Hr Hf Hc Hn Hpl)
    as [t [Ht [_ [Hbr _]]]].
  destruct (make_by_region_ranking d' m pays c Hp Hc Hn Hpl)
    as [br [regions [totals [Hbr' [_ [_ [Hord [Hlen [Hperm [rest Hshape]]]]]]]]]].
  rewrite Hbr' in Hbr. injection Hbr as Hbr.
  exists t. split; [exact Ht|]. rewrite <- Hbr, Hshape.
  set (keys := row_keys [values pays]) in *.
  assert (Hregs : Permutation (values regions) (sorted_labels (values pays))).
  { apply (Permutation_map fst) in Hperm.
    change (map fst (zip (values regions) (values totals)))
      with ((zip (values regions) (values totals)).*1) in Hperm.
    rewrite fst_zip in Hperm by lia.
    rewrite map_map in Hperm. simpl in Hperm. rewrite map_id in Hperm.
    exact Hperm. }
  assert (Hpair : forall g total, In (g, total) (zip (values regions) (values totals)) ->
                  reduce AggSum c (map (value_eqb g) (values pays)) = ok total).
  { intros g total Hin. apply (Permutation_in _ Hperm) in Hin.
    apply in_map_iff in Hin. destruct Hin as [g0 [Heq _]].
    injection Heq as <- <-.
    rewrite <- group_mask_single. apply group_total_reduce. exact Hn. }
  unfold top_region_kpi, frame_empty. cbn [nrows]. rewrite <- values_length.
  destruct (values regions) as [|g gs] eqn:Eg.
  - cbn [length Nat.eqb]. intros v Hv.
    destruct (notna v) eqn:Ena; [|reflexivity]. exfalso.
    destruct (sorted_labels_complete (values pays) v Hv Ena) as [g [Hg _]].
    apply (Permutation_in g (Permutation_sym Hregs)) in Hg. destruct Hg.
  - cbn [length Nat.eqb head].
    destruct (values totals) as [|total ts] eqn:Et; [discriminate Hlen|].
    split.
    { destruct (group_keys_single (values pays)) as [_ Hlab].
      rewrite List.Forall_forall in Hlab. apply Hlab.
      apply (Permutation_in g Hregs). left. reflexivity. }
    exists total. split; [apply Hpair; left; reflexivity|].
    intros g' total' Hg' Hna' Hred'.
    destruct (sorted_labels_complete (values pays) g' Hg' Hna') as [g2 [Hg2 Heq]].
    apply (Permutation_in g2 (Permutation_sym Hregs)) in Hg2.
    destruct (In_zip_l g2 (g :: gs) (total :: ts) Hg2 Hlen) as [t2 Hz].
    pose proof (Hpair g2 t2 Hz) as Hred2.
    assert (Hmask : map (value_eqb g2) (values pays) = map (value_eqb g') (values pays)).
    { apply map_ext. intros v. apply value_eqb_cong. exact Heq. }
    rewrite Hmask, Hred' in Hred2. injection Hred2 as ->.
    pose proof (reduce_sum_number _ _ _ Hn (Hpair g total (or_introl eq_refl))) as Nt.
    destruct Hz as [Hz|Hz].
    + injection Hz as _ <-. apply desc_before_refl. exact Nt.
    + apply in_zip in Hz. destruct Hz as [_ Hz].
      destruct Hord as [Hfirst _]. rewrite List.Forall_forall in Hfirst.
      apply Hfirst. exact Hz.
Qed.

(** *** The yearly totals add up *)

Lemma build_tables_parts (d' : DataFrame) (m : string) (c : column) :
  getcol d' m = Some c -> is_numeric_dtype c = true -> plain_metric m = true ->
  exists t,
    build_tables d' (Some m) = ok t
    /\ make_timeseries d' (Some m) = ok (timeseries t).
Proof.
  intros Hc Hn Hpl.
  destruct (plain_metric_spec m Hpl) as [H0 [H1 [H2 [_ [_ [H5 H6]]]]]].
  unfold build_tables. rewrite (metric_column_valid d' m c Hc Hn H0).
  destruct (make_timeseries_returns d' m c Hc Hn H1) as [ts Hts].
  destruct (make_by_region_returns d' m c Hc Hn H2) as [br Hbr].
  destruct (make_geo_returns d' m c Hc Hn H5 H6) as [g Hg].
  rewrite Hts, Hbr, Hg. cbn [rbind ok].
  eexists. split; reflexivity.
Qed.

Lemma fold_add_shift (l : list Z) (a : Z) :
  fold_left Z.add l a = a + fold_left Z.add l 0.
Proof.
  revert a. induction l as [|x l IH]; intros a; cbn [fold_left]; [lia|].
  rewrite (IH (a + x)), (IH (0 + x)). lia.
Qed.

Lemma sum_Z_cons (x : Z) (l : list Z) : sum_Z (x :: l) = x + sum_Z l.
Proof. unfold sum_Z. cbn [fold_left]. rewrite Z.add_0_l. apply fold_add_shift. Qed.

Lemma wrap64_add_l (a b : Z) : wrap64 (wrap64 a + b) = wrap64 (a + b).
Proof.
  unfold wrap64. f_equal.
  replace ((a + 2 ^ 63) mod 2 ^ 64 - 2 ^ 63 + b + 2 ^ 63)
    with ((a + 2 ^ 63) mod 2 ^ 64 + b) by lia.
  rewrite Zplus_mod_idemp_l. f_equal. lia.
Qed.

(** The sum of wrapped sums is the wrapped sum. *)
Lemma wrap64_sum_map (f : Z -> Z) (l : list Z) :
  wrap64 (sum_Z (map (fun y => wrap64 (f y)) l)) = wrap64 (sum_Z (map f l)).
Proof.
  induction l as [|x l IH]; [reflexivity|].
  cbn [map]. rewrite !sum_Z_cons.
  rewrite wrap64_add_l. rewrite (Z.add_comm (f x)), <- wrap64_add_l, IH.
  rewrite wrap64_add_l. f_equal. lia.
Qed.

(** Over years that are all different, a year is counted once. *)
Lemma sum_once (years : list Z) (y0 v0 : Z) :
  ordered_by Z.ltb years -> In y0 years ->
  sum_Z (map (fun y => if y =? y0 then v0 else 0) years) = v0.
Proof.
  induction years as [|x years IH]; [intros _ []|].
  intros [Hx Hord] Hin. cbn [map]. rewrite sum_Z_cons.
  rewrite List.Forall_forall in Hx.
  destruct (x =? y0) eqn:E.
  - apply Z.eqb_eq in E. subst x.
    assert (Hz : sum_Z (map (fun y => if y =? y0 then v0 else 0) years) = 0).
    { clear IH Hin Hord. induction years as [|z years IH]; [reflexivity|].
      cbn [map]. rewrite sum_Z_cons.
      assert (Hlt : (y0 <? z) = true) by (apply Hx; left; reflexivity).
      apply Z.ltb_lt in Hlt.
      assert (Ez : (z =? y0) = false) by (apply Z.eqb_neq; lia).
      rewrite Ez, IH; [reflexivity|]. intros y Hy. apply Hx. right. exact Hy. }
    rewrite Hz. lia.
  - destruct Hin as [->|Hin]; [rewrite Z.eqb_refl in E; discriminate|].
    rewrite (IH Hord Hin). lia.
Qed.

Lemma sum_Z_map_add (f g : Z -> Z) (l : list Z) :
  sum_Z (map (fun y => f y + g y) l) = sum_Z (map f l) + sum_Z (map g l).
Proof.
  induction l as [|x l IH]; [reflexivity|].
  cbn [map]. rewrite !sum_Z_cons, IH. lia.
Qed.

(** The sums of the groups of years add up to the sum of the column. *)
Lemma yearly_sums_add_up (years ys l : list Z) :
  ordered_by Z.ltb years -> (forall y, In y ys -> In y years) ->
  length l = length ys ->
  sum_Z (map (fun y => sum_Z (select (map (Z.eqb y) ys) l)) years) = sum_Z l.
Proof.
  intros Hord. revert l. induction ys as [|y0 ys IH]; intros l Hin Hlen.
  - destruct l; [|discriminate]. simpl.
    clear. induction years as [|x years IH]; [reflexivity|].
    cbn [map]. rewrite sum_Z_cons, IH. reflexivity.
  - destruct l as [|v0 l]; [discriminate|].
    rewrite sum_Z_cons. rewrite <- (IH l).
    + transitivity
        (sum_Z (map (fun y => (if y =? y0 then v0 else 0)
                              + sum_Z (select (map (Z.eqb y) ys) l)) years)).
      * f_equal. apply map_ext. intros y.
        cbn [map select]. destruct (y =? y0); [rewrite sum_Z_cons|]; lia.
      * rewrite sum_Z_map_add, (sum_once years y0 v0 Hord); [reflexivity|].
        apply Hin. left. reflexivity.
    + intros y Hy. apply Hin. right. exact Hy.
    + simpl in Hlen. lia.
Qed.

Lemma Forall2_fun_map {A B} (f : A -> B) (l1 : list A) (l2 : list B) :
  Forall2 (fun a b => f a = b) l1 l2 -> l2 = map f l1.
Proof.
  intros H. induction H as [|a b l1 l2 Hab H IH]; [reflexivity|].
  cbn [map]. rewrite Hab, IH. reflexivity.
Qed.

(** X18. On an integer metric the yearly totals of the time series add up
    to the total of the filtered frame that the overview shows: no row is
    lost or counted twice by the grouping. Sums are those of int64. *)
Theorem yearly_totals_add_up_to_the_total :
  forall (h : heap) (r : ref) (d df : DataFrame) (year_min year_max : option Z)
         (countries : option (list string)) (nationality : option string)
         (m : string) (ys l : list Z),
    h !! r = Some d ->
    has_column "CIE_PAYS" d = true \/ list_truthy countries = false ->
    filter_frame (ensure_frame d)
      (build_filters year_min year_max countries nationality) = ok df ->
    getcol df "year" = Some (IntCol ys) -> ys <> [] ->
    getcol df m = Some (IntCol l) -> length l = length ys ->
    plain_metric m = true ->
    exists (t : Tables) (years tots : list Z) (totals : column),
      snd (filter_and_make r year_min year_max countries (Some m) nationality h)
      = ok (df, t)
      /\ timeseries t = [("year", IntCol years); (m, totals)]
      /\ values totals = map VInt tots
      /\ length tots = length years
      /\ total_kpi (Some df) m = Some (wrap64 (sum_Z l))
      /\ wrap64 (sum_Z tots) = wrap64 (sum_Z l).
Proof.
  intros h r d df year_min year_max countries nationality m ys l
    Hr Hp Hf Hy Hne Hc Hlen Hpl.
  destruct (plain_metric_spec m Hpl) as [H0 [H1 _]].
  destruct (build_tables_parts df m (IntCol l) Hc eq_refl Hpl) as [t [Hbt Hts]].
  destruct (make_timeseries_years df m ys (IntCol l) Hy Hne Hc eq_refl H0 H1)
    as [years [totals [Hmk [Hord [Hin Hall]]]]].
  exists t, years,
    (map (fun y => wrap64 (sum_Z (select (map (Z.eqb y) ys) l))) years), totals.
  split; [|split; [|split; [|split; [|split]]]].
  - rewrite (filter_and_make_by_steps h r d year_min year_max countries (Some m)
               nationality Hr Hp).
    rewrite <- filter_frame_steps, Hf. cbn [rbind ok]. rewrite Hbt. reflexivity.
  - rewrite Hmk in Hts. injection Hts as Hts. symmetry. exact Hts.
  - rewrite map_map.
    apply (Forall2_fun_map
             (fun y => VInt (wrap64 (sum_Z (select (map (Z.eqb y) ys) l))))).
    eapply Forall2_impl; [exact Hall|].
    intros y total Hred. cbn [reduce] in Hred. injection Hred as Hred. exact Hred.
  - rewrite List.length_map. reflexivity.
  - unfold total_kpi, getitem. rewrite Hc. cbn [rbind ok reduce values].
    rewrite (select_all (map VInt l) l) by (rewrite List.length_map; reflexivity).
    reflexivity.
  - rewrite (wrap64_sum_map
               (fun y => sum_Z (select (map (Z.eqb y) ys) l)) years).
    rewrite (yearly_sums_add_up years ys l Hord); [reflexivity| |exact Hlen].
    intros y Hy'. apply Hin. exact Hy'.
Qed.

(** *** The rankings shown *)

Lemma values_head_col (n : Z) (c : column) :
  values (head_col n c) = head_n n (values c).
Proof.
  destruct c; unfold head_col, values, head_n; destruct (0 <=? n);
    rewrite ?List.firstn_map, ?List.length_map; reflexivity.
Qed.

Lemma getcol_head_rows (n : Z) (d : DataFrame) (name : string) :
  getcol (head_rows n d) name = option_map (head_col n) (getcol d name).
Proof.
  induction d as [|[n' c] d IH]; simpl; [reflexivity|].
  destruct (String.eqb name n'); [reflexivity | exact IH].
Qed.

Lemma firstn_zip {A B} (k : nat) (a : list A) (b : list B) :
  firstn k (zip a b) = zip (firstn k a) (firstn k b).
Proof.
  revert a b. induction k as [|k IH]; intros [|x a] [|y b]; simpl;
    try reflexivity.
  rewrite IH. reflexivity.
Qed.

Lemma ordered_by_cross {A} (R : A -> A -> bool) (l1 l2 : list A) :
  ordered_by R (l1 ++ l2) ->
  forall a b, In a l1 -> In b l2 -> R a b = true.
Proof.
  induction l1 as [|x l1 IH]; simpl; [intros _ a b []|].
  intros [Hx Hord] a b [->|Ha] Hb.
  - rewrite List.Forall_forall in Hx. apply Hx. apply in_or_app. right. exact Hb.
  - apply IH; assumption.
Qed.

(** The first [n] rows of a ranking: they are ranked, and no row left
    out comes before one of them. *)
Lemma head_of_ranking (n : Z) (names totals : list value) :
  0 <= n -> length names = length totals -> ordered_by desc_before totals ->
  exists others : list (value * value),
    zip (head_n n names) (head_n n totals) ++ others = zip names totals
    /\ (length (head_n n names) <= Z.to_nat n)%nat
    /\ (others <> [] -> length (head_n n names) = Z.to_nat n)
    /\ ordered_by desc_before (head_n n totals)
    /\ forall s o, In s (zip (head_n n names) (head_n n totals)) -> In o others ->
                   desc_before (snd s) (snd o) = true.
Proof.
  intros Hn Hlen Hord.
  assert (E : (0 <=? n) = true) by (apply Z.leb_le; exact Hn).
  unfold head_n. rewrite E. set (k := Z.to_nat n).
  exists (skipn k (zip names totals)).
  rewrite <- firstn_zip.
  split; [apply firstn_skipn|]. split; [rewrite length_firstn; lia|].
  split; [|split].
  - intros Hne. rewrite length_firstn.
    destruct (Nat.le_gt_cases (length names) k) as [Hle|Hgt]; [|lia].
    exfalso. apply Hne. apply skipn_all2. rewrite length_zip. lia.
  - apply ordered_by_firstn. exact Hord.
  - apply (ordered_by_cross (fun a b : value * value => desc_before (snd a) (snd b))).
    rewrite firstn_skipn.
    apply (proj1 (ordered_by_map snd desc_before (zip names totals))).
    change (map snd (zip names totals)) with ((zip names totals).*2).
    rewrite snd_zip by lia. exact Hord.
Qed.

(** X19. The bars of the chart of the top regions are the ten countries
    of largest total, in descending order of total, or every country
    when there are fewer than ten: no country left out has a total that
    comes before the total of a bar. The notice replaces the chart only
    when no filtered row has a country. *)
Theorem top10_are_the_largest_regions :
  forall (h : heap) (r : ref) (d d' : DataFrame) (filters : option Filters)
         (m : string) (pays c : column),
    h !! r = Some d ->
    apply_filters (ensure_frame d) filters = ok d' ->
    getcol d' "CIE_PAYS" = Some pays ->
    getcol d' m = Some c -> is_numeric_dtype c = true -> plain_metric m = true ->
    exists t : Tables,
      snd (make_tables r filters (Some m) h) = ok t
      /\ match top10 t with
         | None => forall v, In v (values pays) -> notna v = false
         | Some bars =>
             exists (regions totals : column) (others : list (value * value)),
               getcol bars "CIE_PAYS" = Some regions
               /\ getcol bars m = Some totals
               /\ (0 < length (values regions) <= 10)%nat
               /\ ordered_by desc_before (values totals)
               /\ Permutation (zip (values regions) (values totals) ++ others)
                    (map (fun g => (g, group_total c (row_keys [values pays]) [g]))
                       (sorted_labels (values pays)))
               /\ (others <> [] -> length (values regions) = 10%nat)
               /\ forall s o,
                    In s (zip (values regions) (values totals)) -> In o others ->
                    desc_before (snd s) (snd o) = true
         end.
Proof.
  intros h r d d' filters m pays c Hr Hf Hp Hc Hn Hpl.
  destruct (make_tables_parts h r d d' filters m c Hr Hf Hc Hn Hpl)
    as [t [Ht [_ [Hbr _]]]].
  destruct (make_by_region_ranking d' m pays c Hp Hc Hn Hpl)
    as [br [regions [totals [Hbr' [Hgr [Hgt [Hord [Hlen [Hperm [rest Hshape]]]]]]]]]].
  rewrite Hbr' in Hbr. injection Hbr as Hbr.
  exists t. split; [exact Ht|].
  assert (Hrows : nrows br = length (values regions)).
  { rewrite Hshape. cbn [nrows]. symmetry. apply values_length. }
  unfold top10, frame_empty. rewrite <- Hbr, Hrows.
  destruct (values regions) as [|g gs] eqn:Eg.
  - cbn [length Nat.eqb]. intros v Hv.
    destruct (notna v) eqn:Ena; [|reflexivity]. exfalso.
    destruct (sorted_labels_complete (values pays) v Hv Ena) as [g [Hg _]].
    destruct (values totals); [|discriminate Hlen].
    apply (in_map (fun g => (g, group_total c (row_keys [values pays]) [g]))) in Hg.
    apply (Permutation_in _ (Permutation_sym Hperm)) in Hg. destruct Hg.
  - cbn [length Nat.eqb].
    assert (Hpos : (0 < length (g :: gs))%nat) by (simpl; lia).
    rewrite <- Eg in *. clear Eg.
    destruct (head_of_ranking 10 (values regions) (values totals)
                ltac:(lia) Hlen Hord) as [others [Happ [Hle [Hfull [Hord' Hcross]]]]].
    exists (head_col 10 regions), (head_col 10 totals), others.
    rewrite !values_head_col.
    split; [rewrite getcol_head_rows, Hgr; reflexivity|].
    split; [rewrite getcol_head_rows, Hgt; reflexivity|].
    split.
    { split; [|exact Hle].
      unfold head_n. change (0 <=? 10) with true. cbv iota.
      change (Z.to_nat 10) with 10%nat.
      destruct (values regions); [simpl in Hpos; lia|]. simpl. lia. }
    split; [exact Hord'|]. split; [rewrite Happ; exact Hperm|].
    split; [exact Hfull | exact Hcross].
Qed.

(** The totals of a numeric column per value of another column, in
    descending order: one row per distinct value that is not missing. *)
Lemma ranking_of_groups (d : DataFrame) (g m : string) (kc c : column) :
  getcol d g = Some kc -> getcol d m = Some c -> is_numeric_dtype c = true ->
  String.eqb m g = false ->
  exists names totals : column,
    (let? a := groupby_agg AggSum d [g] m in sort_values_desc a m)
    = ok [(g, names); (m, totals)]
    /\ ordered_by desc_before (values totals)
    /\ length (values names) = length (values totals)
    /\ Permutation (zip (values names) (values totals))
         (map (fun e => (e, group_total c (row_keys [values kc]) [e]))
            (sorted_labels (values kc))).
Proof.
  intros Hk Hc Hn Hne.
  set (keys := row_keys [values kc]).
  assert (Hkeys : keys = map (fun v => [v]) (values kc)) by reflexivity.
  destruct (group_keys_single (values kc)) as [Hgk Hlab].
  rewrite <- Hkeys in Hgk.
  set (labels := sorted_labels (values kc)) in *.
  destruct (agg_sum_values keys (group_keys keys) c Hn) as [totals0 [Hagg Hvals]].
  set (names0 := rebuild kc (key_component 0 (group_keys keys))).
  set (idxs := sort_order desc_before (values totals0)).
  exists (take_col idxs names0), (take_col idxs totals0).
  assert (Hreg : values names0 = labels).
  { unfold names0. rewrite Hgk, key_component_single.
    apply rebuild_faithful. exact Hlab. }
  assert (Htot : values totals0 = map (fun e => group_total c keys [e]) labels).
  { rewrite Hvals, Hgk, map_map. reflexivity. }
  assert (Hlen : length (values names0) = length (values totals0)).
  { rewrite Hreg, Htot, length_map. reflexivity. }
  assert (Hidx : forall A (l : list A), length l = length (values totals0) ->
                 Permutation (take_at idxs l) l).
  { intros A l Hl. apply take_at_perm. unfold idxs. rewrite sort_order_perm, Hl.
    reflexivity. }
  split; [|split; [|split]].
  - unfold groupby_agg. cbn [mapM]. rewrite (getitem_ok _ _ _ Hk).
    cbn [rbind ok]. rewrite (getitem_ok _ _ _ Hc). cbn [rbind ok map].
    fold keys. rewrite Hagg. cbn [rbind ok existsb]. rewrite Hne.
    cbn [orb has_dup existsb rbind ok].
    unfold sort_values_desc, getitem, key_columns.
    change (imap _ (zip [g] [kc])) with [(g, names0)].
    cbn [app getcol]. rewrite Hne, String.eqb_refl. reflexivity.
  - rewrite values_take_col. unfold idxs.
    apply (sort_order_ordered desc_before (fun v => is_number v = true)).
    + exact desc_before_total.
    + exact desc_before_trans.
    + rewrite Htot. apply List.Forall_forall. intros v Hv.
      apply in_map_iff in Hv. destruct Hv as [e [<- _]].
      apply group_total_number. exact Hn.
  - rewrite !values_take_col.
    rewrite (Permutation_length (Hidx _ _ Hlen)).
    rewrite (Permutation_length (Hidx _ _ eq_refl)). exact Hlen.
  - rewrite !values_take_col.
    rewrite <- take_at_zip by exact Hlen.
    rewrite take_at_perm.
    + rewrite Hreg, Htot. rewrite zip_map_r. reflexivity.
    + unfold idxs. rewrite sort_order_perm.
      rewrite length_zip, Hlen, Nat.min_id. reflexivity.
Qed.

Lemma select_rows_of_empty (mask : list bool) (d : DataFrame) :
  frame_empty d = true -> frame_empty (select_rows mask d) = true.
Proof.
  unfold frame_empty. destruct d as [|[n c] d]; [reflexivity|].
  cbn [select_rows map nrows fst snd].
  destruct c as [[|x l]|[|x l]|[|x l]]; simpl; try discriminate;
    destruct mask; reflexivity.
Qed.

(** X20. The bar chart of the French companies shows the [top_n]
    companies of largest total among the rows whose country contains
    FRANCE (every company when there are fewer), in descending order of
    total: no company left out has a total that comes before the total
    of a bar. The total of a company is the sum of the metric, read as
    numbers, over these rows. *)
Theorem compare_bars_are_the_largest_french_companies :
  forall (d : DataFrame) (metric : string) (top_n : Z) (pays comp mc : column),
    getcol d "CIE_PAYS" = Some pays ->
    let df_fr := france_rows d pays in
    frame_empty df_fr = false ->
    getcol df_fr (company_column df_fr) = Some comp ->
    getcol df_fr metric = Some mc ->
    String.eqb metric (company_column df_fr) = false ->
    0 <= top_n ->
    exists (names totals : column) (trend : trend_outcome)
           (others : list (value * value)),
      compare_french_companies (Some d) metric top_n
      = ok (CompareShown [(company_column df_fr, names); (metric, totals)] trend)
      /\ (length (values names) <= Z.to_nat top_n)%nat
      /\ ordered_by desc_before (values totals)
      /\ Permutation (zip (values names) (values totals) ++ others)
           (map (fun e => (e, group_total (to_numeric mc)
                                (row_keys [values comp]) [e]))
              (sorted_labels (values comp)))
      /\ (others <> [] -> length (values names) = Z.to_nat top_n)
      /\ forall s o,
           In s (zip (values names) (values totals)) -> In o others ->
           desc_before (snd s) (snd o) = true.
Proof.
  intros d metric top_n pays comp mc Hp df_fr Hne Hcomp Hmc Hcm Hn.
  assert (Hd : frame_empty d = false).
  { destruct (frame_empty d) eqn:E; [|reflexivity].
    unfold df_fr, france_rows in Hne.
    rewrite (select_rows_of_empty _ d E) in Hne. discriminate. }
  set (cc := company_column df_fr) in *.
  set (df2 := setcol df_fr metric (to_numeric mc)).
  assert (Hcomp2 : getcol df2 cc = Some comp).
  { unfold df2. rewrite getcol_setcol_ne; [exact Hcomp|].
    rewrite String.eqb_sym. exact Hcm. }
  assert (Hmc2 : getcol df2 metric = Some (to_numeric mc)).
  { apply getcol_setcol_eq. }
  destruct (ranking_of_groups df2 cc metric comp (to_numeric mc) Hcomp2 Hmc2
              (to_numeric_is_numeric mc) Hcm)
    as [names [totals [Hrun [Hord [Hlen Hperm]]]]].
  destruct (head_of_ranking top_n (values names) (values totals) Hn Hlen Hord)
    as [others [Happ [Hle [Hfull [Hord' Hcross]]]]].
  exists (head_col top_n names), (head_col top_n totals),
    (company_trend df2 cc metric
       (head_rows top_n [(cc, names); (metric, totals)])), others.
  rewrite !values_head_col.
  split; [|split; [exact Hle|split; [exact Hord'|split;
             [rewrite Happ; exact Hperm|split; [exact Hfull|exact Hcross]]]]].
  unfold compare_french_companies. rewrite Hd, Hp. cbv zeta.
  fold df_fr. rewrite Hne. fold cc. rewrite Hmc. fold df2.
  destruct (groupby_agg AggSum df2 [cc] metric) as [x|agg];
    cbn [rbind] in Hrun |- *; [discriminate Hrun|].
  rewrite Hrun. cbn [rbind ok]. reflexivity.
Qed.

(** *** The yearly trend of the companies *)

Lemma select_map_filter {A B} (P : A -> bool) (f : A -> B) (l : list A) :
  select (map P l) (map f l) = map f (List.filter P l).
Proof.
  induction l as [|a l IH]; [reflexivity|].
  cbn [map select List.filter]. destruct (P a); cbn [map]; rewrite IH; reflexivity.
Qed.

(** The totals of a numeric column per pair of values of two other
    columns: one row per pair that occurs in a row and has no missing
    part. *)
Lemma groupby_two_keys (d : DataFrame) (g1 g2 m : string) (k1 k2 c : column) :
  getcol d g1 = Some k1 -> getcol d g2 = Some k2 ->
  getcol d m = Some c -> is_numeric_dtype c = true ->
  String.eqb m g1 = false -> String.eqb m g2 = false ->
  String.eqb g1 g2 = false ->
  exists (gpairs : list (value * value)) (c1 c2 tot : column),
    groupby_agg AggSum d [g1; g2] m = ok [(g1, c1); (g2, c2); (m, tot)]
    /\ values c1 = map fst gpairs
    /\ values c2 = map snd gpairs
    /\ values tot
       = map (fun p => group_total c (row_keys [values k1; values k2]) (pair_key p))
           gpairs
    /\ group_keys (row_keys [values k1; values k2]) = map pair_key gpairs
    /\ Forall (fun p => In p (zip (values k1) (values k2))) gpairs.
Proof.
  intros H1 H2 Hc Hn Hm1 Hm2 H12.
  set (keys := row_keys [values k1; values k2]).
  destruct (keys_as_pairs pair_key (zip (values k1) (values k2)) (group_keys keys))
    as [gpairs [Hgk Hin]].
  { intros k Hk. apply group_keys_In in Hk. unfold keys in Hk.
    rewrite row_keys_pairs in Hk. exact Hk. }
  destruct (agg_sum_values keys (group_keys keys) c Hn) as [tot [Hagg Hvals]].
  destruct (key_components_value_pairs gpairs) as [K0 K1].
  exists gpairs, (rebuild k1 (key_component 0 (group_keys keys))),
    (rebuild k2 (key_component 1 (group_keys keys))), tot.
  split; [|split; [|split; [|split; [|split]]]].
  - unfold groupby_agg. cbn [mapM]. rewrite (getitem_ok _ _ _ H1).
    cbn [rbind ok]. rewrite (getitem_ok _ _ _ H2). cbn [rbind ok].
    rewrite (getitem_ok _ _ _ Hc). cbn [rbind ok map].
    fold keys. rewrite Hagg. cbn [rbind ok existsb has_dup].
    rewrite Hm1, Hm2, H12. cbn [orb]. reflexivity.
  - rewrite Hgk, K0. apply rebuild_faithful.
    apply List.Forall_forall. intros v Hv. apply in_map_iff in Hv.
    destruct Hv as [[a b] [<- Hp]]. rewrite List.Forall_forall in Hin.
    apply Hin in Hp. apply in_zip in Hp. apply Hp.
  - rewrite Hgk, K1. apply rebuild_faithful.
    apply List.Forall_forall. intros v Hv. apply in_map_iff in Hv.
    destruct Hv as [[a b] [<- Hp]]. rewrite List.Forall_forall in Hin.
    apply Hin in Hp. apply in_zip in Hp. apply Hp.
  - rewrite Hvals, Hgk, map_map. reflexivity.
  - exact Hgk.
  - exact Hin.
Qed.

Lemma existsb_value_cong (a b : value) (l : list value) :
  value_eqb a b = true -> existsb (value_eqb a) l = existsb (value_eqb b) l.
Proof.
  intros H. induction l as [|x l IH]; [reflexivity|].
  cbn [existsb]. rewrite IH, (value_eqb_cong a b x H). reflexivity.
Qed.

(** X21. With int64 periods, the yearly trend of the French companies
    has one row per year and company of the bar chart: a year and a
    company that occur together in a row of the French cohort, the
    company being one of the bars, with the sum of the metric over the
    rows of that year and company. Every bar has its years in the trend
    and no other company has; the notice replaces the chart only when
    there is no such row. *)
Theorem compare_trend_follows_the_bars :
  forall (d : DataFrame) (metric : string) (top_n : Z) (pays comp mc : column)
         (periods : list Z),
    getcol d "CIE_PAYS" = Some pays ->
    let df_fr := france_rows d pays in
    let cc := company_column df_fr in
    let years := map (fun p => VInt (p / 100)) periods in
    let total p :=
      group_total (to_numeric mc) (row_keys [years; values comp]) [fst p; snd p] in
    frame_empty df_fr = false ->
    getcol df_fr cc = Some comp ->
    getcol df_fr metric = Some mc ->
    getcol df_fr "ANMOIS" = Some (IntCol periods) ->
    String.eqb metric cc = false ->
    String.eqb metric "year" = false ->
    String.eqb cc "year" = false ->
    exists (names totals : column) (trend : trend_outcome)
           (shown : list (value * value)),
      compare_french_companies (Some d) metric top_n
      = ok (CompareShown [(cc, names); (metric, totals)] trend)
      /\ match trend with
         | TrendShown ts_top =>
             shown <> []
             /\ exists ty tc tt : column,
                  ts_top = [("year", ty); (cc, tc); (metric, tt)]
                  /\ values ty = map fst shown
                  /\ values tc = map snd shown
                  /\ values tt = map total shown
         | TrendEmpty => shown = []
         | _ => False
         end
      /\ ordered_by (fun a b => negb (key_eqb (pair_key a) (pair_key b))) shown
      /\ (forall p, In p shown ->
            In p (zip years (values comp))
            /\ existsb (value_eqb (snd p)) (values names) = true)
      /\ (forall y g,
            In (y, g) (zip years (values comp)) -> notna g = true ->
            existsb (value_eqb g) (values names) = true ->
            exists p, In p shown /\ value_eqb (fst p) y = true
                      /\ value_eqb (snd p) g = true).
Proof.
  intros d metric top_n pays comp mc periods Hp df_fr cc years total
    Hne Hcomp Hmc Ha Hcm Hmy Hcy.
  assert (Hd : frame_empty d = false).
  { destruct (frame_empty d) eqn:E; [|reflexivity].
    unfold df_fr, france_rows in Hne.
    rewrite (select_rows_of_empty _ d E) in Hne. discriminate. }
  set (df2 := setcol df_fr metric (to_numeric mc)).
  assert (Hcomp2 : getcol df2 cc = Some comp).
  { unfold df2. rewrite getcol_setcol_ne; [exact Hcomp|].
    rewrite String.eqb_sym. exact Hcm. }
  assert (Hmc2 : getcol df2 metric = Some (to_numeric mc)).
  { apply getcol_setcol_eq. }
  assert (Ha2 : getcol df2 "ANMOIS" = Some (IntCol periods)).
  { unfold df2. destruct (String.eqb "ANMOIS" metric) eqn:E.
    - apply String.eqb_eq in E. subst metric. rewrite getcol_setcol_eq.
      rewrite Ha in Hmc. injection Hmc as <-. reflexivity.
    - rewrite getcol_setcol_ne by exact E. exact Ha. }
  destruct (ranking_of_groups df2 cc metric comp (to_numeric mc) Hcomp2 Hmc2
              (to_numeric_is_numeric mc) Hcm)
    as [names [totals [Hrun _]]].
  set (ycol := IntCol (map (fun z => z / 100) periods)).
  set (df3 := setcol df2 "year" ycol).
  assert (Hy3 : getcol df3 "year" = Some ycol) by apply getcol_setcol_eq.
  assert (Hcomp3 : getcol df3 cc = Some comp).
  { unfold df3. rewrite getcol_setcol_ne by exact Hcy. exact Hcomp2. }
  assert (Hmc3 : getcol df3 metric = Some (to_numeric mc)).
  { unfold df3. rewrite getcol_setcol_ne by exact Hmy. exact Hmc2. }
  assert (Hyc : String.eqb "year" cc = false).
  { rewrite String.eqb_sym. exact Hcy. }
  destruct (groupby_two_keys df3 "year" cc metric ycol comp (to_numeric mc)
              Hy3 Hcomp3 Hmc3 (to_numeric_is_numeric mc) Hmy Hcm Hyc)
    as [gpairs [c1 [c2 [tot [Hts [Hv1 [Hv2 [Hvt [Hgk Hin]]]]]]]]].
  assert (Hyears : values ycol = years).
  { unfold ycol, years. cbn [values]. rewrite map_map. reflexivity. }
  rewrite Hyears in Hvt, Hgk, Hin.
  set (bars := head_n top_n (values names)).
  set (keep := fun p : value * value => existsb (value_eqb (snd p)) bars).
  set (mask := map keep gpairs).
  set (shown := List.filter keep gpairs).
  assert (Hmask : isin bars c2 = mask).
  { unfold isin, mask, keep. rewrite Hv2, map_map. reflexivity. }
  assert (Hsel : forall (c0 : column) (f : value * value -> value),
             values c0 = map f gpairs ->
             values (select_col mask c0) = map f shown).
  { intros c0 f Hc0. rewrite values_select_col, Hc0. apply select_map_filter. }
  assert (Htrend :
            company_trend df2 cc metric
              (head_rows top_n [(cc, names); (metric, totals)])
            = if frame_empty (select_rows mask [("year", c1); (cc, c2); (metric, tot)])
              then TrendEmpty
              else TrendShown
                     (select_rows mask [("year", c1); (cc, c2); (metric, tot)])).
  { unfold company_trend. rewrite Ha2. cbn [astype_int rbind ok col_floordiv].
    fold ycol. fold df3. rewrite Hts. cbn [rbind ok].
    unfold getitem. cbn [head_rows map fst snd getcol].
    rewrite String.eqb_refl, Hcy. cbn [rbind ok].
    rewrite values_head_col. fold bars. rewrite Hmask. reflexivity. }
  assert (Hrows : nrows (select_rows mask [("year", c1); (cc, c2); (metric, tot)])
                  = length shown).
  { cbn [select_rows map nrows fst snd]. rewrite <- values_length.
    rewrite (Hsel c1 fst Hv1). apply length_map. }
  exists (head_col top_n names), (head_col top_n totals),
    (company_trend df2 cc metric
       (head_rows top_n [(cc, names); (metric, totals)])), shown.
  rewrite values_head_col. fold bars.
  split; [|split; [|split; [|split]]].
  - unfold compare_french_companies. rewrite Hd, Hp. cbv zeta.
    fold df_fr. rewrite Hne. fold cc. rewrite Hmc. fold df2.
    destruct (groupby_agg AggSum df2 [cc] metric) as [x|agg];
      cbn [rbind] in Hrun |- *; [discriminate Hrun|].
    rewrite Hrun. cbn [rbind ok]. reflexivity.
  - rewrite Htrend. unfold frame_empty. rewrite Hrows.
    destruct shown as [|p ps] eqn:Es; [reflexivity|]. cbn [length Nat.eqb].
    split; [discriminate|].
    exists (select_col mask c1), (select_col mask c2), (select_col mask tot).
    split; [reflexivity|].
    split; [apply (Hsel c1 fst Hv1)|].
    split; [apply (Hsel c2 snd Hv2)|].
    apply (Hsel tot (fun p => total p)). exact Hvt.
  - unfold shown. apply ordered_by_filter.
    apply (proj1 (ordered_by_map pair_key
                    (fun a b => negb (key_eqb a b)) gpairs)).
    rewrite <- Hgk. apply group_keys_distinct.
  - intros p Hp'. unfold shown in Hp'. apply filter_In in Hp'.
    destruct Hp' as [Hp1 Hp2]. split; [|exact Hp2].
    rewrite List.Forall_forall in Hin. apply Hin. exact Hp1.
  - intros y g Hyg Hg Hbar.
    assert (Hyn : value_eqb y y = true).
    { apply in_zip in Hyg. destruct Hyg as [Hy' _]. unfold years in Hy'.
      apply in_map_iff in Hy'. destruct Hy' as [z [<- _]].
      apply value_eqb_refl. reflexivity. }
    destruct (group_keys_complete [y; g] [y; g] (row_keys [years; values comp]))
      as [k [Hk Heq]].
    + rewrite row_keys_pairs. apply (in_map pair_key) in Hyg. exact Hyg.
    + cbn [key_eqb]. rewrite Hyn, (value_eqb_refl g Hg). reflexivity.
    + rewrite Hgk in Hk. apply in_map_iff in Hk. destruct Hk as [p [<- Hp']].
      unfold pair_key in Heq. cbn [key_eqb] in Heq.
      apply andb_true_iff in Heq. destruct Heq as [E1 E2].
      apply andb_true_iff in E2. destruct E2 as [E2 _].
      exists p. split; [|split; [exact E1|exact E2]].
      unfold shown. apply filter_In. split; [exact Hp'|].
      unfold keep. rewrite (existsb_value_cong (snd p) g bars E2). exact Hbar.
Qed.

(** *** The seasonality matrix, cell by cell *)

Lemma rebuild_floats (l0 fs : list float64) :
  rebuild (FloatCol l0) (map VFloat fs) = FloatCol fs.
Proof.
  unfold rebuild. f_equal. induction fs as [|x fs IH]; [reflexivity|].
  change (x :: omap (fun v => match v with VFloat f => Some f | _ => None end)
                 (map VFloat fs) = x :: fs).
  f_equal. exact IH.
Qed.

Lemma Forall2_map_r {A B} (R : A -> B -> Prop) (g : A -> B) (l : list A) :
  (forall a, R a (g a)) -> Forall2 R l (map g l).
Proof. intros H. induction l as [|a l IH]; constructor; auto. Qed.

(** Each cell of an aggregated numeric column is the reduction of its
    group. *)
Lemma agg_column_values (f : aggfunc) (keys gk : list key) (c : column) :
  is_numeric_dtype c = true ->
  exists col,
    agg_column f keys gk c = ok col
    /\ Forall2 (fun k v => reduce f c (group_mask keys k) = ok v) gk (values col).
Proof.
  intros Hc. unfold agg_column.
  destruct c as [l|l|l]; try discriminate; destruct f.
  - rewrite (mapM_total _ (fun k => VInt (wrap64 (sum_Z (select (group_mask keys k) l)))))
      by reflexivity.
    eexists. split; [reflexivity|]. cbn [reduced_like].
    rewrite <- (map_map (fun k => wrap64 (sum_Z (select (group_mask keys k) l))) VInt).
    rewrite rebuild_ints. cbn [values]. rewrite map_map.
    apply Forall2_map_r. reflexivity.
  - rewrite (mapM_total _ (fun k => VFloat (nanmean (map of_Z (select (group_mask keys k) l)))))
      by reflexivity.
    eexists. split; [reflexivity|]. cbn [reduced_like].
    rewrite <- (map_map (fun k => nanmean (map of_Z (select (group_mask keys k) l))) VFloat).
    rewrite rebuild_floats. cbn [values]. rewrite map_map.
    apply Forall2_map_r. reflexivity.
  - rewrite (mapM_total _ (fun k => VFloat (nansum (select (group_mask keys k) l))))
      by reflexivity.
    eexists. split; [reflexivity|]. cbn [reduced_like].
    rewrite <- (map_map (fun k => nansum (select (group_mask keys k) l)) VFloat).
    rewrite rebuild_floats. cbn [values]. rewrite map_map.
    apply Forall2_map_r. reflexivity.
  - rewrite (mapM_total _ (fun k => VFloat (nanmean (select (group_mask keys k) l))))
      by reflexivity.
    eexists. split; [reflexivity|]. cbn [reduced_like].
    rewrite <- (map_map (fun k => nanmean (select (group_mask keys k) l)) VFloat).
    rewrite rebuild_floats. cbn [values]. rewrite map_map.
    apply Forall2_map_r. reflexivity.
Qed.

(** The grouped table of the seasonality matrix: one row per (year,
    month) pair of the data, holding the reduction of the rows of that
    year and month. *)
Lemma groupby_year_month_cells (f : aggfunc) (tmp : DataFrame) (metric : string)
  (ys ms : list Z) (c : column) :
  getcol tmp "year" = Some (IntCol ys) ->
  getcol tmp "month" = Some (IntCol ms) ->
  getcol tmp metric = Some c ->
  is_numeric_dtype c = true ->
  String.eqb metric "year" = false ->
  String.eqb metric "month" = false ->
  exists (pairs : list (Z * Z)) (col : column),
    groupby_agg f tmp ["year"; "month"] metric
    = ok [("year", IntCol (map fst pairs));
          ("month", IntCol (map snd pairs));
          (metric, col)]
    /\ group_keys (map int_key (zip ys ms)) = map int_key pairs
    /\ Forall2 (fun ym v =>
                  reduce f c (group_mask (map int_key (zip ys ms)) (int_key ym))
                  = ok v) pairs (values col).
Proof.
  intros Hy Hm Hc Hnum Hne1 Hne2. unfold groupby_agg, getitem.
  cbn [mapM]. rewrite Hy, Hm, Hc. cbn [rbind ok map values].
  rewrite row_keys_ints.
  destruct (keys_as_pairs int_key (zip ys ms) (group_keys (map int_key (zip ys ms))))
    as [pairs [Hgk Hp]]; [intros k; apply group_keys_In|].
  destruct (agg_column_values f (map int_key (zip ys ms))
              (group_keys (map int_key (zip ys ms))) c Hnum)
    as [col [Hcol Hvals]].
  rewrite Hcol. cbn [rbind ok existsb has_dup]. rewrite Hne1, Hne2. cbn [orb].
  exists pairs, col. split; [|split; [exact Hgk|]].
  - destruct (key_components_pairs pairs) as [H0 H1].
    unfold key_columns.
    change (imap _ (zip ["year"; "month"] [IntCol ys; IntCol ms]))
      with [("year", rebuild (IntCol ys)
                       (key_component 0 (group_keys (map int_key (zip ys ms)))));
            ("month", rebuild (IntCol ms)
                        (key_component 1 (group_keys (map int_key (zip ys ms)))))].
    rewrite Hgk, H0, H1, !rebuild_ints. reflexivity.
  - rewrite Hgk in Hvals. apply Forall2_fmap_l in Hvals. exact Hvals.
Qed.

Lemma filter_all {A} (l : list A) : List.filter (fun _ => true) l = l.
Proof. induction l as [|a l IH]; simpl; [|rewrite IH]; reflexivity. Qed.

Lemma zip_maps {A B C} (f : A -> B) (g : A -> C) (l : list A) :
  zip (map f l) (map g l) = map (fun a => (f a, g a)) l.
Proof. induction l as [|a l IH]; simpl; [|rewrite IH]; reflexivity. Qed.

Lemma mask_and_map_same {A} (f g : A -> bool) (l : list A) :
  mask_and (map f l) (map g l) = map (fun a => f a && g a) l.
Proof. induction l as [|a l IH]; simpl; [|rewrite IH]; reflexivity. Qed.

Lemma reduce_select (f : aggfunc) (m mask1 mask2 : list bool) (c : column) :
  (forall A (l : list A), select mask1 (select m l) = select mask2 l) ->
  reduce f (select_col m c) mask1 = reduce f c mask2.
Proof. intros H. destruct f, c; simpl; rewrite H; reflexivity. Qed.

Lemma key_eqb_int_key (a b : Z * Z) :
  key_eqb (int_key a) (int_key b) = (fst a =? fst b) && (snd a =? snd b).
Proof.
  unfold int_key. cbn [key_eqb]. rewrite !value_eqb_int, andb_true_r. reflexivity.
Qed.

(** The grouped table the seasonality matrix is pivoted from, in terms
    of the periods of the data: the rows kept are those of the last
    years when a limit is set, and each cell reduces the rows of its
    year and month. *)
Lemma heatmap_table (df : DataFrame) (metric aggfunc_ : string)
  (years_limit : option Z) (periods : list Z) (mc : column) (within : Z -> bool) :
  frame_empty df = false ->
  getcol df "ANMOIS" = Some (IntCol periods) ->
  getcol df metric = Some mc ->
  is_numeric_dtype mc = true ->
  String.eqb metric "year" = false ->
  String.eqb metric "month" = false ->
  within = (fun y =>
              match years_limit with
              | Some n =>
                  if 0 <? n
                  then (max_list (map (fun z => z / 100) periods) - (n - 1) <=? y)
                       && (y <=? max_list (map (fun z => z / 100) periods))
                  else true
              | None => true
              end) ->
  exists (pairs : list (Z * Z)) (col : column),
    heatmap_seasonality (Some df) (Some metric) aggfunc_ years_limit
    = (let? pv := pivot [("year", IntCol (map fst pairs));
                         ("month", IntCol (map snd pairs));
                         (metric, col)] "year" "month" metric in
       let pv := reindex_columns pv months in
       if pivot_all_na pv then ok (HeatAllMissing pv) else ok (HeatFigure pv))
    /\ group_keys (map int_key (map (fun p => (p / 100, p mod 100))
                                  (List.filter (fun p => within (p / 100)) periods)))
       = map int_key pairs
    /\ Forall2 (fun ym v =>
                  reduce (if String.eqb aggfunc_ "mean" then AggMean else AggSum) mc
                    (map (fun p => within (p / 100)
                                   && ((fst ym =? p / 100) && (snd ym =? p mod 100)))
                       periods)
                  = ok v) pairs (values col).
Proof.
  intros Hne Hanm Hmc Hnum Hny Hnm Hw.
  set (f := if String.eqb aggfunc_ "mean" then AggMean else AggSum).
  unfold heatmap_seasonality. rewrite Hne.
  rewrite (proj2 (has_column_getcol df metric) (ex_intro _ mc Hmc)).
  cbn [negb]. rewrite Hanm. cbn [astype_int rbind ok].
  set (tmp1 := setcol df "ANMOIS" (IntCol periods)).
  assert (H1 : getcol tmp1 "ANMOIS" = Some (IntCol periods))
    by apply getcol_setcol_eq.
  rewrite (getitem_ok _ _ _ H1). cbn [rbind ok col_floordiv astype_int].
  set (ys := map (fun z => z / 100) periods) in *.
  set (tmp2 := setcol tmp1 "year" (IntCol ys)).
  assert (H2 : getcol tmp2 "ANMOIS" = Some (IntCol periods)).
  { unfold tmp2. rewrite getcol_setcol_ne by reflexivity. exact H1. }
  rewrite (getitem_ok _ _ _ H2). cbn [rbind ok col_mod astype_int].
  set (ms := map (fun z => z mod 100) periods).
  set (tmp3 := setcol tmp2 "month" (IntCol ms)).
  assert (Hy3 : getcol tmp3 "year" = Some (IntCol ys)).
  { unfold tmp3, tmp2. rewrite getcol_setcol_ne by reflexivity.
    apply getcol_setcol_eq. }
  assert (Hm3 : getcol tmp3 "month" = Some (IntCol ms))
    by apply getcol_setcol_eq.
  assert (Hc3 : getcol tmp3 metric = Some mc).
  { unfold tmp3, tmp2, tmp1. rewrite !getcol_setcol_ne by assumption.
    destruct (String.eqb metric "ANMOIS") eqn:E.
    - apply String.eqb_eq in E. subst metric. rewrite getcol_setcol_eq.
      rewrite Hanm in Hmc. exact Hmc.
    - rewrite getcol_setcol_ne by exact E. exact Hmc. }
  fold f.
  set (row := fun p : Z => (p / 100, p mod 100)).
  assert (Hkeys : forall l, map int_key (zip (map (fun z => z / 100) l)
                                           (map (fun z => z mod 100) l))
                            = map int_key (map row l)).
  { intros l. rewrite zip_maps. reflexivity. }
  assert (Hq : forall (ym : Z * Z) (l : list Z),
             group_mask (map int_key (map row l)) (int_key ym)
             = map (fun p => (fst ym =? p / 100) && (snd ym =? p mod 100)) l).
  { intros ym l. unfold group_mask. rewrite !map_map. apply map_ext.
    intros p. apply key_eqb_int_key. }
  assert (Hall : (forall y, within y = true) ->
            exists (pairs : list (Z * Z)) (col : column),
              (let? agg := groupby_agg f tmp3 ["year"; "month"] metric in
               let? pv := pivot agg "year" "month" metric in
               let pv := reindex_columns pv months in
               if pivot_all_na pv then ok (HeatAllMissing pv) else ok (HeatFigure pv))
              = (let? pv := pivot [("year", IntCol (map fst pairs));
                                   ("month", IntCol (map snd pairs));
                                   (metric, col)] "year" "month" metric in
                 let pv := reindex_columns pv months in
                 if pivot_all_na pv then ok (HeatAllMissing pv)
                 else ok (HeatFigure pv))
              /\ group_keys (map int_key (map row
                               (List.filter (fun p => within (p / 100)) periods)))
                 = map int_key pairs
              /\ Forall2 (fun ym v =>
                            reduce f mc
                              (map (fun p => within (p / 100)
                                             && ((fst ym =? p / 100)
                                                 && (snd ym =? p mod 100)))
                                 periods)
                            = ok v) pairs (values col)).
  { intros Hin.
    destruct (groupby_year_month_cells f tmp3 metric ys ms mc Hy3 Hm3 Hc3 Hnum
                Hny Hnm) as [pairs [col [Hagg [Hgk Hvals]]]].
    exists pairs, col. rewrite Hagg. split; [reflexivity|].
    unfold ys, ms in Hgk, Hvals. rewrite Hkeys in Hgk, Hvals.
    split.
    - rewrite (filter_ext (fun p => within (p / 100)) (fun _ => true))
        by (intros p; apply Hin).
      rewrite filter_all. exact Hgk.
    - eapply Forall2_impl; [exact Hvals|].
      intros ym v Hred. cbv beta in Hred. rewrite Hq in Hred.
      rewrite <- Hred. f_equal. apply map_ext. intros p. rewrite Hin. reflexivity. }
  destruct years_limit as [n|]; [destruct (0 <? n) eqn:En|].
  - rewrite (getitem_ok _ _ _ Hy3). cbn [rbind ok ints].
    rewrite between_mask_years. cbn [rbind ok].
    set (K := fun y => (max_list ys - (n - 1) <=? y) && (y <=? max_list ys)).
    assert (HwK : forall y, within y = K y) by (intros y; rewrite Hw; reflexivity).
    set (m := map K ys).
    assert (Hm : m = map (fun p => within (p / 100)) periods).
    { unfold m, ys. rewrite map_map. apply map_ext. intros p. symmetry. apply HwK. }
    destruct (groupby_year_month_cells f (select_rows m tmp3) metric
                (select m ys) (select m ms) (select_col m mc)) as
      [pairs [col [Hagg [Hgk Hvals]]]].
    + rewrite getcol_select_rows, Hy3. reflexivity.
    + rewrite getcol_select_rows, Hm3. reflexivity.
    + rewrite getcol_select_rows, Hc3. reflexivity.
    + rewrite select_col_numeric. exact Hnum.
    + exact Hny.
    + exact Hnm.
    + exists pairs, col. rewrite Hagg. split; [reflexivity|].
      assert (Hsy : select m ys
                    = map (fun z => z / 100)
                        (List.filter (fun p => within (p / 100)) periods)).
      { rewrite Hm. unfold ys. apply select_map_filter. }
      assert (Hsm : select m ms
                    = map (fun z => z mod 100)
                        (List.filter (fun p => within (p / 100)) periods)).
      { rewrite Hm. unfold ms. apply select_map_filter. }
      rewrite Hsy, Hsm, Hkeys in Hgk, Hvals.
      split; [exact Hgk|].
      eapply Forall2_impl; [exact Hvals|].
      intros ym v Hred. cbv beta in Hred. rewrite Hq in Hred.
      rewrite <- Hred. symmetry. apply reduce_select.
      intros A l. rewrite <- select_map_filter, <- Hm.
      rewrite select_select. rewrite Hm, mask_and_map_same. reflexivity.
  - cbn [rbind ok]. apply Hall. intros y. rewrite Hw. reflexivity.
  - cbn [rbind ok]. apply Hall. intros y. rewrite Hw. reflexivity.
Qed.


Lemma months_lookup (j : nat) (mv : value) :
  months !! j = Some mv -> mv = VInt (Z.of_nat j + 1).
Proof.
  unfold months. intros H.
  do 12 (destruct j as [|j]; [injection H as <-; reflexivity|]).
  discriminate H.
Qed.




(** The rows of a grouped table of two int64 columns: the distinct pairs
    of the data. *)
Lemma pairs_of_rows (rows pairs : list (Z * Z)) :
  group_keys (map int_key rows) = map int_key pairs ->
  ordered_by (fun a b => negb (key_eqb (int_key a) (int_key b))) pairs
  /\ (forall ym, In ym pairs <-> In ym rows).
Proof.
  intros Hgk. split.
  - apply (proj1 (ordered_by_map int_key (fun a b => negb (key_eqb a b)) pairs)).
    rewrite <- Hgk. apply group_keys_distinct.
  - intros [y m]. split.
    + intros Hin. apply (in_map int_key) in Hin. rewrite <- Hgk in Hin.
      apply group_keys_In in Hin. apply in_map_iff in Hin.
      destruct Hin as [[y' m'] [Heq Hin]]. unfold int_key in Heq. cbn [fst snd] in Heq.
      injection Heq as -> ->. exact Hin.
    + intros Hin.
      destruct (group_keys_complete (int_key (y, m)) (int_key (y, m))
                  (map int_key rows)) as [g [Hg Heq]].
      * apply in_map. exact Hin.
      * rewrite key_eqb_int_key, !Z.eqb_refl. reflexivity.
      * rewrite Hgk in Hg. apply in_map_iff in Hg. destruct Hg as [[y' m'] [<- Hg]].
        rewrite key_eqb_int_key in Heq. cbn [fst snd] in Heq.
        apply andb_true_iff in Heq. destruct Heq as [E1 E2].
        apply Z.eqb_eq in E1. apply Z.eqb_eq in E2. subst. exact Hg.
Qed.

Lemma sorted_labels_ints (l : list Z) :
  exists years,
    sorted_labels (map VInt l) = map VInt years
    /\ ordered_by Z.ltb years
    /\ (forall y, In y years <-> In y l).
Proof.
  destruct (group_keys_years l) as [years [Hgk [Hord Hin]]].
  exists years. split; [|split; assumption].
  unfold sorted_labels. rewrite map_map.
  change (map (fun x : Z => [VInt x]) l) with (map year_key l).
  rewrite Hgk. clear. induction years as [|y years IH]; [reflexivity|].
  cbn [map concat app]. unfold year_key at 1. cbn [app]. rewrite IH. reflexivity.
Qed.

Lemma fold_max_In (l : list Z) (x : Z) : In (fold_left Z.max l x) (x :: l).
Proof.
  revert x. induction l as [|a l IH]; intros x; [left; reflexivity|].
  cbn [fold_left]. destruct (IH (Z.max x a)) as [H|H].
  - rewrite <- H. destruct (Z.max_spec x a) as [[_ ->]|[_ ->]];
      [right; left; reflexivity | left; reflexivity].
  - right. right. exact H.
Qed.

Lemma max_list_In (l : list Z) : l <> [] -> In (max_list l) l.
Proof. destruct l as [|x l]; [congruence|]. intros _. apply fold_max_In. Qed.

(** Integers in strictly ascending order between two bounds. *)
Lemma ordered_ltb_length (l : list Z) (lo hi : Z) :
  ordered_by Z.ltb l -> (forall y, In y l -> lo <= y <= hi) -> lo <= hi + 1 ->
  Z.of_nat (length l) <= hi - lo + 1.
Proof.
  revert lo. induction l as [|x l IH]; intros lo Hord Hb Hlo; [simpl; lia|].
  destruct Hord as [Hx Hord]. rewrite List.Forall_forall in Hx.
  assert (Hxb : lo <= x <= hi) by (apply Hb; left; reflexivity).
  assert (Hl : Z.of_nat (length l) <= hi - (x + 1) + 1).
  { apply IH; [exact Hord| |lia].
    intros y Hy. specialize (Hx y Hy). apply Z.ltb_lt in Hx.
    specialize (Hb y (or_intror Hy)). lia. }
  cbn [length]. lia.
Qed.

(** X22. The rows of the seasonality matrix are the years of the data,
    in ascending order; with a limit of N years they are the years
    within N - 1 of the greatest year of the data, so at most N rows. *)
Theorem heatmap_rows_are_the_last_years :
  forall (df : DataFrame) (metric aggfunc_ : string) (years_limit : option Z)
         (periods : list Z) (mc : column),
    frame_empty df = false ->
    getcol df "ANMOIS" = Some (IntCol periods) ->
    getcol df metric = Some mc ->
    is_numeric_dtype mc = true ->
    String.eqb metric "year" = false ->
    String.eqb metric "month" = false ->
    exists (pv : Pivot) (years : list Z),
      (heatmap_seasonality (Some df) (Some metric) aggfunc_ years_limit
       = ok (HeatFigure pv)
       \/ heatmap_seasonality (Some df) (Some metric) aggfunc_ years_limit
          = ok (HeatAllMissing pv))
      /\ p_index pv = map VInt years
      /\ ordered_by Z.ltb years
      /\ (forall y,
            In y years <->
            exists p, In p periods /\ y = p / 100
                      /\ forall n, years_limit = Some n -> 0 < n ->
                                   forall q, In q periods -> q / 100 - (n - 1) <= y)
      /\ (forall n, years_limit = Some n -> 0 < n -> Z.of_nat (length years) <= n).
Proof.
  intros df metric aggfunc_ years_limit periods mc Hne Hanm Hmc Hnum Hny Hnm.
  set (ys := map (fun z => z / 100) periods).
  set (within := fun y =>
                   match years_limit with
                   | Some n =>
                       if 0 <? n
                       then (max_list ys - (n - 1) <=? y) && (y <=? max_list ys)
                       else true
                   | None => true
                   end).
  destruct (heatmap_table df metric aggfunc_ years_limit periods mc within
              Hne Hanm Hmc Hnum Hny Hnm eq_refl) as [pairs [col [Hrun [Hgk _]]]].
  rewrite Hrun. clear Hrun.
  unfold pivot, getitem. cbn [getcol].
  change (String.eqb "year" "year") with true.
  change (String.eqb "month" "year") with false.
  change (String.eqb "month" "month") with true.
  rewrite Hny, Hnm, String.eqb_refl. cbn [rbind ok values].
  set (pv := reindex_columns _ months).
  destruct (sorted_labels_ints (map fst pairs)) as [years [Hidx [Hord Hin]]].
  destruct (pairs_of_rows _ _ Hgk) as [_ Hrows].
  assert (Hmax : forall q, In q periods -> q / 100 <= max_list ys).
  { intros q Hq. apply min_max_bounds. unfold ys. apply in_map_iff. eauto. }
  assert (Hyears : forall y, In y years <->
                             exists p, In p periods /\ y = p / 100 /\ within y = true).
  { intros y. rewrite Hin. split.
    - intros Hy. apply in_map_iff in Hy. destruct Hy as [[y' m] [Heq Hp]].
      cbn [fst] in Heq. subst y'. apply Hrows in Hp.
      apply in_map_iff in Hp. destruct Hp as [p [Heq Hp]].
      injection Heq as Hy _. apply filter_In in Hp. destruct Hp as [Hp Hw].
      exists p. rewrite <- Hy. auto.
    - intros [p [Hp [-> Hw]]].
      apply in_map_iff. exists (p / 100, p mod 100). split; [reflexivity|].
      apply Hrows. apply (in_map (fun p => (p / 100, p mod 100))).
      apply filter_In. auto. }
  exists pv, years.
  split; [destruct (pivot_all_na pv); auto|].
  split; [exact Hidx|]. split; [exact Hord|]. split.
  - intros y. rewrite Hyears. split.
    + intros [p [Hp [Hy Hw]]]. exists p. split; [exact Hp|]. split; [exact Hy|].
      intros n -> Hn q Hq. unfold within in Hw.
      assert (E : (0 <? n) = true) by (apply Z.ltb_lt; exact Hn).
      rewrite E in Hw. apply andb_true_iff in Hw. destruct Hw as [Hlo _].
      apply Z.leb_le in Hlo. specialize (Hmax q Hq). lia.
    + intros [p [Hp [Hy Hlim]]]. exists p. split; [exact Hp|]. split; [exact Hy|].
      unfold within. destruct years_limit as [n|]; [|reflexivity].
      destruct (0 <? n) eqn:E; [|reflexivity]. apply Z.ltb_lt in E.
      assert (Hys : ys <> []).
      { unfold ys. destruct periods; [destruct Hp | discriminate]. }
      pose proof (max_list_In ys Hys) as Hm. unfold ys in Hm at 2.
      apply in_map_iff in Hm. destruct Hm as [q [Hq Hqin]].
      specialize (Hlim n eq_refl E q Hqin). rewrite Hq in Hlim.
      apply andb_true_iff. split; [apply Z.leb_le; lia|].
      apply Z.leb_le. subst y. apply Hmax. exact Hp.
  - intros n -> Hn.
    assert (E : (0 <? n) = true) by (apply Z.ltb_lt; exact Hn).
    assert (Hlen : Z.of_nat (length years)
                   <= max_list ys - (max_list ys - (n - 1)) + 1);
      [|lia].
    apply ordered_ltb_length; [exact Hord| |lia].
    intros y Hy. apply Hyears in Hy. destruct Hy as [p [_ [_ Hw]]].
    unfold within in Hw. rewrite E in Hw.
    apply andb_true_iff in Hw. destruct Hw as [Hlo Hhi].
    apply Z.leb_le in Hlo. apply Z.leb_le in Hhi. lia.
Qed.




End Pipeline.

(** * Instances for the examples

    The library parsers the model is parameterised by, instantiated with
    readers of plain decimal integers. *)

Lemma dec_int_decimal (z : Z) : dec_int (decimal z) = Some z.
Proof.
  unfold dec_int, decimal. rewrite NilEmpty.isi. simpl.
  rewrite DecimalZ.of_to. reflexivity.
Qed.

(** * Witnesses and counterexamples *)

(** The periods 2019-01 and 2024-12, arriving as text, are decomposed. *)
Lemma period_decompose_recompose_witness :
  exists (r' : ref) (h' : heap) (d' : DataFrame),
    _ensure_year_column dec_int 0%nat [text_period_frame] = (h', ok r')
    /\ h' !! r' = Some d'
    /\ getcol d' "year" = Some (IntCol [2019; 2024])
    /\ getcol d' "month" = Some (IntCol [1; 12])
    /\ getcol d' "year" = Some (IntCol [2019; 2024])
    /\ getcol d' "month" = Some (IntCol [1; 12])
    /\ [2019 * 100 + 1; 2024 * 100 + 12] = [201901; 202412].
Proof.
  apply (period_decompose_recompose dec_int [text_period_frame] 0%nat
           text_period_frame [(2019, 1); (2024, 12)] true).
  - exact dec_int_decimal.
  - repeat constructor; simpl; lia.
  - intros _. repeat constructor.
  - reflexivity.
  - reflexivity.
Defined.



(** C3, counterexample. The mean of the single group [10, missing, 30] is
    20, in the aggregator and in the cell of the seasonality matrix: it
    is not 15. *)
Lemma mean_of_10_missing_30_is_20_not_15 :
  reduce AggMean (FloatCol [of_Z 10; NaN; of_Z 30]) [true; true; true]
  = ok (VFloat (of_Z 20))
  /\ value_eqb (VFloat (of_Z 20)) (VFloat (of_Z 15)) = false
  /\ heatmap_seasonality dec_int (Some gap_frame) (Some "CIE_PAX") "mean" None
     = ok (HeatFigure
             {| p_index := [VInt 2019];
                p_columns := months;
                p_cells := [VFloat (of_Z 20) :: repeat (VFloat NaN) 11] |}).
Proof. repeat split; vm_compute; reflexivity. Qed.

(** C5, counterexample. The one cell that is not null converts, so the
    share among the non-null cells is 1 > 0.5; the column stays text all
    the same, because the two null cells count: 1/3 is not above 0.5. *)
Lemma sparse_numeric_column_stays_text :
  spec_numeric_decision str_integral dec_number sparse_column = true
  /\ is_numeric_dtype (normalize_column str_integral dec_number (ObjCol sparse_column))
     = false
  /\ normalize_column str_integral dec_number (ObjCol sparse_column)
     = ObjCol [VStr "1 234"; VStr "nan"; VStr "nan"].
Proof. repeat split; vm_compute; reflexivity. Qed.

(** Two cells of three convert: the column becomes numeric, the cell that
    failed is NaN. *)
Lemma normalize_column_decision_witness :
  (is_numeric_dtype
     (normalize_column str_integral dec_number (ObjCol mostly_numeric_column)) = true
   <-> (3 < 2 * 2)%nat)
  /\ normalize_column str_integral dec_number (ObjCol mostly_numeric_column)
     = FloatCol [of_Z 1234; of_Z 12; NaN].
Proof.
  pose proof (normalize_column_decision str_integral dec_number
                mostly_numeric_column eq_refl eq_refl) as [Hiff [Hnum _]].
  split.
  - exact Hiff.
  - rewrite Hnum by (apply Hiff; vm_compute; lia). vm_compute. reflexivity.
Defined.



(** In that matrix the month whose rows sum to 0 holds 0, the months
    without rows hold NaN. *)
Lemma true_zero_is_not_missing :
  heatmap_seasonality dec_int (Some seasons_frame) (Some "CIE_PAX") "sum" None
  = ok (HeatFigure
          {| p_index := [VInt 2019];
             p_columns := months;
             p_cells := [VInt 0 :: VFloat NaN :: VInt 7 :: repeat (VFloat NaN) 9] |}).
Proof. vm_compute. reflexivity. Qed.


(** The three cases of the percentage, on the totals of the
    specification. *)
Lemma safe_pct_cases :
  safe_pct (of_Z 0) (of_Z 50) = PInf
  /\ Float64.sub (of_Z 50) (of_Z 0) = of_Z 50
  /\ safe_pct (of_Z 0) (of_Z 0) = of_Z 0
  /\ Float64.sub (of_Z 0) (of_Z 0) = of_Z 0
  /\ safe_pct (of_Z 200) (of_Z 100) = of_Z 50
  /\ Float64.sub (of_Z 100) (of_Z 200) = of_Z (-100).
Proof. repeat split; vm_compute; reflexivity. Qed.

(** * Witnesses of the further properties *)

(** A frame without period column is written to in place. *)
Lemma ensure_year_column_aliasing_witness :
  exists (h' : heap) (r' : ref),
    _ensure_year_column dec_int 0%nat [text_only_frame] = (h', ok r')
    /\ if has_column "ANMOIS" text_only_frame
       then r' = length [text_only_frame]
            /\ h' !! 0%nat = Some text_only_frame
            /\ firstn (length [text_only_frame]) h' = [text_only_frame]
       else r' = 0%nat
            /\ h' = <[0%nat := setcol text_only_frame "year"
                                 (na_column (nrows text_only_frame))]>
                      [text_only_frame].
Proof.
  apply (ensure_year_column_aliasing dec_int [text_only_frame] 0%nat
           text_only_frame).
  reflexivity.
Defined.

Lemma ensure_year_column_idempotent_witness :
  exists (h1 h2 : heap) (r1 r2 : ref) (e : DataFrame),
    _ensure_year_column dec_int 0%nat [text_period_frame] = (h1, ok r1)
    /\ h1 !! r1 = Some e
    /\ _ensure_year_column dec_int r1 h1 = (h2, ok r2)
    /\ h2 !! r2 = Some e.
Proof.
  apply (ensure_year_column_idempotent dec_int [text_period_frame] 0%nat
           text_period_frame).
  reflexivity.
Defined.

(** The years 2019 to 2024, France, French carriers: the second and the
    fourth row of the example remain. *)
Lemma filter_and_make_tables_of_returned_frame_witness :
  let filters := build_filters (Some 2019) (Some 2024) (Some ["FRANCE"]) (Some "F") in
  snd (filter_and_make dec_int str_integral 0%nat (Some 2019) (Some 2024)
         (Some ["FRANCE"]) (Some "CIE_PAX") (Some "F") [routes_frame])
  = (let? df := filter_frame (ensure_frame dec_int routes_frame) filters in
     let? t := build_tables str_integral df (Some "CIE_PAX") in
     ok (df, t))
  /\ snd (make_tables dec_int str_integral 0%nat (Some filters) (Some "CIE_PAX")
            [routes_frame])
     = (let? df := filter_frame (ensure_frame dec_int routes_frame) filters in
        build_tables str_integral df (Some "CIE_PAX")).
Proof.
  apply (filter_and_make_tables_of_returned_frame dec_int str_integral
           [routes_frame] 0%nat routes_frame).
  - reflexivity.
  - left. reflexivity.
Defined.

Lemma filter_and_make_keeps_matching_rows_witness :
  let keep := [false; true; false; true] in
  let df := select_rows keep (ensure_frame dec_int routes_frame) in
  snd (filter_and_make dec_int str_integral 0%nat (Some 2019) (Some 2024)
         (Some ["FRANCE"]) (Some "CIE_PAX") (Some "F") [routes_frame])
  = (let? t := build_tables str_integral df (Some "CIE_PAX") in ok (df, t)).
Proof.
  apply (filter_and_make_keeps_matching_rows dec_int str_integral
           [routes_frame] 0%nat routes_frame (Some 2019) (Some 2024)
           (Some ["FRANCE"]) (Some "CIE_PAX") (Some "F")
           [201812; 201901; 202003; 202401]
           (ObjCol [VStr "FRANCE"; VStr "FRANCE"; VStr "ESPAGNE"; VStr "FRANCE"])
           (ObjCol [VStr "F"; VStr "F"; VStr "E"; VStr "F"])).
  - reflexivity.
  - reflexivity.
  - reflexivity.
  - reflexivity.
  - repeat constructor.
Defined.

(** The four rows of the example fall in four years. *)
Lemma timeseries_one_row_per_year_witness :
  exists (t : Tables) (years : list Z) (totals : column),
    snd (make_tables dec_int str_integral 0%nat None (Some "CIE_PAX")
           [routes_frame]) = ok t
    /\ timeseries t = [("year", IntCol years); ("CIE_PAX", totals)]
    /\ ordered_by Z.ltb years
    /\ (forall y, In y years <-> In y [2018; 2019; 2020; 2024])
    /\ Forall2 (fun y total =>
                  reduce AggSum (IntCol [10; 20; 30; 40])
                    (map (Z.eqb y) [2018; 2019; 2020; 2024]) = ok total)
         years (values totals).
Proof.
  apply (timeseries_one_row_per_year dec_int str_integral [routes_frame] 0%nat
           routes_frame (ensure_frame dec_int routes_frame) None "CIE_PAX"
           [2018; 2019; 2020; 2024] (IntCol [10; 20; 30; 40])).
  - reflexivity.
  - reflexivity.
  - reflexivity.
  - discriminate.
  - reflexivity.
  - reflexivity.
  - reflexivity.
Defined.

(** Two countries in the example: France before Spain. *)
Lemma by_region_ranks_each_country_once_witness :
  exists (t : Tables) (regions totals : column),
    snd (make_tables dec_int str_integral 0%nat None (Some "CIE_PAX")
           [routes_frame]) = ok t
    /\ getcol (by_region t) "CIE_PAYS" = Some regions
    /\ getcol (by_region t) "CIE_PAX" = Some totals
    /\ ordered_by desc_before (values totals)
    /\ ordered_by (fun a b => negb (value_eqb a b)) (values regions)
    /\ (forall v,
          In v [VStr "FRANCE"; VStr "FRANCE"; VStr "ESPAGNE"; VStr "FRANCE"] ->
          notna v = true ->
          exists g, In g (values regions) /\ value_eqb g v = true)
    /\ Forall2 (fun g total =>
                  reduce AggSum (IntCol [10; 20; 30; 40])
                    (map (value_eqb g)
                       [VStr "FRANCE"; VStr "FRANCE"; VStr "ESPAGNE"; VStr "FRANCE"])
                  = ok total)
         (values regions) (values totals).
Proof.
  apply (by_region_ranks_each_country_once dec_int str_integral [routes_frame]
           0%nat routes_frame (ensure_frame dec_int routes_frame) None "CIE_PAX"
           (ObjCol [VStr "FRANCE"; VStr "FRANCE"; VStr "ESPAGNE"; VStr "FRANCE"])
           (IntCol [10; 20; 30; 40])).
  - reflexivity.
  - reflexivity.
  - reflexivity.
  - reflexivity.
  - reflexivity.
  - reflexivity.
Defined.

(** The two carriers of the example: the new one heads the best rows and
    is left out of the worst rows. *)
Lemma recovery_highlights_selection_witness :
  exists (h : Highlights) (by_best by_worst : list RecoveryRow),
    recovery_highlights [newair_row; oldair_row] = Some h
    /\ Permutation by_best [newair_row; oldair_row]
    /\ ordered_by (fun a b => desc_before (VFloat (rec_pct a)) (VFloat (rec_pct b)))
         by_best
    /\ best h = firstn 3 by_best
    /\ Permutation by_worst
         (List.filter (fun r => negb (Float64.eqb (rec_pct r) PInf))
            [newair_row; oldair_row])
    /\ ordered_by (fun a b => asc_before (VFloat (rec_pct a)) (VFloat (rec_pct b)))
         by_worst
    /\ worst h = firstn 3 by_worst
    /\ (forall r, In r (worst h) -> rec_pct r <> PInf)
    /\ infers h = List.filter (fun r => Float64.eqb (rec_pct r) PInf)
                    [newair_row; oldair_row].
Proof.
  apply (recovery_highlights_selection [newair_row; oldair_row]).
  repeat constructor.
Defined.

(** The example cohort has rows of 2019 and 2024. *)
Lemma recovery_years_and_table_order_witness :
  exists (cc yc : column),
    In (VInt 2024) (cohort_years (values cc) (values yc))
    /\ (forall y, In y (cohort_years (values cc) (values yc)) ->
                  Float64.leb (to_float y) (to_float (VInt 2024)) = true)
    /\ [oldair_row; newair_row] = head_n 10 [oldair_row; newair_row].
Proof.
  destruct (recovery_years_and_table_order dec_int str_integral dec_number
              (Some carriers_frame) "CIE_PAX" 10 (VInt 2019) (VInt 2024)
              [oldair_row; newair_row] [oldair_row; newair_row]
              (Some {| best := [newair_row; oldair_row];
                       worst := [oldair_row];
                       infers := [newair_row] |})
              ltac:(vm_compute; reflexivity))
    as [cc [yc [mc [_ [_ [_ [H1 [H2 [_ [_ [_ [H3 _]]]]]]]]]]]].
  exists cc, yc. cbv zeta in *. auto.
Defined.

(** The example offers its two numeric columns and passengers per
    flight. *)
Lemma offered_metric_is_computable_witness :
  metric_options routes_frame = ["CIE_PAX"; "CIE_VOL"; "PAX_PER_VOL"]
  /\ exists (df : DataFrame) (c : column),
       df_with_metrics routes_frame (Some "PAX_PER_VOL") = ok df
       /\ getcol df "PAX_PER_VOL" = Some c
       /\ (forall n, String.eqb n "PAX_PER_VOL" = false ->
                     getcol df n = getcol routes_frame n).
Proof.
  split; [reflexivity|].
  apply (offered_metric_is_computable routes_frame "PAX_PER_VOL").
  - right. right. left. reflexivity.
  - reflexivity.
  - reflexivity.
Defined.

(** One of the four rows of the example has no flight. *)
Lemma ratio_with_zero_denominator_shows_passengers_witness :
  exists (df : DataFrame) (q : column),
    df_with_metrics routes_frame (Some "PAX_PER_VOL") = ok df
    /\ getcol df "PAX_PER_VOL" = Some q
    /\ is_numeric_dtype q
       = negb (existsb (fun v => value_eqb v (VInt 0)) (values (IntCol [1; 2; 0; 4])))
    /\ (existsb (fun v => value_eqb v (VInt 0)) (values (IntCol [1; 2; 0; 4])) = true ->
        forall (h : heap) (r : ref) (filters : option Filters)
               (year_min year_max : option Z) (countries : option (list string))
               (nationality : option string),
          h !! r = Some df ->
          snd (make_tables dec_int str_integral r filters (Some "PAX_PER_VOL") h)
          = snd (make_tables dec_int str_integral r filters (Some "CIE_PAX") h)
          /\ snd (filter_and_make dec_int str_integral r year_min year_max countries
                    (Some "PAX_PER_VOL") nationality h)
             = snd (filter_and_make dec_int str_integral r year_min year_max
                      countries (Some "CIE_PAX") nationality h)).
Proof.
  apply (ratio_with_zero_denominator_shows_passengers dec_int str_integral
           routes_frame true (IntCol [10; 20; 30; 40]) (IntCol [1; 2; 0; 4])).
  - reflexivity.
  - reflexivity.
  - reflexivity.
  - reflexivity.
Defined.

(** The four periods of the example fall in four years. *)
Lemma year_options_ascending_witness :
  exists opts,
    year_options dec_int routes_frame = ok opts
    /\ ordered_by Z.ltb opts
    /\ (forall y, In y opts <->
                  exists p, In p [201812; 201901; 202003; 202401] /\ y = p / 100).
Proof.
  apply (year_options_ascending dec_int routes_frame
           (IntCol [201812; 201901; 202003; 202401])).
  - reflexivity.
  - reflexivity.
Defined.

(** The slider starts at 2018-2024: the four rows remain. *)
Lemma default_year_range_keeps_every_row_witness :
  snd (filter_and_make dec_int str_integral 0%nat (Some 2018) (Some 2024)
         (Some []) (Some "CIE_PAX") None [routes_frame])
  = (let? t := build_tables str_integral (ensure_frame dec_int routes_frame)
                 (Some "CIE_PAX") in
     ok (ensure_frame dec_int routes_frame, t)).
Proof.
  apply (default_year_range_keeps_every_row dec_int str_integral [routes_frame]
           0%nat routes_frame [201812; 201901; 202003; 202401]
           [2018; 2019; 2020; 2024]).
  - reflexivity.
  - reflexivity.
  - repeat constructor.
  - reflexivity.
  - reflexivity.
  - reflexivity.
  - reflexivity.
Defined.

(** The example has the years 2018 to 2024, with 10 and 40 passengers in
    the first and in the last. *)
Lemma change_kpi_compares_first_and_last_year_witness :
  exists t : Tables,
    snd (make_tables dec_int str_integral 0%nat None (Some "CIE_PAX")
           [routes_frame]) = ok t
    /\ change_kpi (fun s => option_map of_Z (dec_int s)) (timeseries t)
       = (ChangePct (of_Z 300), Some (DeltaInt 30))
    /\ latest_kpi dec_int (timeseries t) = Some 40.
Proof.
  destruct (change_kpi_compares_first_and_last_year dec_int str_integral
              (fun s => option_map of_Z (dec_int s)) [routes_frame] 0%nat
              routes_frame (ensure_frame dec_int routes_frame) None "CIE_PAX"
              [2018; 2019; 2020; 2024] (IntCol [10; 20; 30; 40])
              eq_refl eq_refl eq_refl eq_refl eq_refl eq_refl)
    as [t [Ht _]].
  exists t. split; [exact Ht|].
  vm_compute in Ht. injection Ht as <-. split; vm_compute; reflexivity.
Defined.

(** France totals 70 passengers, Spain 30. *)
Lemma top_region_has_the_largest_total_witness :
  exists t : Tables,
    snd (make_tables dec_int str_integral 0%nat None (Some "CIE_PAX")
           [routes_frame]) = ok t
    /\ top_region_kpi (by_region t) = Some (VStr "FRANCE").
Proof.
  destruct (top_region_has_the_largest_total dec_int str_integral [routes_frame]
              0%nat routes_frame (ensure_frame dec_int routes_frame) None
              "CIE_PAX"
              (ObjCol [VStr "FRANCE"; VStr "FRANCE"; VStr "ESPAGNE"; VStr "FRANCE"])
              (IntCol [10; 20; 30; 40])
              eq_refl eq_refl eq_refl eq_refl eq_refl eq_refl)
    as [t [Ht _]].
  exists t. split; [exact Ht|].
  vm_compute in Ht. injection Ht as <-. vm_compute. reflexivity.
Defined.

(** The yearly totals 10, 20, 30 and 40 add up to the 100 passengers of
    the example. *)
Lemma yearly_totals_add_up_to_the_total_witness :
  exists (t : Tables) (years tots : list Z) (totals : column),
    snd (filter_and_make dec_int str_integral 0%nat None None None
           (Some "CIE_PAX") None [routes_frame])
    = ok (ensure_frame dec_int routes_frame, t)
    /\ timeseries t = [("year", IntCol years); ("CIE_PAX", totals)]
    /\ values totals = map VInt tots
    /\ length tots = length years
    /\ total_kpi dec_int (Some (ensure_frame dec_int routes_frame)) "CIE_PAX"
       = Some (wrap64 (sum_Z [10; 20; 30; 40]))
    /\ wrap64 (sum_Z tots) = wrap64 (sum_Z [10; 20; 30; 40]).
Proof.
  apply (yearly_totals_add_up_to_the_total dec_int str_integral [routes_frame]
           0%nat routes_frame (ensure_frame dec_int routes_frame) None None None
           None "CIE_PAX" [2018; 2019; 2020; 2024] [10; 20; 30; 40]).
  - reflexivity.
  - right. reflexivity.
  - reflexivity.
  - reflexivity.
  - discriminate.
  - reflexivity.
  - reflexivity.
  - reflexivity.
Defined.

(** The example has two countries: both are bars, France first. *)
Lemma top10_are_the_largest_regions_witness :
  exists t : Tables,
    snd (make_tables dec_int str_integral 0%nat None (Some "CIE_PAX")
           [routes_frame]) = ok t
    /\ top10 t = Some [("CIE_PAYS", ObjCol [VStr "FRANCE"; VStr "ESPAGNE"]);
                       ("CIE_PAX", IntCol [70; 30])].
Proof.
  destruct (top10_are_the_largest_regions dec_int str_integral [routes_frame]
              0%nat routes_frame (ensure_frame dec_int routes_frame) None
              "CIE_PAX"
              (ObjCol [VStr "FRANCE"; VStr "FRANCE"; VStr "ESPAGNE"; VStr "FRANCE"])
              (IntCol [10; 20; 30; 40])
              eq_refl eq_refl eq_refl eq_refl eq_refl eq_refl)
    as [t [Ht _]].
  exists t. split; [exact Ht|].
  vm_compute in Ht. injection Ht as <-. vm_compute. reflexivity.
Defined.

(** Of the two French companies of the example, the one bar asked for
    is AIR C with its 40 passengers; AIR A, with 30, is left out. *)
Lemma compare_bars_are_the_largest_french_companies_witness :
  exists (names totals : column) (trend : trend_outcome),
    compare_french_companies dec_int str_integral dec_number
      (Some routes_frame) "CIE_PAX" 1
    = ok (CompareShown [("CIE_NOM", names); ("CIE_PAX", totals)] trend)
    /\ (length (values names) <= 1)%nat
    /\ ordered_by desc_before (values totals).
Proof.
  destruct (compare_bars_are_the_largest_french_companies dec_int str_integral
              dec_number routes_frame "CIE_PAX" 1
              (ObjCol [VStr "FRANCE"; VStr "FRANCE"; VStr "ESPAGNE"; VStr "FRANCE"])
              (ObjCol [VStr "AIR A"; VStr "AIR A"; VStr "AIR C"])
              (IntCol [10; 20; 40])
              eq_refl eq_refl eq_refl eq_refl eq_refl ltac:(lia))
    as [names [totals [trend [others [Hrun [Hle [Hord _]]]]]]].
  exists names, totals, trend. split; [exact Hrun|]. split; [exact Hle|exact Hord].
Defined.

(** With one bar, the trend of the example is the one year of AIR C. *)
Lemma compare_trend_follows_the_bars_witness :
  exists (names totals : column) (trend : trend_outcome),
    compare_french_companies dec_int str_integral dec_number
      (Some routes_frame) "CIE_PAX" 1
    = ok (CompareShown [("CIE_NOM", names); ("CIE_PAX", totals)] trend)
    /\ trend <> TrendFailed /\ trend <> TrendNoPeriod.
Proof.
  destruct (compare_trend_follows_the_bars dec_int str_integral dec_number
              routes_frame "CIE_PAX" 1
              (ObjCol [VStr "FRANCE"; VStr "FRANCE"; VStr "ESPAGNE"; VStr "FRANCE"])
              (ObjCol [VStr "AIR A"; VStr "AIR A"; VStr "AIR C"])
              (IntCol [10; 20; 40]) [201812; 201901; 202401]
              eq_refl eq_refl eq_refl eq_refl eq_refl eq_refl eq_refl eq_refl)
    as [names [totals [trend [shown [Hrun [Htrend _]]]]]].
  exists names, totals, trend. split; [exact Hrun|].
  destruct trend; try contradiction; split; discriminate.
Defined.

(** With a limit of five years the example keeps 2020 and 2024 of its
    four years. *)
Lemma heatmap_rows_are_the_last_years_witness :
  exists (pv : Pivot) (years : list Z),
    (heatmap_seasonality dec_int (Some routes_frame) (Some "CIE_PAX") "sum" (Some 5)
     = ok (HeatFigure pv)
     \/ heatmap_seasonality dec_int (Some routes_frame) (Some "CIE_PAX") "sum"
          (Some 5)
        = ok (HeatAllMissing pv))
    /\ p_index pv = map VInt years
    /\ ordered_by Z.ltb years
    /\ Z.of_nat (length years) <= 5.
Proof.
  destruct (heatmap_rows_are_the_last_years dec_int routes_frame "CIE_PAX" "sum"
              (Some 5) [201812; 201901; 202003; 202401] (IntCol [10; 20; 30; 40])
              eq_refl eq_refl eq_refl eq_refl eq_refl eq_refl)
    as [pv [years [Hrun [Hidx [Hord [_ Hlen]]]]]].
  exists pv, years. split; [exact Hrun|]. split; [exact Hidx|].
  split; [exact Hord|]. apply (Hlen 5 eq_refl). lia.
Defined.

